(** * claude_transcript_archive.cli: a shallow embedding and its properties

    The archive tool reads a transcript (one JSON record per line), derives
    statistics, artifacts and a title from it, and keeps a manifest and a
    catalog as JSON files.  The definitions below follow [cli.py] function by
    function; Python exceptions are results of type [result], and the code
    that touches the file system threads a [world]. *)

From Stdlib Require Import ZArith String Ascii List Floats Uint63.
From stdpp Require Import gmap strings list sorting.

Set Warnings "-register-all,-clear-no-such-hyp".
Local Open Scope Z_scope.
Local Open Scope string_scope.

(** ** Exceptions *)

Module Py.

Inductive exn :=
| AttributeError | TypeError | KeyError | ValueError | IndexError
| JSONDecodeError | IsADirectoryError | NotADirectoryError
| FileExistsError | FileNotFoundError | OverflowError.

Inductive result (A : Type) :=
| Ok (a : A)
| Raise (e : exn).
Arguments Ok {A} a.
Arguments Raise {A} e.

#[global] Instance result_ret : MRet result := fun A a => Ok a.
#[global] Instance result_bind : MBind result := fun A B f m =>
  match m with Ok a => f a | Raise e => Raise e end.
#[global] Instance result_fmap : FMap result := fun A B f m =>
  match m with Ok a => Ok (f a) | Raise e => Raise e end.

Definition is_Ok {A} (m : result A) : Prop := exists a, m = Ok a.

#[global] Instance exn_eq_dec : EqDecision exn.
Proof. solve_decision. Defined.
#[global] Instance result_eq_dec {A} `{EqDecision A} : EqDecision (result A).
Proof. solve_decision. Defined.

(** ** Text

    A Python [str] is a [string]: one [ascii] per character, so the model
    covers texts whose characters are the code points below 256.  On those,
    [str.isspace], [str.lower] and the case-insensitive matching of [re] are
    the functions below. *)

Definition code (c : ascii) : N := N_of_ascii c.

(** [str.isspace] on one character (also [\s] of [re] on [str] patterns). *)
Definition isspace (c : ascii) : bool :=
  let n := code c in
  ((9 <=? n) && (n <=? 13) || (28 <=? n) && (n <=? 32)
   || (n =? 133) || (n =? 160))%N.

(** [str.lower] on one character of code below 256.  (Outside that range
    [str.lower] can give two characters for one; such text is not covered.) *)
Definition lower_char (c : ascii) : ascii :=
  let n := code c in
  if ((65 <=? n) && (n <=? 90))%N then ascii_of_N (n + 32)
  else if ((192 <=? n) && (n <=? 222) && negb (n =? 215))%N
       then ascii_of_N (n + 32)
  else c.

Fixpoint lower (s : string) : string :=
  match s with
  | EmptyString => EmptyString
  | String c s' => String (lower_char c) (lower s')
  end.

Fixpoint lstrip (s : string) : string :=
  match s with
  | String c s' => if isspace c then lstrip s' else s
  | EmptyString => EmptyString
  end.

(** Drops trailing white space: a character stays when something that is not
    white space follows it, or when it is not white space itself. *)
Fixpoint rstrip (s : string) : string :=
  match s with
  | EmptyString => EmptyString
  | String c s' =>
      match rstrip s' with
      | EmptyString => if isspace c then EmptyString else String c EmptyString
      | r => String c r
      end
  end.

(** [s.strip()] *)
Definition strip (s : string) : string := rstrip (lstrip s).

(** [len(s)] *)
Definition len (s : string) : Z := Z.of_nat (String.length s).

(** [s[:n]] for [n >= 0] *)
Fixpoint take_str (n : nat) (s : string) : string :=
  match n, s with
  | S n', String c s' => String c (take_str n' s')
  | _, _ => EmptyString
  end.

(** [re.match(p, s, re.IGNORECASE)] for a pattern [p] of literal characters:
    [s] starts with [p], letter case apart.  Returns what follows. *)
Fixpoint match_literal_ci (p s : string) : option string :=
  match p, s with
  | EmptyString, _ => Some s
  | String a p', String b s' =>
      if Ascii.eqb (lower_char a) (lower_char b) then match_literal_ci p' s'
      else None
  | String _ _, EmptyString => None
  end.

(** Comparison of two [str]: by code point, the shorter first on a tie. *)
Fixpoint str_compare (a b : string) : comparison :=
  match a, b with
  | EmptyString, EmptyString => Eq
  | EmptyString, String _ _ => Lt
  | String _ _, EmptyString => Gt
  | String x a', String y b' =>
      match N.compare (code x) (code y) with
      | Eq => str_compare a' b'
      | c => c
      end
  end.

Definition str_ltb (a b : string) : bool :=
  match str_compare a b with Lt => true | _ => false end.
Definition str_leb (a b : string) : bool :=
  match str_compare a b with Gt => false | _ => true end.
Definition str_le (a b : string) : Prop := str_leb a b = true.

#[global] Instance str_le_dec a b : Decision (str_le a b).
Proof. unfold str_le. apply _. Defined.

(** ** JSON values, as [json.loads] returns them

    Numbers are the integers ([int]); an object is its list of items in
    insertion order, looked up from the front. *)

Inductive json :=
| JNull
| JBool (b : bool)
| JNum (n : Z)
| JStr (s : string)
| JArr (items : list json)
| JObj (fields : list (string * json)).

(** [bool(v)] *)
Definition truthy (v : json) : bool :=
  match v with
  | JNull => false
  | JBool b => b
  | JNum n => negb (n =? 0)%Z
  | JStr s => negb (String.eqb s "")
  | JArr l => match l with [] => false | _ => true end
  | JObj l => match l with [] => false | _ => true end
  end.

Fixpoint dict_get (key : string) (fields : list (string * json)) : option json :=
  match fields with
  | [] => None
  | (k, v) :: rest => if String.eqb k key then Some v else dict_get key rest
  end.

(** [d[key] = v]: in place when the key is there, appended otherwise. *)
Fixpoint dict_set (key : string) (v : json) (fields : list (string * json))
  : list (string * json) :=
  match fields with
  | [] => [(key, v)]
  | (k, w) :: rest =>
      if String.eqb k key then (k, v) :: rest
      else (k, w) :: dict_set key v rest
  end.

(** [v.get(key, default)]: only a [dict] has [get]. *)
Definition get (v : json) (key : string) (dflt : json) : result json :=
  match v with
  | JObj fields => Ok (default dflt (dict_get key fields))
  | _ => Raise AttributeError
  end.

(** [v[key]] for a string key. *)
Definition getitem (v : json) (key : string) : result json :=
  match v with
  | JObj fields =>
      match dict_get key fields with
      | Some x => Ok x
      | None => Raise KeyError
      end
  | _ => Raise TypeError
  end.

(** [v == s] for a string literal [s] *)
Definition eq_str (v : json) (s : string) : bool :=
  match v with JStr t => String.eqb t s | _ => false end.

(** [x or y] *)
Definition or_else (x y : json) : json := if truthy x then x else y.

(** [int] and [bool] are numbers to [+], [==] and [<]. *)
Definition as_int (v : json) : result Z :=
  match v with
  | JNum n => Ok n
  | JBool b => Ok (if b then 1 else 0)
  | _ => Raise TypeError
  end.

(** [a == b] *)
Fixpoint py_eqb (a b : json) : bool :=
  match a, b with
  | JNull, JNull => true
  | JBool x, JBool y => Bool.eqb x y
  | JBool x, JNum n | JNum n, JBool x => (n =? (if x then 1 else 0))%Z
  | JNum n, JNum m => (n =? m)%Z
  | JStr s, JStr t => String.eqb s t
  | JArr l, JArr m =>
      (fix all2 (l m : list json) : bool :=
         match l, m with
         | [], [] => true
         | x :: l', y :: m' => py_eqb x y && all2 l' m'
         | _, _ => false
         end) l m
  | JObj l, JObj m =>
      (Nat.eqb (length l) (length m)) &&
      (fix sub (l : list (string * json)) : bool :=
         match l with
         | [] => true
         | (k, x) :: l' =>
             match dict_get k m with
             | Some y => py_eqb x y && sub l'
             | None => false
             end
         end) l
  | _, _ => false
  end.

(** [a < b]: numbers with numbers, text with text, lists item by item;
    [TypeError] for any other pair. *)
Fixpoint py_lt (a b : json) : result bool :=
  match a, b with
  | (JBool _ | JNum _), (JBool _ | JNum _) =>
      x ← as_int a; y ← as_int b; Ok (x <? y)%Z
  | JStr s, JStr t => Ok (str_ltb s t)
  | JArr l, JArr m =>
      (fix lex (l m : list json) : result bool :=
         match l, m with
         | [], [] => Ok false
         | [], _ :: _ => Ok true
         | _ :: _, [] => Ok false
         | x :: l', y :: m' => if py_eqb x y then lex l' m' else py_lt x y
         end) l m
  | _, _ => Raise TypeError
  end.

(** The values that can be keys of a [dict] or members of a [set]; [True]
    and [1] are one key. *)
Inductive hkey := KNone | KInt (n : Z) | KStr (s : string).

#[global] Instance hkey_eq_dec : EqDecision hkey.
Proof. solve_decision. Defined.

Definition hash_key (v : json) : result hkey :=
  match v with
  | JNull => Ok KNone
  | JBool b => Ok (KInt (if b then 1 else 0))
  | JNum n => Ok (KInt n)
  | JStr s => Ok (KStr s)
  | JArr _ | JObj _ => Raise TypeError
  end.

End Py.

Import Py.

(** ** pathlib, for POSIX paths *)

Module Path.

(** [s.split(sep)] for a one-character separator. *)
Fixpoint split_on (sep : ascii) (s : string) : list string :=
  match s with
  | EmptyString => [EmptyString]
  | String c s' =>
      if Ascii.eqb c sep then EmptyString :: split_on sep s'
      else match split_on sep s' with
           | w :: ws => String c w :: ws
           | [] => [String c EmptyString]
           end
  end.

(** [sep.join(l)] *)
Fixpoint join (sep : string) (l : list string) : string :=
  match l with
  | [] => ""
  | [x] => x
  | x :: rest => x ++ sep ++ join sep rest
  end.

(** A pure path: its root ([""], ["/"] or ["//"]) and its components. *)
Record t := mk { root : string; tail : list string }.

(** [posixpath.splitroot]: exactly two leading slashes are a root of their
    own, three or more are one. *)
Definition splitroot (p : string) : string * string :=
  match p with
  | String "/" r =>
      match r with
      | String "/" (String "/" _) => ("/", r)
      | String "/" r2 => ("//", r2)
      | _ => ("/", r)
      end
  | _ => ("", p)
  end.

Definition keep_part (x : string) : bool :=
  negb (String.eqb x "") && negb (String.eqb x ".").

(** [Path(s)] *)
Definition of_str (s : string) : t :=
  let '(r, rel) := splitroot s in
  mk r (List.filter keep_part (split_on "/" rel)).

(** [str(p)] *)
Definition to_str (p : t) : string :=
  match root p, tail p with
  | "", [] => "."
  | r, parts => r ++ join "/" parts
  end.

(** [p / name] for a single component [name]. *)
Definition child (p : t) (name : string) : t := mk (root p) (tail p ++ [name]).

(** [p.name] *)
Definition name (p : t) : string := List.last (tail p) "".

(** Index of the last [c] in [s], counting from [i]. *)
Fixpoint rfind (c : ascii) (s : string) (i : nat) : option nat :=
  match s with
  | EmptyString => None
  | String x s' =>
      match rfind c s' (S i) with
      | Some j => Some j
      | None => if Ascii.eqb x c then Some i else None
      end
  end.

Fixpoint drop_str (n : nat) (s : string) : string :=
  match n, s with
  | S n', String _ s' => drop_str n' s'
  | _, _ => s
  end.

(** [p.suffix]: from the last dot of the name, unless that dot opens or ends
    the name. *)
Definition suffix (p : t) : string :=
  let nm := name p in
  match rfind "." nm 0 with
  | Some i =>
      if (0 <? i)%nat && (i <? String.length nm - 1)%nat then drop_str i nm
      else ""
  | None => ""
  end.

Fixpoint is_prefix (a b : list string) : bool :=
  match a, b with
  | [], _ => true
  | x :: a', y :: b' => String.eqb x y && is_prefix a' b'
  | _ :: _, [] => false
  end.

(** [p.relative_to(other)]: [ValueError] unless [other] is [p] or one of its
    parents. *)
Definition relative_to (p other : t) : result t :=
  if String.eqb (root p) (root other) && is_prefix (tail other) (tail p)
  then Ok (mk "" (drop (length (tail other)) (tail p)))
  else Raise ValueError.

(** [p.resolve()] on a file system without symbolic links whose current
    directory is [cwd]: a relative path is taken from [cwd], [..] steps
    back one component, and the result has the root [/] (also for a path
    that opens with two slashes). *)
Fixpoint collapse (acc : list string) (parts : list string) : list string :=
  match parts with
  | [] => rev acc
  | x :: rest =>
      if String.eqb x ".." then collapse (List.tl acc) rest
      else collapse (x :: acc) rest
  end.

Definition resolve_nolinks (cwd : list string) (p : t) : t :=
  if String.eqb (root p) "" then mk "/" (collapse [] (cwd ++ tail p))
  else mk "/" (collapse [] (tail p)).

End Path.

(** ** Transcripts

    [content.split("\n")] is given line by line as what the head of every
    scanning loop makes of the line: [None] when the line is blank or
    [json.loads] raises [JSONDecodeError] (the loop goes on), [Some entry]
    otherwise. *)

Definition transcript := list (option json).

Section read_lines.
(** [json.loads]; [None] stands for [JSONDecodeError]. *)
Variable json_loads : string -> option json.

Definition read_line (line : string) : option json :=
  if String.eqb (strip line) "" then None else json_loads line.

Definition read_lines (content : string) : transcript :=
  read_line <$> Path.split_on "010" content.
End read_lines.

(** A [for] loop whose body may raise. *)
Fixpoint for_each {S A} (body : S -> A -> result S) (st : S) (l : list A)
  : result S :=
  match l with
  | [] => Ok st
  | x :: rest => st' ← body st x; for_each body st' rest
  end.

(** ** File types *)

Definition FILE_TYPE_MAPPINGS : list (string * string) :=
  [ (".py", "code"); (".js", "code"); (".ts", "code"); (".tsx", "code");
    (".jsx", "code"); (".sh", "code"); (".bash", "code"); (".r", "code");
    (".R", "code"); (".sql", "code"); (".go", "code"); (".rs", "code");
    (".java", "code"); (".c", "code"); (".cpp", "code"); (".h", "code");
    (".hpp", "code"); (".md", "document"); (".txt", "document");
    (".rst", "document"); (".tex", "document"); (".json", "data");
    (".csv", "data"); (".jsonl", "data"); (".geojson", "data");
    (".xml", "data"); (".yaml", "config"); (".yml", "config");
    (".toml", "config"); (".ini", "config"); (".env", "config");
    (".png", "image"); (".jpg", "image"); (".jpeg", "image");
    (".gif", "image"); (".svg", "image"); (".pdf", "document");
    (".html", "document") ].

Fixpoint lookup_str {A} (key : string) (l : list (string * A)) : option A :=
  match l with
  | [] => None
  | (k, v) :: rest => if String.eqb k key then Some v else lookup_str key rest
  end.

Definition get_file_type (file_path : string) : string :=
  let ext := lower (Path.suffix (Path.of_str file_path)) in
  default "other" (lookup_str ext FILE_TYPE_MAPPINGS).

(** ** Artifacts *)

Record artifact := { art_path : string; art_type : string }.

Record artifacts := {
  created : list artifact;
  modified : list artifact;
  referenced : list artifact }.

(** The three sets of the scan.  Their members that are [str] are in the
    [gset]s.  A member that is not (a number or [True]: any other value is
    falsy or cannot be hashed) is recorded by [other_member]: it ends up in
    one of the three final sets, where [sorted] or [Path(path)] raises
    [TypeError]. *)
Record scan := {
  written_files : gset string;
  edited_files : gset string;
  read_files : gset string;
  other_member : bool }.

Definition scan_empty : scan :=
  {| written_files := ∅; edited_files := ∅; read_files := ∅;
     other_member := false |}.

Inductive tool := Write | Edit | Read.

(** [written_files.add(file_path)] and its two siblings, for a truthy
    [file_path]. *)
Definition add (t : tool) (file_path : json) (st : scan) : result scan :=
  match file_path with
  | JStr p =>
      Ok match t with
         | Write => {| written_files := {[p]} ∪ written_files st;
                       edited_files := edited_files st;
                       read_files := read_files st;
                       other_member := other_member st |}
         | Edit => {| written_files := written_files st;
                      edited_files := {[p]} ∪ edited_files st;
                      read_files := read_files st;
                      other_member := other_member st |}
         | Read => {| written_files := written_files st;
                      edited_files := edited_files st;
                      read_files := {[p]} ∪ read_files st;
                      other_member := other_member st |}
         end
  | JArr _ | JObj _ => Raise TypeError
  | _ => Ok {| written_files := written_files st;
               edited_files := edited_files st;
               read_files := read_files st;
               other_member := true |}
  end.

Definition tool_of (tool_name : json) : option tool :=
  if eq_str tool_name "Write" then Some Write
  else if eq_str tool_name "Edit" then Some Edit
  else if eq_str tool_name "Read" then Some Read
  else None.

(** The body of the loop over the blocks of one message. *)
Definition scan_block (st : scan) (block : json) : result scan :=
  match block with
  | JObj _ =>
      ty ← get block "type" JNull;
      if negb (eq_str ty "tool_use") then Ok st else
      tool_name ← get block "name" (JStr "");
      tool_input ← get block "input" (JObj []);
      file_path ← get tool_input "file_path" JNull;
      if negb (truthy file_path) then Ok st else
      match tool_of tool_name with
      | Some t => add t file_path st
      | None => Ok st
      end
  | _ => Ok st
  end.

Definition scan_entry (st : scan) (entry : json) : result scan :=
  message ← get entry "message" (JObj []);
  msg_content ← get message "content" (JArr []);
  match msg_content with
  | JArr blocks => for_each scan_block st blocks
  | _ => Ok st
  end.

Definition scan_line (st : scan) (line : option json) : result scan :=
  match line with
  | None => Ok st
  | Some entry => scan_entry st entry
  end.

(** [sorted(s)] for a set of [str]. *)
Definition sorted (s : gset string) : list string :=
  merge_sort str_le (elements s).

Section extract_artifacts.
(** [Path.resolve]: what the file system makes of a path. *)
Variable resolve : Path.t -> Path.t.

Definition make_relative (project_dir : option Path.t) (path : string)
  : string :=
  match project_dir with
  | Some dir =>
      match Path.relative_to (resolve (Path.of_str path)) (resolve dir) with
      | Ok rel => Path.to_str rel
      | Raise _ => path
      end
  | None => path
  end.

Definition entry_of (project_dir : option Path.t) (path : string)
  : artifact :=
  {| art_path := make_relative project_dir path;
     art_type := get_file_type path |}.

Definition extract_artifacts (content : transcript)
    (project_dir : option Path.t) : result artifacts :=
  st ← for_each scan_line scan_empty content;
  if other_member st then Raise TypeError else
  let created := written_files st in
  let modified := edited_files st ∖ written_files st in
  let referenced := read_files st ∖ edited_files st ∖ written_files st in
  Ok {| created := entry_of project_dir <$> sorted created;
        modified := entry_of project_dir <$> sorted modified;
        referenced := entry_of project_dir <$> sorted referenced |}.
End extract_artifacts.

(** ** What a transcript shows

    [tool_call t p block]: [block] is a [tool_use] block of the tool [t] whose
    input names the file [p] (an empty [file_path] names no file). *)

Definition tool_name (t : tool) : string :=
  match t with Write => "Write" | Edit => "Edit" | Read => "Read" end.

Definition tool_call (t : tool) (p : string) (block : json) : Prop :=
  exists fields input,
    block = JObj fields /\
    dict_get "type" fields = Some (JStr "tool_use") /\
    dict_get "name" fields = Some (JStr (tool_name t)) /\
    dict_get "input" fields = Some (JObj input) /\
    dict_get "file_path" input = Some (JStr p) /\
    p <> "".

(** The blocks of a record: the items of [message.content] when it is a
    list. *)
Definition blocks_of (entry : json) : list json :=
  match entry with
  | JObj fields =>
      match dict_get "message" fields with
      | Some (JObj message) =>
          match dict_get "content" message with
          | Some (JArr blocks) => blocks
          | _ => []
          end
      | _ => []
      end
  | _ => []
  end.

(** [seen content t p]: some record of the transcript carries a call of [t]
    on [p]. *)
Definition seen (content : transcript) (t : tool) (p : string) : Prop :=
  exists entry block,
    Some entry ∈ content /\ block ∈ blocks_of entry /\ tool_call t p block.

(** The set a scan keeps for a tool. *)
Definition files_of (t : tool) (st : scan) : gset string :=
  match t with
  | Write => written_files st
  | Edit => edited_files st
  | Read => read_files st
  end.

Definition paths (l : list artifact) : list string := art_path <$> l.

(** ** Session statistics *)

Record tool_call_counts := {
  total : Z;
  by_type : list (hkey * Z) }.

Record token_totals := { input : Z; output : Z; cache_read : Z }.

(** The [stats] dict while the transcript is scanned. *)
Record stats_acc := {
  turns : Z;
  human_messages : Z;
  assistant_messages : Z;
  thinking_blocks : Z;
  tool_calls : tool_call_counts;
  tokens : token_totals;
  model : json;
  claude_code_version : json;
  timestamps : list json }.

Definition stats_init : stats_acc :=
  {| turns := 0; human_messages := 0; assistant_messages := 0;
     thinking_blocks := 0; tool_calls := {| total := 0; by_type := [] |};
     tokens := {| input := 0; output := 0; cache_read := 0 |};
     model := JNull; claude_code_version := JNull; timestamps := [] |}.

(** [d[k] = d.get(k, 0) + 1] *)
Fixpoint bump (k : hkey) (d : list (hkey * Z)) : list (hkey * Z) :=
  match d with
  | [] => [(k, 1)]
  | (k', n) :: rest =>
      if decide (k' = k) then (k', n + 1) :: rest else (k', n) :: bump k rest
  end.

Definition count_block (c : Z * tool_call_counts) (block : json)
  : result (Z * tool_call_counts) :=
  match block with
  | JObj _ =>
      block_type ← get block "type" JNull;
      if eq_str block_type "thinking" then Ok (c.1 + 1, c.2)
      else if eq_str block_type "tool_use" then
        tool_name ← get block "name" (JStr "unknown");
        k ← hash_key tool_name;
        Ok (c.1, {| total := total c.2 + 1; by_type := bump k (by_type c.2) |})
      else Ok c
  | _ => Ok c
  end.

Definition snapshot_marker : string := "file-history-snapshot".

Definition stats_entry (st : stats_acc) (entry : json) : result stats_acc :=
  ts ← get entry "timestamp" JNull;
  let stamps := if truthy ts then (timestamps st ++ [ts])%list else timestamps st in
  entry_type ← get entry "type" JNull;
  if eq_str entry_type snapshot_marker then
    Ok {| turns := turns st; human_messages := human_messages st;
          assistant_messages := assistant_messages st;
          thinking_blocks := thinking_blocks st; tool_calls := tool_calls st;
          tokens := tokens st; model := model st;
          claude_code_version := claude_code_version st;
          timestamps := stamps |}
  else
  message ← get entry "message" (JObj []);
  role ← get message "role" (or_else entry_type (JStr ""));
  let is_user := eq_str role "user" || eq_str entry_type "user" in
  let is_assistant := eq_str role "assistant" || eq_str entry_type "assistant" in
  '(thinking, counted, model') ←
    (if is_user then Ok (thinking_blocks st, tool_calls st, model st)
     else if is_assistant then
       msg_content ← get message "content" (JArr []);
       c ← match msg_content with
           | JArr blocks =>
               for_each count_block (thinking_blocks st, tool_calls st) blocks
           | _ => Ok (thinking_blocks st, tool_calls st)
           end;
       m ← (if truthy (model st) then Ok (model st)
            else m ← get message "model" JNull;
                 Ok (if truthy m then m else model st));
       Ok (c.1, c.2, m)
     else Ok (thinking_blocks st, tool_calls st, model st));
  version' ←
    (if truthy (claude_code_version st) then Ok (claude_code_version st)
     else version ← get entry "version" JNull;
          Ok (if truthy version then version else claude_code_version st));
  usage ← get entry "usage" (JObj []);
  tokens' ←
    (if truthy usage then
       i ← get usage "input_tokens" (JNum 0) ≫= as_int;
       o ← get usage "output_tokens" (JNum 0) ≫= as_int;
       c ← get usage "cache_read_input_tokens" (JNum 0) ≫= as_int;
       Ok {| input := input (tokens st) + i; output := output (tokens st) + o;
             cache_read := cache_read (tokens st) + c |}
     else Ok (tokens st));
  Ok {| turns := if is_user then turns st + 1 else turns st;
        human_messages :=
          if is_user then human_messages st + 1 else human_messages st;
        assistant_messages :=
          if negb is_user && is_assistant then assistant_messages st + 1
          else assistant_messages st;
        thinking_blocks := thinking; tool_calls := counted;
        tokens := tokens'; model := model';
        claude_code_version := version'; timestamps := stamps |}.

Definition stats_line (st : stats_acc) (line : option json) : result stats_acc :=
  match line with
  | None => Ok st
  | Some entry => stats_entry st entry
  end.

(** [min(l)] and [max(l)] for a list that is not empty: the first of the
    least (greatest) items. *)
Definition py_min (x : json) (l : list json) : result json :=
  for_each (fun m y : json => b ← py_lt y m; Ok (if b : bool then y else m)) x l.
Definition py_max (x : json) (l : list json) : result json :=
  for_each (fun m y : json => b ← py_lt m y; Ok (if b : bool then y else m)) x l.

(** [s.replace("Z", "+00:00")] *)
Fixpoint replace_Z (s : string) : string :=
  match s with
  | EmptyString => EmptyString
  | String c s' =>
      if Ascii.eqb c "Z" then "+00:00" ++ replace_Z s'
      else String c (replace_Z s')
  end.

(** [del stats["timestamps"]] *)
Definition untimed (st : stats_acc) : stats_acc :=
  {| turns := turns st; human_messages := human_messages st;
     assistant_messages := assistant_messages st;
     thinking_blocks := thinking_blocks st; tool_calls := tool_calls st;
     tokens := tokens st; model := model st;
     claude_code_version := claude_code_version st;
     timestamps := [] |}.

(** Two runs of the scanning loop that end alike, the collected time stamps
    apart. *)
Definition same_tally (a b : result stats_acc) : Prop :=
  match a, b with
  | Ok x, Ok y => untimed x = untimed y
  | Raise e1, Raise e2 => e1 = e2
  | _, _ => False
  end.

(** The [stats] dict as returned. *)
Record stats := {
  counts : stats_acc;
  started_at : json;
  ended_at : json;
  duration_minutes : Z }.

Section extract_session_stats.
(** Lines 435-440 on two texts: [int((end - start).total_seconds() / 60)]
    for the two stamps read by [datetime.fromisoformat], and 0 when that
    raises [ValueError] or [TypeError]. *)
Variable minutes_between : string -> string -> Z.

Definition finish_stats (st : stats_acc) : result stats :=
  let counted := untimed st in
  match timestamps st with
  | t :: rest =>
      lo ← py_min t rest;
      hi ← py_max t rest;
      match lo, hi with
      | JStr a, JStr b =>
          Ok {| counts := counted; started_at := lo; ended_at := hi;
                duration_minutes :=
                  minutes_between (replace_Z a) (replace_Z b) |}
      | _, _ => Raise AttributeError
      end
  | [] =>
      Ok {| counts := counted; started_at := JNull; ended_at := JNull;
            duration_minutes := 0 |}
  end.

Definition extract_session_stats (content : transcript) : result stats :=
  st ← for_each stats_line stats_init content;
  finish_stats st.
End extract_session_stats.

(** ** Relationship hints *)

Record hints := {
  continues_hint : json;
  references_hints : list string;
  detection_notes : list string }.

Definition hints_init : hints :=
  {| continues_hint := JNull; references_hints := []; detection_notes := [] |}.

(** The items of the generator joined for a list content: the [text] of
    every [dict] block whose type is ["text"]; [str.join] refuses an item that
    is not [str]. *)
Fixpoint text_parts (blocks : list json) : result (list string) :=
  match blocks with
  | [] => Ok []
  | block :: rest =>
      match block with
      | JObj fields =>
          if eq_str (default JNull (dict_get "type" fields)) "text" then
            match default (JStr "") (dict_get "text" fields) with
            | JStr s => parts ← text_parts rest; Ok (s :: parts)
            | _ => Raise TypeError
            end
          else text_parts rest
      | _ => text_parts rest
      end
  end.

Definition note_uuid (h : hints) (uuid_str : string) : hints :=
  if bool_decide (uuid_str ∈ references_hints h) then h
  else {| continues_hint := continues_hint h;
          references_hints := references_hints h ++ [uuid_str];
          detection_notes :=
            detection_notes h ++ ["Found session ID reference: " ++ uuid_str] |}.

Definition note_pattern (h : hints) (pattern : string) : hints :=
  {| continues_hint := continues_hint h;
     references_hints := references_hints h;
     detection_notes :=
       detection_notes h
       ++ ["Found continuation language matching: '" ++ pattern ++ "'"] |}.

Section detect_relationship_hints.
(** [uuid_pattern.finditer(text)]: group 1 of every match, in order. *)
Variable uuid_matches : string -> list string.
(** The continuation patterns, in the order of the list, that [re.search]
    finds in the text. *)
Variable continuation_hits : string -> list string.

Definition hints_entry (h : hints) (entry : json) : result hints :=
  entry_type ← get entry "type" JNull;
  message ← get entry "message" (JObj []);
  role ← get message "role" (JStr "");
  if negb (eq_str role "user") && negb (eq_str entry_type "user") then Ok h
  else
  msg_content ← get message "content" (JStr "");
  text ← match msg_content with
         | JArr blocks => parts ← text_parts blocks; Ok (Some (Path.join " " parts))
         | JStr s => Ok (Some s)
         | _ => Ok None
         end;
  match text with
  | None => Ok h
  | Some s =>
      Ok (foldl note_pattern (foldl note_uuid h (uuid_matches s))
            (continuation_hits s))
  end.

Definition hints_line (h : hints) (line : option json) : result hints :=
  match line with
  | None => Ok h
  | Some entry => hints_entry h entry
  end.

Definition detect_relationship_hints (content : transcript) : result hints :=
  for_each hints_line hints_init content.
End detect_relationship_hints.

(** ** Titles *)

Definition ide_patterns : list string :=
  [ "<ide_opened_file>"; "<ide_selection>"; "<ide_visible_files>";
    "<system-reminder>"; "<command-name>" ].

Definition _is_ide_context_message (text : string) : bool :=
  if String.eqb text "" then true
  else
    let text := strip text in
    if existsb (fun pattern => bool_decide (is_Some (match_literal_ci pattern text)))
         ide_patterns
    then true
    else (len text <? 10)%Z.

Definition greetings : list string :=
  [ "hi"; "hello"; "hey"; "please"; "can you"; "could you" ].

(** [re.sub(r"^(hi|...|could you)\s+", "", title, flags=re.IGNORECASE)]: the
    first of the phrases, in the order of the pattern, that opens the title
    and is followed by white space goes with all of that white space.  The
    pattern is tied to the start of the text, so nothing else is removed. *)
Fixpoint remove_greeting (phrases : list string) (title : string) : string :=
  match phrases with
  | [] => title
  | phrase :: rest =>
      match match_literal_ci phrase title with
      | Some (String c after) =>
          if isspace c then lstrip after else remove_greeting rest title
      | _ => remove_greeting rest title
      end
  end.

Definition is_terminator (c : ascii) : bool :=
  Ascii.eqb c "." || Ascii.eqb c "!" || Ascii.eqb c "?" || Ascii.eqb c "010".

(** [re.split(r"[.!?\n]", title)[0]] *)
Fixpoint first_sentence (title : string) : string :=
  match title with
  | EmptyString => EmptyString
  | String c rest =>
      if is_terminator c then EmptyString else String c (first_sentence rest)
  end.

Definition fallback_title : string := "Untitled Session".

(** Lines 680-686, for an accepted message text. *)
Definition clean_title (msg_content : string) : string :=
  let title := strip msg_content in
  let title := remove_greeting greetings title in
  let title := first_sentence title in
  let title := strip (take_str 60 title) in
  if String.eqb title "" then fallback_title else title.

(** The inner loop of lines 667-672: the [text] of the first [dict] block
    that has a truthy one; [None] when the loop runs to its [else]. *)
Fixpoint first_text (blocks : list json) : option json :=
  match blocks with
  | [] => None
  | block :: rest =>
      match block with
      | JObj fields =>
          match dict_get "text" fields with
          | Some v => if truthy v then Some v else first_text rest
          | None => first_text rest
          end
      | _ => first_text rest
      end
  end.

(** One turn of the loop: [Some title] when it returns, [None] when it goes
    on to the next line. *)
Definition title_entry (entry : json) : result (option string) :=
  entry_type ← get entry "type" JNull;
  message ← get entry "message" (JObj []);
  role ← get message "role" (JStr "");
  if eq_str role "user" || eq_str entry_type "user" then
    msg_content ← get message "content" (JStr "");
    let candidate :=
      match msg_content with
      | JArr blocks => first_text blocks
      | other => Some other
      end in
    match candidate with
    | Some (JStr text) =>
        if String.eqb (strip text) "" then Ok None
        else if _is_ide_context_message text then Ok None
        else Ok (Some (clean_title text))
    | _ => Ok None
    end
  else Ok None.

Fixpoint generate_title_from_content (content : transcript) : result string :=
  match content with
  | [] => Ok fallback_title
  | None :: rest => generate_title_from_content rest
  | Some entry :: rest =>
      r ← title_entry entry;
      match r with
      | Some title => Ok title
      | None => generate_title_from_content rest
      end
  end.

(** ** The file system

    A tree without symbolic links, keyed by the components of the resolved
    path.  A file holds text that decodes ([read_text] never raises
    [UnicodeDecodeError] here); [Doc v] is the text that [json.dumps(v,
    indent=2)] wrote, which [json.loads] reads back as [v].  A path is
    looked up after its [..] are resolved in the text of the path. *)

Inductive file_data :=
| Text (s : string)
| Doc (v : json).

Inductive node :=
| Dir
| File (data : file_data).

Record world := {
  files : gmap (list string) node;
  cwd : list string;
  stdout : list string;
  stderr : list string }.

(** Code that reads or writes the world, and may raise. *)
Definition io (A : Type) : Type := world -> result A * world.

#[global] Instance io_ret : MRet io := fun A a w => (Ok a, w).
#[global] Instance io_bind : MBind io := fun A B f m w =>
  match m w with
  | (Ok a, w') => f a w'
  | (Raise e, w') => (Raise e, w')
  end.

Definition lift {A} (r : result A) : io A := fun w => (r, w).

Definition locate (w : world) (p : Path.t) : list string :=
  Path.tail (Path.resolve_nolinks (cwd w) p).

Definition node_at (fs : gmap (list string) node) (key : list string)
  : option node :=
  match key with
  | [] => Some Dir
  | _ => fs !! key
  end.

(** The directories above [key], from the root down. *)
Definition parents_of (key : list string) : list (list string) :=
  (fun n => take n key) <$> seq 1 (length key - 1).

(** What stops a write on the way down to an entry: a missing directory or
    a file in its place. *)
Fixpoint walk (fs : gmap (list string) node) (dirs : list (list string))
  : result unit :=
  match dirs with
  | [] => Ok ()
  | d :: rest =>
      match node_at fs d with
      | Some Dir => walk fs rest
      | Some (File _) => Raise NotADirectoryError
      | None => Raise FileNotFoundError
      end
  end.

(** [p.exists()]; in a tree, what is there has its directories above it. *)
Definition path_exists (p : Path.t) : io bool := fun w =>
  (Ok (bool_decide (is_Some (node_at (files w) (locate w p)))), w).

(** The open of [p.read_text()]. *)
Definition read_data (p : Path.t) : io file_data := fun w =>
  match node_at (files w) (locate w p) with
  | Some (File d) => (Ok d, w)
  | Some Dir => (Raise IsADirectoryError, w)
  | None => (Raise FileNotFoundError, w)
  end.

Definition set_files (w : world) (fs : gmap (list string) node) : world :=
  {| files := fs; cwd := cwd w; stdout := stdout w; stderr := stderr w |}.

(** [p.write_text(...)] *)
Definition write_data (p : Path.t) (d : file_data) : io unit := fun w =>
  let key := locate w p in
  match walk (files w) (parents_of key) with
  | Raise e => (Raise e, w)
  | Ok _ =>
      match node_at (files w) key with
      | Some Dir => (Raise IsADirectoryError, w)
      | _ => (Ok (), set_files w (<[key := File d]> (files w)))
      end
  end.

(** [os.mkdir] down the path: the directories that are missing are made. *)
Fixpoint make_dirs (fs : gmap (list string) node) (dirs : list (list string))
  : result (gmap (list string) node) :=
  match dirs with
  | [] => Ok fs
  | d :: rest =>
      match node_at fs d with
      | Some Dir => make_dirs fs rest
      | Some (File _) =>
          match rest with
          | [] => Raise FileExistsError
          | _ => Raise NotADirectoryError
          end
      | None => make_dirs (<[d := Dir]> fs) rest
      end
  end.

(** [p.mkdir(parents=True, exist_ok=True)]: nothing is made when a file is in
    the way. *)
Definition mkdir (p : Path.t) : io unit := fun w =>
  let key := locate w p in
  match make_dirs (files w) (parents_of key ++ [key]) with
  | Ok fs => (Ok (), set_files w fs)
  | Raise e => (Raise e, w)
  end.

Definition print_err (line : string) : io unit := fun w =>
  (Ok (), {| files := files w; cwd := cwd w; stdout := stdout w;
             stderr := stderr w ++ [line] |}).

Definition log_error (message : string) (quiet : bool) : io unit :=
  if negb quiet then print_err ("Error: " ++ message) else mret ().

(** [len(v)] *)
Definition py_len (v : json) : result Z :=
  match v with
  | JStr s => Ok (len s)
  | JArr l => Ok (Z.of_nat (length l))
  | JObj l => Ok (Z.of_nat (length l))
  | _ => Raise TypeError
  end.

Fixpoint chars (s : string) : list json :=
  match s with
  | EmptyString => []
  | String c s' => JStr (String c EmptyString) :: chars s'
  end.

(** The items a [for] loop over [v] sees. *)
Definition py_iter (v : json) : result (list json) :=
  match v with
  | JArr l => Ok l
  | JStr s => Ok (chars s)
  | JObj l => Ok ((fun kv => JStr kv.1) <$> l)
  | _ => Raise TypeError
  end.

(** [d[key] = v] on a value: only a [dict] takes a text key. *)
Definition setitem (d : json) (key : string) (v : json) : result json :=
  match d with
  | JObj fields => Ok (JObj (dict_set key v fields))
  | _ => Raise TypeError
  end.

(** A comprehension whose item expression may raise. *)
Fixpoint map_each {A B} (f : A -> result B) (l : list A) : result (list B) :=
  match l with
  | [] => Ok []
  | x :: rest => y ← f x; ys ← map_each f rest; Ok (y :: ys)
  end.

Definition SCHEMA_VERSION : string := "1.0".

(** [s.get("needs_review", True)] as the filter of the count. *)
Definition needs_review (s : json) : result bool :=
  v ← get s "needs_review" (JBool true); Ok (truthy v).

Definition count_true (l : list bool) : Z :=
  Z.of_nat (length (List.filter (fun b => b) l)).

(** The key of the sort: [s.get("started_at") or ""]. *)
Definition sort_key (s : json) : result json :=
  v ← get s "started_at" JNull; Ok (or_else v (JStr "")).

(** [list.sort(key=..., reverse=True)] on items paired with their keys: a
    stable sort, greatest key first.  An item goes behind the items of
    greater key and ahead of the others. *)
Fixpoint insert_desc (x : json * json) (l : list (json * json))
  : result (list (json * json)) :=
  match l with
  | [] => Ok [x]
  | y :: rest =>
      b ← py_lt x.1 y.1;
      if b : bool then r ← insert_desc x rest; Ok (y :: r) else Ok (x :: l)
  end.

Fixpoint sort_desc (l : list (json * json)) : result (list (json * json)) :=
  match l with
  | [] => Ok []
  | x :: rest => r ← sort_desc rest; insert_desc x r
  end.

(** The index kept for a key by [{s["id"]: i for i, s in enumerate(...)}]:
    the last one. *)
Fixpoint last_index (k : hkey) (ids : list hkey) (i : nat) : option nat :=
  match ids with
  | [] => None
  | k' :: rest =>
      match last_index k rest (S i) with
      | Some j => Some j
      | None => if decide (k' = k) then Some i else None
      end
  end.

Definition entry_id (s : json) : result hkey := getitem s "id" ≫= hash_key.

(** A catalog whose summary agrees with its entries: [total_sessions] is
    the number of entries, [needs_review_count] the number of entries whose
    [needs_review] is true, every entry has an id, and no two entries have
    the same id. *)
Definition catalog_sound (c : json) : Prop :=
  exists fields entries,
    c = JObj fields /\
    dict_get "sessions" fields = Some (JArr entries) /\
    dict_get "total_sessions" fields = Some (JNum (Z.of_nat (length entries))) /\
    dict_get "needs_review_count" fields
      = Some (JNum (Z.of_nat
                      (length (filter (fun s => needs_review s = Ok true) entries)))) /\
    Forall (fun s => is_Ok (entry_id s)) entries /\
    NoDup (entry_id <$> entries).

Section store.
(** [json.loads] on text; [None] stands for [JSONDecodeError]. *)
Variable json_loads : string -> option json.

Definition loads (d : file_data) : result json :=
  match d with
  | Text s =>
      match json_loads s with
      | Some v => Ok v
      | None => Raise JSONDecodeError
      end
  | Doc v => Ok v
  end.

Definition get_manifest_path (archive_dir : Path.t) : Path.t :=
  Path.child archive_dir ".session_manifest.json".

Definition load_manifest (archive_dir : Path.t) : io json :=
  let manifest_path := get_manifest_path archive_dir in
  found ← path_exists manifest_path;
  if found : bool then
    d ← read_data manifest_path;
    lift (loads d)
  else mret (JObj []).

Definition save_manifest (archive_dir : Path.t) (manifest : json) : io unit :=
  mkdir archive_dir;;
  write_data (get_manifest_path archive_dir) (Doc manifest).

Definition get_catalog_path (archive_dir : Path.t) : Path.t :=
  Path.child archive_dir "CATALOG.json".

Definition empty_catalog (archive_dir : Path.t) : json :=
  JObj [ ("schema_version", JStr SCHEMA_VERSION);
         ("generated_at", JNull);
         ("archive_location", JStr (Path.to_str archive_dir));
         ("total_sessions", JNum 0);
         ("needs_review_count", JNum 0);
         ("sessions", JArr []) ].

Definition load_catalog (archive_dir : Path.t) : io json :=
  let catalog_path := get_catalog_path archive_dir in
  found ← path_exists catalog_path;
  if found : bool then
    d ← read_data catalog_path;
    match loads d with
    | Ok v => mret v
    | Raise JSONDecodeError => mret (empty_catalog archive_dir)
    | Raise e => lift (Raise e)
    end
  else mret (empty_catalog archive_dir).

(** [now] is what [datetime.now().isoformat()] returns during the call. *)
Definition save_catalog (archive_dir : Path.t) (catalog : json)
    (now : string) : io unit :=
  catalog ← lift (setitem catalog "generated_at" (JStr now));
  n ← lift (getitem catalog "sessions" ≫= py_len);
  catalog ← lift (setitem catalog "total_sessions" (JNum n));
  flags ← lift (sessions ← getitem catalog "sessions";
                items ← py_iter sessions;
                map_each needs_review items);
  catalog ← lift (setitem catalog "needs_review_count" (JNum (count_true flags)));
  mkdir archive_dir;;
  write_data (get_catalog_path archive_dir) (Doc catalog).

Definition new_entry (session_metadata : json) : result json :=
  session_id ← getitem session_metadata "session" ≫= fun s => getitem s "id";
  directory ← getitem session_metadata "archive" ≫= fun a => getitem a "directory_name";
  title ← getitem session_metadata "auto_generated" ≫= fun a => getitem a "title";
  purpose ← getitem session_metadata "auto_generated" ≫= fun a => getitem a "purpose";
  started ← getitem session_metadata "session" ≫= fun s => getitem s "started_at";
  duration ← getitem session_metadata "session" ≫= fun s => getitem s "duration_minutes";
  tags ← getitem session_metadata "auto_generated" ≫= fun a => get a "tags" (JArr []);
  review ← getitem session_metadata "archive" ≫= fun a => getitem a "needs_review";
  Ok (JObj [ ("id", session_id); ("directory", directory); ("title", title);
             ("purpose", purpose); ("started_at", started);
             ("duration_minutes", duration); ("tags", tags);
             ("needs_review", review) ]).

(** Lines 339-349: the entry replaces the one of its id or is appended, and
    the list is sorted again. *)
Definition put_entry (catalog entry : json) : result json :=
  session_id ← getitem entry "id";
  sessions ← getitem catalog "sessions";
  items ← py_iter sessions;
  existing_ids ← map_each entry_id items;
  k ← hash_key session_id;
  updated ←
    match last_index k existing_ids 0, sessions with
    | Some i, JArr l => Ok (<[i := entry]> l)
    | Some _, _ => Raise TypeError
    | None, JArr l => Ok (l ++ [entry])%list
    | None, _ => Raise AttributeError
    end;
  keys ← map_each sort_key updated;
  ordered ← sort_desc (zip keys updated);
  setitem catalog "sessions" (JArr (ordered.*2)).

Definition update_catalog (archive_dir : Path.t) (session_metadata : json)
    (now : string) : io unit :=
  catalog ← load_catalog archive_dir;
  entry ← lift (new_entry session_metadata);
  catalog ← lift (put_entry catalog entry);
  save_catalog archive_dir catalog now.

(** A run of calls; the caller goes on after a call that raises. *)
Fixpoint update_catalog_all (archive_dir : Path.t)
    (calls : list (json * string)) (w : world) : world :=
  match calls with
  | [] => w
  | (session_metadata, now) :: rest =>
      update_catalog_all archive_dir rest
        (update_catalog archive_dir session_metadata now w).2
  end.
End store.

(** ** One archive run, up to the test for an unchanged transcript *)

(** What the rest of [archive] (from "Generate or use title" on) is given. *)
Record archive_state := {
  session_id : string;
  transcript_path : Path.t;
  archive_dir : Path.t;
  force : bool;
  force_retitle : bool;
  provided_title : option string;
  quiet : bool;
  three_ps : option json;
  content : string;
  manifest : json;
  project_dir : option Path.t;
  existing_dir : json;
  output_dir : option Path.t }.

Section archive.
Variable json_loads : string -> option json.
(** [json.dumps(v, indent=2)] *)
Variable json_dumps : json -> string.
(** [stat().st_size] of a file that holds the text. *)
Variable st_size : file_data -> Z.
(** [int(text)]; [None] stands for [ValueError]. *)
Variable py_int : string -> option Z.
(** Reads the file system only. *)
Variable get_project_dir_from_transcript :
  Path.t -> world -> result (option Path.t).
(** Lines 1277-1400. *)
Variable archive_rest : archive_state -> io (option Path.t).

Definition read_text (p : Path.t) : io string :=
  d ← read_data p;
  mret (match d with Text s => s | Doc v => json_dumps v end).

Definition stat_size (p : Path.t) : io Z :=
  d ← read_data p; mret (st_size d).

Definition archive (session_id : string) (transcript_path archive_dir : Path.t)
    (force force_retitle : bool) (provided_title : option string)
    (quiet : bool) (three_ps : option json) : io (option Path.t) :=
  found ← path_exists transcript_path;
  if negb found then
    log_error ("Transcript not found: " ++ Path.to_str transcript_path) quiet;;
    mret None
  else
  content ← read_text transcript_path;
  if String.eqb (strip content) "" then
    log_error ("Transcript is empty: " ++ Path.to_str transcript_path) quiet;;
    mret None
  else
  manifest ← load_manifest json_loads archive_dir;
  project_dir ← (fun w => (get_project_dir_from_transcript transcript_path w, w));
  existing_dir ← lift (get manifest session_id JNull);
  let rest output_dir :=
    archive_rest
      {| session_id := session_id; transcript_path := transcript_path;
         archive_dir := archive_dir; force := force;
         force_retitle := force_retitle; provided_title := provided_title;
         quiet := quiet; three_ps := three_ps; content := content;
         manifest := manifest; project_dir := project_dir;
         existing_dir := existing_dir; output_dir := output_dir |} in
  if truthy existing_dir && negb force_retitle && negb force then
    output_dir ← lift (match existing_dir with
                       | JStr s => Ok (Path.of_str s)
                       | _ => Raise TypeError
                       end);
    let marker_file := Path.child output_dir ".last_size" in
    current_size ← stat_size transcript_path;
    marked ← path_exists marker_file;
    if marked : bool then
      text ← read_text marker_file;
      last_size ← lift (match py_int text with
                        | Some n => Ok n
                        | None => Raise ValueError
                        end);
      if (current_size =? last_size)%Z then mret None
      else rest (Some output_dir)
    else rest (Some output_dir)
  else rest None.
End archive.

(** [int(text)] on a plain decimal literal: digits, with a sign or without,
    white space around them. *)
Fixpoint digits_value (acc : Z) (s : string) : option Z :=
  match s with
  | EmptyString => Some acc
  | String c s' =>
      let n := code c in
      if ((48 <=? n) && (n <=? 57))%N
      then digits_value (10 * acc + Z.of_N (n - 48)) s'
      else None
  end.

Definition int_of_decimal (text : string) : option Z :=
  match strip text with
  | EmptyString => None
  | String "-" ((String _ _) as ds) => Z.opp <$> digits_value 0 ds
  | String "+" ((String _ _) as ds) => digits_value 0 ds
  | String "-" EmptyString | String "+" EmptyString => None
  | ds => digits_value 0 ds
  end.

(** ** Cost

    Python's [float] is the binary64 of [PrimFloat], and a token count is
    an [int] of any size.  [n / d] on two [int]s is the float nearest to the
    exact quotient (the even one on a tie), whatever the size of [n], and
    [OverflowError] when that is beyond the floats. *)

Definition INPUT_PRICE_PER_M : float := 3.0%float.
Definition OUTPUT_PRICE_PER_M : float := 15.0%float.
(** 0.30, as the float the literal stands for. *)
Definition CACHE_PRICE_PER_M : float := 0x1.3333333333333p-2%float.

(** The binary64 nearest to [n / d] for [d > 0]: the quotient is taken with
    enough bits and the place of the remainder, then rounded once; an
    infinity stands for a quotient beyond the floats. *)
Definition div_int (n d : Z) : spec_float :=
  if (n =? 0)%Z then S754_zero false
  else
    let '(q, e, l) := SFdiv_core_binary prec emax (Z.abs n) 0 d 0 in
    binary_round_aux prec emax (n <? 0)%Z q e l.

(** [n / 1_000_000] for an [int] [n] *)
Definition per_million (n : Z) : result float :=
  match div_int n 1000000 with
  | S754_infinity _ => Raise OverflowError
  | q => Ok (SF2Prim q)
  end.

(** The integer nearest to [m * 2^e * 10^4], the even one on a tie. *)
Definition nearest_even_e4 (m : positive) (e : Z) : Z :=
  let num := (Z.pos m * 10000)%Z in
  if (0 <=? e)%Z then (num * 2 ^ e)%Z
  else
    let den := (2 ^ (- e))%Z in
    let q := (num / den)%Z in
    let r := (num mod den)%Z in
    match (2 * r ?= den)%Z with
    | Lt => q
    | Gt => (q + 1)%Z
    | Eq => if Z.even q then q else (q + 1)%Z
    end.

(** The float nearest to [k / 10^4], with the sign [s]; [k] is not
    negative, and a zero keeps the sign. *)
Definition ten_thousandths (s : bool) (k : Z) : float :=
  if (k =? 0)%Z then SF2Prim (S754_zero s)
  else SF2Prim (div_int (if s then - k else k) 10000).

(** [round(x, 4)]: the decimal with four places nearest to the exact value
    of [x] (the even one on a tie), then the float nearest to that decimal;
    an infinity and a NaN are returned as they are. *)
Definition round4 (x : float) : float :=
  match Prim2SF x with
  | S754_finite s m e => ten_thousandths s (nearest_even_e4 m e)
  | _ => x
  end.

Definition estimate_cost (t : token_totals) : result float :=
  a ← per_million (input t);
  b ← per_million (output t);
  c ← per_million (cache_read t);
  let cost :=
    (a * INPUT_PRICE_PER_M + b * OUTPUT_PRICE_PER_M + c * CACHE_PRICE_PER_M)%float in
  Ok (round4 cost).

(** ** Records and worlds used in the examples *)

Definition tool_use (name path : string) : json :=
  JObj [ ("type", JStr "tool_use"); ("name", JStr name);
         ("input", JObj [("file_path", JStr path)]) ].

Definition text_block (text : string) : json :=
  JObj [("type", JStr "text"); ("text", JStr text)].

(** A record of the given role whose message content is a list of blocks. *)
Definition message_record (role : string) (blocks : list json) : json :=
  JObj [ ("type", JStr role);
         ("message", JObj [("role", JStr role); ("content", JArr blocks)]) ].

(** A user record that says [text]. *)
Definition user_says (text : string) : json :=
  message_record "user" [text_block text].

(** A snapshot record, as Claude Code writes them: no message. *)
Definition snapshot_record (stamp : string) : json :=
  JObj [ ("type", JStr snapshot_marker); ("timestamp", JStr stamp);
         ("files", JObj []) ].

(** A file system without symbolic links, seen from the root. *)
Definition resolve_plain : Path.t -> Path.t := Path.resolve_nolinks [].

(** [json.loads] on the texts of a table; it rejects every other text. *)
Definition json_loads_only (table : list (string * json)) (text : string)
  : option json :=
  lookup_str text table.

(** Lines 435-440 when both stamps are the same text: no minute apart. *)
Definition minutes_same : string -> string -> Z := fun _ _ => 0.

(** The role and type of a record set to [role]; nothing else changes. *)
Definition with_role (role : json) (entry : json) : json :=
  match entry with
  | JObj fields =>
      let fields :=
        match dict_get "message" fields with
        | Some (JObj message) =>
            dict_set "message" (JObj (dict_set "role" role message)) fields
        | _ => fields
        end in
      JObj (dict_set "type" role fields)
  | _ => entry
  end.

(** The same transcript with every record given the role [role]. *)
Definition set_roles (role : json) (content : transcript) : transcript :=
  List.map (option_map (with_role role)) content.

(** A line the title generator passes over. *)
Definition passed_over (line : option json) : Prop :=
  match line with
  | None => True
  | Some entry => title_entry entry = Ok None
  end.

(** A read, then an edit of the same file and a new file. *)
Definition sample_scan : transcript :=
  [ Some (message_record "assistant"
            [tool_use "Read" "/home/user/project/main.py"]);
    None;
    Some (message_record "assistant"
            [ tool_use "Edit" "/home/user/project/main.py";
              tool_use "Write" "/home/user/project/new_file.py" ]) ].

Definition sample_artifacts : artifacts :=
  {| created :=
       [{| art_path := "/home/user/project/new_file.py"; art_type := "code" |}];
     modified :=
       [{| art_path := "/home/user/project/main.py"; art_type := "code" |}];
     referenced := [] |}.


(** A user record that carries a Write block. *)
Definition user_tool_scan : transcript :=
  [ Some (message_record "user" [tool_use "Write" "/x.py"]) ].

(** The two pattern searches on a text that holds neither a session id nor
    a continuation phrase. *)
Definition finds_nothing : string -> list string := fun _ => [].

Definition snapshot_fields : list (string * json) :=
  [ ("type", JStr snapshot_marker);
    ("timestamp", JStr "2026-01-14T10:00:00.000Z");
    ("files", JObj []) ].

Definition archive_root : Path.t := Path.of_str "/archive".

(** An archive directory whose manifest and catalog files both hold text
    that is not JSON. *)
Definition corrupt_world : world :=
  {| files :=
       <[ ["archive"] := Dir ]>
       (<[ ["archive"; ".session_manifest.json"] := File (Text "{not json") ]>
       (<[ ["archive"; "CATALOG.json"] := File (Text "{not json") ]> ∅));
     cwd := []; stdout := []; stderr := [] |}.

(** What the world shows at a path. *)
Definition is_there (w : world) (p : Path.t) : Prop :=
  (path_exists p w).1 = Ok true.
Definition holds (w : world) (p : Path.t) (d : file_data) : Prop :=
  (read_data p w).1 = Ok d.

Definition text_of (json_dumps : json -> string) (d : file_data) : string :=
  match d with Text s => s | Doc v => json_dumps v end.

(** A session archived before: its transcript, the manifest that names its
    directory, and the size marker in that directory. *)
Definition archived_world : world :=
  {| files :=
       <[ ["t"] := Dir ]>
       (<[ ["t"; "s.jsonl"] := File (Text "{}") ]>
       (<[ ["archive"] := Dir ]>
       (<[ ["archive"; ".session_manifest.json"] :=
             File (Doc (JObj [("sid", JStr "/archive/2026-01-14-demo")])) ]>
       (<[ ["archive"; "2026-01-14-demo"] := Dir ]>
       (<[ ["archive"; "2026-01-14-demo"; ".last_size"] := File (Text "2") ]>
        ∅)))));
     cwd := []; stdout := []; stderr := [] |}.

(** One byte for every character: the size of a file of ASCII text. *)
Definition size_ascii (d : file_data) : Z :=
  match d with Text s => len s | Doc _ => 0 end.

(** A stand-in for lines 1277-1400 that leaves a mark in the archive
    directory: a run that reaches it changes the world. *)
Definition rest_marks (st : archive_state) : io (option Path.t) :=
  write_data (Path.child (archive_dir st) "reached") (Text "");;
  mret (Some (archive_dir st)).

(** [json.dumps] where no document is read back as text. *)
Definition dumps_unread : json -> string := fun _ => "".

(** [get_project_dir_from_transcript] for a transcript outside
    [~/.claude/projects]: [None]. *)
Definition no_project : Path.t -> world -> result (option Path.t) :=
  fun _ _ => Ok None.

(** The fields [save_catalog] stores. *)
Definition stamped (now : string) (entries : list json) (flags : list bool)
    (fields : list (string * json)) : list (string * json) :=
  dict_set "needs_review_count" (JNum (count_true flags))
    (dict_set "total_sessions" (JNum (Z.of_nat (length entries)))
       (dict_set "generated_at" (JStr now) fields)).

(** The catalog that [load_catalog] finds is sound. *)
Definition stored_sound (json_loads : string -> option json) (dir : Path.t)
    (w : world) : Prop :=
  exists c, (load_catalog json_loads dir w).1 = Ok c /\ catalog_sound c.

(** The part of a session's metadata that the catalog reads. *)
Definition metadata (id started title : string) (review : bool) : json :=
  JObj [ ("session",
          JObj [ ("id", JStr id); ("started_at", JStr started);
                 ("duration_minutes", JNum 30) ]);
         ("auto_generated",
          JObj [ ("title", JStr title); ("purpose", JStr "");
                 ("tags", JArr []) ]);
         ("archive",
          JObj [ ("directory_name", JStr "dir1");
                 ("needs_review", JBool review) ]) ].

(** Two sessions archived, then the first one archived again. *)
Definition three_calls : list (json * string) :=
  [ (metadata "session-1" "2026-01-14T10:00:00Z" "First" true,
     "2026-01-14T11:00:00");
    (metadata "session-2" "2026-01-15T09:00:00Z" "Second" true,
     "2026-01-15T10:00:00");
    (metadata "session-1" "2026-01-14T10:00:00Z" "Updated" false,
     "2026-01-16T08:00:00") ].

(** What a catalog shows: its two counts, and the id and title of every
    entry in order. *)
Definition catalog_summary (c : json) : result (json * json * list (json * json)) :=
  n ← getitem c "total_sessions";
  r ← getitem c "needs_review_count";
  sessions ← getitem c "sessions";
  items ← py_iter sessions;
  rows ← map_each (fun s => i ← getitem s "id"; t ← getitem s "title"; Ok (i, t))
           items;
  Ok (n, r, rows).

(** Records as Claude Code writes them, as far as the artifact scan looks: a
    record is a dict, its message (when it has one) is a dict, the input of a
    [tool_use] block (when it has one) is a dict, and a [file_path] in it is
    text. *)
Definition plain_block (block : json) : bool :=
  match block with
  | JObj fields =>
      if eq_str (default JNull (dict_get "type" fields)) "tool_use" then
        match default (JObj []) (dict_get "input" fields) with
        | JObj input =>
            match default JNull (dict_get "file_path" input) with
            | JStr _ | JNull => true
            | _ => false
            end
        | _ => false
        end
      else true
  | _ => true
  end.

Definition plain_entry (entry : json) : bool :=
  match entry with
  | JObj fields =>
      match default (JObj []) (dict_get "message" fields) with
      | JObj message =>
          match default (JArr []) (dict_get "content" message) with
          | JArr blocks => forallb plain_block blocks
          | _ => true
          end
      | _ => false
      end
  | _ => false
  end.

Definition plain_line (line : option json) : bool :=
  match line with
  | None => true
  | Some entry => plain_entry entry
  end.

(** One file under the project root [/p], written under one spelling of its
    path and edited under another. *)
Definition two_spellings_scan : transcript :=
  [ Some (message_record "assistant"
            [tool_use "Write" "/p/a"; tool_use "Edit" "/p/./a"]) ].

(** * More of [cli.py] *)

(** ** Text, continued *)

(** Every character of the text passes the test. *)
Fixpoint all_chars (P : ascii -> bool) (s : string) : bool :=
  match s with
  | EmptyString => true
  | String c s' => P c && all_chars P s'
  end.

(** The characters of the text that pass the test, in order. *)
Fixpoint keep_chars (P : ascii -> bool) (s : string) : string :=
  match s with
  | EmptyString => EmptyString
  | String c s' => if P c then String c (keep_chars P s') else keep_chars P s'
  end.

Definition first_char (s : string) : option ascii :=
  match s with
  | EmptyString => None
  | String c _ => Some c
  end.

Fixpoint last_char (s : string) : option ascii :=
  match s with
  | EmptyString => None
  | String c s' =>
      match last_char s' with
      | Some d => Some d
      | None => Some c
      end
  end.

(** [s.lstrip(chars)] and [s.rstrip(chars)], the set of characters given by
    a test. *)
Fixpoint ltrim (P : ascii -> bool) (s : string) : string :=
  match s with
  | String c s' => if P c then ltrim P s' else s
  | EmptyString => EmptyString
  end.

Fixpoint rtrim (P : ascii -> bool) (s : string) : string :=
  match s with
  | EmptyString => EmptyString
  | String c s' =>
      match rtrim P s' with
      | EmptyString => if P c then EmptyString else String c EmptyString
      | r => String c r
      end
  end.

(** [s.startswith(p)] *)
Fixpoint starts_with (p s : string) : bool :=
  match p, s with
  | EmptyString, _ => true
  | String a p', String b s' => Ascii.eqb a b && starts_with p' s'
  | String _ _, EmptyString => false
  end.

(** [p in s] *)
Fixpoint contains (p s : string) : bool :=
  starts_with p s ||
  match s with
  | EmptyString => false
  | String _ s' => contains p s'
  end.

(** [s.replace(a, b)] for single characters. *)
Fixpoint replace_char (a b : ascii) (s : string) : string :=
  match s with
  | EmptyString => EmptyString
  | String c s' =>
      String (if Ascii.eqb c a then b else c) (replace_char a b s')
  end.

(** ** File names *)





(** ** Text for the PDF *)

Definition keeps_for_pdf (c : ascii) : bool :=
  let n := code c in
  (((n =? 9) || (n =? 10) || (n =? 13) || (32 <=? n))
   && negb (n =? 127) && negb ((128 <=? n) && (n <=? 159)))%N.

Definition sanitize_for_pdf (text : string) : string :=
  if String.eqb text "" then text else keep_chars keeps_for_pdf text.

(** The sum of the counts of a [by_type] dict. *)
Definition sum_counts (d : list (hkey * Z)) : Z :=
  foldr (fun kv acc => kv.2 + acc) 0 d.

(** The time stamp a line adds to [stats["timestamps"]]: the [timestamp] of
    a record, if it is truthy. *)
Definition stamp_of (line : option json) : option json :=
  match line with
  | Some (JObj fields) =>
      match dict_get "timestamp" fields with
      | Some ts => if truthy ts then Some ts else None
      | None => None
      end
  | _ => None
  end.

Definition stamps (content : transcript) : list json := omap stamp_of content.

(** What the loop over the blocks keeps true of the two counters it
    updates. *)
Definition counted_well (c : Z * tool_call_counts) : Prop :=
  0 <= c.1 /\
  total c.2 = sum_counts (by_type c.2) /\
  NoDup ((by_type c.2).*1) /\
  Forall (fun kv : hkey * Z => 1 <= kv.2) (by_type c.2).

(** What the loop over the lines keeps true of [stats]. *)
Definition tallied (st : stats_acc) : Prop :=
  turns st = human_messages st /\
  0 <= human_messages st /\
  0 <= assistant_messages st /\
  counted_well (thinking_blocks st, tool_calls st).

(** A record of the given role with a time stamp. *)
Definition stamped_record (role stamp : string) (blocks : list json) : json :=
  JObj [ ("type", JStr role); ("timestamp", JStr stamp);
         ("message", JObj [("role", JStr role); ("content", JArr blocks)]) ].

(** A request, an answer with three tool calls stamped before the request,
    and a snapshot. *)
Definition sample_session : transcript :=
  [ Some (stamped_record "user" "2026-01-14T10:05:00Z"
            [text_block "Please fix the parser"]);
    None;
    Some (stamped_record "assistant" "2026-01-14T10:00:00Z"
            [ tool_use "Read" "a.py"; tool_use "Read" "b.py";
              tool_use "Edit" "a.py" ]);
    Some (snapshot_record "2026-01-14T10:09:00Z") ].

(** What [extract_session_stats] makes of it. *)
Definition sample_stats : stats :=
  {| counts :=
       {| turns := 1; human_messages := 1; assistant_messages := 1;
          thinking_blocks := 0;
          tool_calls :=
            {| total := 3; by_type := [(KStr "Read", 2); (KStr "Edit", 1)] |};
          tokens := {| input := 0; output := 0; cache_read := 0 |};
          model := JNull; claude_code_version := JNull; timestamps := [] |};
     started_at := JStr "2026-01-14T10:00:00Z";
     ended_at := JStr "2026-01-14T10:09:00Z";
     duration_minutes := 0 |}.

(** What the loop of [detect_relationship_hints] keeps true of [hints]. *)
Definition hints_sound (h : hints) : Prop :=
  continues_hint h = JNull /\
  NoDup (references_hints h) /\
  (forall u, u ∈ references_hints h ->
     "Found session ID reference: " ++ u ∈ detection_notes h) /\
  (length (references_hints h) <= length (detection_notes h))%nat.

Definition sample_uuid : string := "0a1b2c3d-0000-4000-8000-0123456789ab".

(** The identifier search on the one text of the example, which names the
    same session twice. *)
Definition finds_sample_twice (text : string) : list string :=
  if String.eqb text "as in 0a1b2c3d-0000-4000-8000-0123456789ab, I mean 0a1b2c3d-0000-4000-8000-0123456789ab"
  then [sample_uuid; sample_uuid] else [].

Definition names_a_session : transcript :=
  [ Some (user_says "as in 0a1b2c3d-0000-4000-8000-0123456789ab, I mean 0a1b2c3d-0000-4000-8000-0123456789ab") ].

Definition sample_hints : hints :=
  {| continues_hint := JNull;
     references_hints := [sample_uuid];
     detection_notes :=
       ["Found session ID reference: 0a1b2c3d-0000-4000-8000-0123456789ab"] |}.

(** Nothing at the path. *)
Definition is_missing (w : world) (p : Path.t) : Prop :=
  (path_exists p w).1 = Ok false.

(** The world after [line] went to stderr, unless [quiet]. *)
Definition complained (quiet : bool) (line : string) (w : world) : world :=
  if quiet then w else (print_err ("Error: " ++ line) w).2.

(** [w'] is [w] but for what went to stderr. *)
Definition same_files (w w' : world) : Prop :=
  files w' = files w /\ cwd w' = cwd w /\ stdout w' = stdout w.

(** An archive with nothing in it, and no transcript. *)
Definition bare_world : world :=
  {| files := <[ ["archive"] := Dir ]> ∅; cwd := []; stdout := []; stderr := [] |}.

(** A transcript of white space only. *)
Definition blank_world : world :=
  {| files := <[ ["t"; "s.jsonl"] := File (Text "   ") ]> (<[ ["t"] := Dir ]> ∅);
     cwd := []; stdout := []; stderr := [] |}.

(** An item of the sort whose key is text. *)
Definition text_key (p : json * json) : Prop := exists s, p.1 = JStr s.

(** The key of [q] is not greater than the key of [p]. *)
Definition not_behind (p q : json * json) : Prop :=
  forall a b, p.1 = JStr a -> q.1 = JStr b -> str_le b a.

(** A catalog with one entry, and an entry that was started later. *)
Definition catalog_of_one : json :=
  JObj [ ("sessions",
          JArr [ JObj [("id", JStr "s1"); ("started_at", JStr "2026-01-14T10:00:00Z")] ]) ].

Definition later_entry : json :=
  JObj [("id", JStr "s2"); ("started_at", JStr "2026-01-15T09:00:00Z")].

Definition catalog_of_two : json :=
  JObj [ ("sessions",
          JArr [ JObj [("id", JStr "s2"); ("started_at", JStr "2026-01-15T09:00:00Z")];
                 JObj [("id", JStr "s1"); ("started_at", JStr "2026-01-14T10:00:00Z")] ]) ].

(** [w'] is [w] but for the entry at [key] and for directories that were
    not there: every other entry of [w] is in [w'] as it was, and so are the
    current directory and the two output streams. *)
Definition writes_only (key : list string) (w w' : world) : Prop :=
  cwd w' = cwd w /\ stdout w' = stdout w /\ stderr w' = stderr w /\
  forall k n, k <> key -> files w !! k = Some n -> files w' !! k = Some n.

(** A manifest of one session. *)
Definition sample_manifest : json :=
  JObj [("sid", JStr "/archive/2026-01-14-demo")].

(** The scan of two parts of a transcript put together. *)
Definition merge (a b : scan) : scan :=
  {| written_files := written_files a ∪ written_files b;
     edited_files := edited_files a ∪ edited_files b;
     read_files := read_files a ∪ read_files b;
     other_member := other_member a || other_member b |}.

(** ** Project directories *)

#[global] Instance path_eq_dec : EqDecision Path.t.
Proof. solve_decision. Defined.

(** [p / s] for a text [s]: an absolute [s] takes the place of [p]. *)
Definition div (p : Path.t) (s : string) : Path.t :=
  let q := Path.of_str s in
  if String.eqb (Path.root q) "" then Path.mk (Path.root p) (Path.tail p ++ Path.tail q)
  else q.

(** [p.exists()], as [path_exists] finds it. *)
Definition exists_in (w : world) (p : Path.t) : bool :=
  bool_decide (is_Some (node_at (files w) (locate w p))).

(** [str(project_dir.resolve()).replace("/", "-")] *)
Definition get_cc_project_path (project_dir : Path.t) (w : world) : string :=
  replace_char "/" "-" (Path.to_str (Path.resolve_nolinks (cwd w) project_dir)).

(** The inner loop of lines 248-256: the part is joined with the parts that
    follow, one more at each turn, until the result names something that
    exists; [None] is the [else] of the loop. *)
Fixpoint try_combined (w : world) (current : Path.t) (combined : string)
    (later : list string) : option Path.t :=
  match later with
  | [] => None
  | x :: rest =>
      let combined := combined ++ "-" ++ x in
      let test_path := div current combined in
      if exists_in w test_path then Some test_path
      else try_combined w current combined rest
  end.

(** The loop of lines 242-256.  After a part was joined with later ones the
    loop goes on with the part that follows it, not with the part that
    follows the ones joined. *)
Fixpoint walk_parts (w : world) (current : Path.t) (parts : list string)
  : Path.t :=
  match parts with
  | [] => current
  | part :: later =>
      let test_path := div current part in
      if exists_in w test_path then walk_parts w test_path later
      else
        match try_combined w current part later with
        | Some found => walk_parts w found later
        | None => current
        end
  end.

Definition projects_dir (home : Path.t) : Path.t :=
  div (div home ".claude") "projects".

(** [home] is what [Path.home()] returns.  Of the exceptions raised inside
    the [try], [ValueError] alone is caught. *)
Definition get_project_dir_from_transcript (home transcript_path : Path.t)
    (w : world) : result (option Path.t) :=
  match Path.relative_to (Path.resolve_nolinks (cwd w) transcript_path)
          (projects_dir home) with
  | Raise ValueError => Ok None
  | Raise e => Raise e
  | Ok rel_path =>
      match Path.tail rel_path with
      | [] => Raise IndexError
      | encoded_path :: _ =>
          if starts_with "-" encoded_path then
            let decoded := replace_char "-" "/" encoded_path in
            let candidate := Path.of_str decoded in
            if exists_in w candidate then Ok (Some candidate)
            else
              let parts := Path.split_on "-" (Path.drop_str 1 encoded_path) in
              let current := walk_parts w (Path.of_str "/") parts in
              if negb (bool_decide (current = Path.of_str "/"))
                 && exists_in w current
              then Ok (Some current)
              else Ok None
          else Ok None
      end
  end.

(** A path as [Path] makes them: a root that is empty, one slash or two, and
    components that are not empty, not [.] and hold no slash. *)
Definition path_made (p : Path.t) : Prop :=
  (Path.root p = "" \/ Path.root p = "/" \/ Path.root p = "//") /\
  Forall (fun x => Path.keep_part x = true /\
                   all_chars (fun c => negb (Ascii.eqb c "/")) x = true)
    (Path.tail p).

(** A home with a project of Claude Code under it. *)
Definition home_dir : Path.t := Path.of_str "/home/user".

Definition project_world : world :=
  {| files :=
       <[ ["home"; "user"; "proj"] := Dir ]>
       (<[ ["home"; "user"] := Dir ]> (<[ ["home"] := Dir ]> ∅));
     cwd := []; stdout := []; stderr := [] |}.

(** ** The conversation *)

Record chat_message := {
  msg_role : string;
  msg_text : string;
  msg_tool_calls : list (json * string) }.

(** ["\n".join(text_parts)]: [str.join] refuses an item that is not [str]. *)
Definition join_lines (text_parts : list json) : result string :=
  lines ← map_each (fun v => match v with
                             | JStr s => Ok s
                             | _ => Raise TypeError
                             end) text_parts;
  Ok (Path.join (String "010" "") lines).

(** The user texts that lines 936-953 pass over. *)
Definition hidden_user_text (text : string) : bool :=
  starts_with "<system-reminder>" text
  || starts_with "<ide_" text
  || (starts_with "# " text && (500 <? len text)%Z)
  || (contains "<command-name>" text || contains "<command-message>" text)
  || contains "Base directory for this skill:" text
  || starts_with "Launching skill:" text.

(** The blocks of a user message that are kept: the [text] of the [dict]
    blocks of type ["text"]. *)
Fixpoint user_parts (blocks : list json) : list json :=
  match blocks with
  | [] => []
  | JObj fields :: rest =>
      if eq_str (default JNull (dict_get "type" fields)) "text"
      then default (JStr "") (dict_get "text" fields) :: user_parts rest
      else user_parts rest
  | _ :: rest => user_parts rest
  end.

Section extract_conversation_messages.
(** [format_tool_summary(tool_name, tool_input)] *)
Variable format_tool_summary : json -> json -> result string.

(** The body of the loop over the blocks of an assistant message. *)
Definition assistant_block (acc : list json * list (json * string))
    (block : json) : result (list json * list (json * string)) :=
  match block with
  | JObj fields =>
      let block_type := default JNull (dict_get "type" fields) in
      if eq_str block_type "text" then
        Ok (acc.1 ++ [default (JStr "") (dict_get "text" fields)], acc.2)%list
      else if eq_str block_type "tool_use" then
        let tool_name := default (JStr "unknown") (dict_get "name" fields) in
        let tool_input := default (JObj []) (dict_get "input" fields) in
        summary ← format_tool_summary tool_name tool_input;
        Ok (acc.1, acc.2 ++ [(tool_name, summary)])%list
      else Ok acc
  | _ => Ok acc
  end.

Definition messages_entry (messages : list chat_message) (entry : json)
  : result (list chat_message) :=
  entry_type ← get entry "type" JNull;
  if eq_str entry_type snapshot_marker then Ok messages else
  message ← get entry "message" (JObj []);
  role ← get message "role" (or_else entry_type (JStr ""));
  msg_content ← get message "content" (JArr []);
  if eq_str role "user" || eq_str entry_type "user" then
    let text_parts :=
      match msg_content with
      | JStr s => [JStr s]
      | JArr blocks => user_parts blocks
      | _ => []
      end in
    joined ← join_lines text_parts;
    let text := strip joined in
    if String.eqb text "" then Ok messages
    else if hidden_user_text text then Ok messages
    else Ok (messages ++ [{| msg_role := "user"; msg_text := text;
                             msg_tool_calls := [] |}])%list
  else if eq_str role "assistant" || eq_str entry_type "assistant" then
    found ← match msg_content with
            | JArr blocks => for_each assistant_block ([], []) blocks
            | _ => Ok ([], [])
            end;
    joined ← join_lines found.1;
    let text := strip joined in
    if negb (String.eqb text "") || negb (bool_decide (found.2 = []))
    then Ok (messages ++ [{| msg_role := "assistant"; msg_text := text;
                             msg_tool_calls := found.2 |}])%list
    else Ok messages
  else Ok messages.

Definition messages_line (messages : list chat_message) (line : option json)
  : result (list chat_message) :=
  match line with
  | None => Ok messages
  | Some entry => messages_entry messages entry
  end.

Definition extract_conversation_messages (content : transcript)
  : result (list chat_message) :=
  for_each messages_line [] content.
End extract_conversation_messages.

(** A message as the conversation shows them: a user message has a text
    and no tool calls, and its text is none of the injected ones (it does
    not open with [<system-reminder>], [<ide_] or [Launching skill:], is not
    a text of more than 500 characters that opens with [# ], and holds none
    of [<command-name>], [<command-message>] and [Base directory for this
    skill:]); an assistant message has a text or a tool call. *)
Definition message_shown (m : chat_message) : Prop :=
  strip (msg_text m) = msg_text m /\
  ((msg_role m = "user" /\ msg_text m <> "" /\ msg_tool_calls m = [] /\
    (forall rest, msg_text m <> "<system-reminder>" ++ rest) /\
    (forall rest, msg_text m <> "<ide_" ++ rest) /\
    (forall rest, msg_text m = "# " ++ rest ->
                  (String.length (msg_text m) <= 500)%nat) /\
    (forall before after, msg_text m <> before ++ "<command-name>" ++ after) /\
    (forall before after, msg_text m <> before ++ "<command-message>" ++ after) /\
    (forall before after,
       msg_text m <> before ++ "Base directory for this skill:" ++ after) /\
    (forall rest, msg_text m <> "Launching skill:" ++ rest))
   \/
   (msg_role m = "assistant" /\ (msg_text m <> "" \/ msg_tool_calls m <> []))).

(** The messages of a role. *)
Definition of_role (role : string) (messages : list chat_message)
  : list chat_message :=
  List.filter (fun m => String.eqb (msg_role m) role) messages.

(** A summary that names the tool only. *)
Definition names_tool (tool_name tool_input : json) : result string :=
  match tool_name with
  | JStr s => Ok s
  | _ => Raise TypeError
  end.

Definition sample_messages : list chat_message :=
  [ {| msg_role := "user"; msg_text := "Please fix the parser";
       msg_tool_calls := [] |};
    {| msg_role := "assistant"; msg_text := "";
       msg_tool_calls :=
         [ (JStr "Read", "Read"); (JStr "Read", "Read"); (JStr "Edit", "Edit") ] |} ].

(** ** Tool summaries *)

(** [path.parts]: the root, if there is one, and the components. *)
Definition parts (p : Path.t) : list string :=
  if String.eqb (Path.root p) "" then Path.tail p
  else Path.root p :: Path.tail p.

(** [Path(v)]: a value that is not text is refused. *)
Definition path_of (v : json) : result Path.t :=
  match v with
  | JStr s => Ok (Path.of_str s)
  | _ => Raise TypeError
  end.

(** [v + s] for a text [s] *)
Definition add_text (v : json) (s : string) : result json :=
  match v with
  | JStr t => Ok (JStr (t ++ s))
  | _ => Raise TypeError
  end.

(** How often a character is in a text. *)
Fixpoint count_char (a : ascii) (s : string) : nat :=
  match s with
  | EmptyString => 0
  | String c s' => ((if Ascii.eqb c a then 1 else 0) + count_char a s')%nat
  end.

Section format_tool_summary.
(** [str(v)] for a value that is not text. *)
Variable py_str : json -> string.
(** What [d[:n]] raises for a [dict]: [TypeError] up to Python 3.11 and
    [KeyError] after. *)
Variable dict_slice_error : exn.

(** [f"{v}"] *)
Definition fmt (v : json) : string :=
  match v with
  | JStr s => s
  | _ => py_str v
  end.

(** [v[:n]] *)
Definition slice_to (n : nat) (v : json) : result json :=
  match v with
  | JStr s => Ok (JStr (take_str n s))
  | JArr l => Ok (JArr (take n l))
  | JObj _ => Raise dict_slice_error
  | _ => Raise TypeError
  end.

(** Lines 846-851: the last two parts of a path of more than two, its name
    otherwise. *)
Definition display_of (path : Path.t) : string :=
  if (2 <? length (parts path))%nat
  then Path.join "/" (drop (length (parts path) - 2) (parts path))
  else Path.name path.

Definition format_tool_summary (tool_name tool_input : json) : result string :=
  if eq_str tool_name "Read" then
    file_path ← get tool_input "file_path" (JStr "unknown");
    path ← path_of file_path;
    Ok ("Read: " ++ display_of path)
  else if eq_str tool_name "Write" then
    file_path ← get tool_input "file_path" (JStr "unknown");
    path ← path_of file_path;
    Ok ("Write: " ++ Path.name path)
  else if eq_str tool_name "Edit" then
    file_path ← get tool_input "file_path" (JStr "unknown");
    path ← path_of file_path;
    Ok ("Edit: " ++ Path.name path)
  else if eq_str tool_name "Bash" then
    command ← get tool_input "command" (JStr "");
    n ← py_len command;
    command ← (if (60 <? n)%Z
               then cut ← slice_to 57 command; add_text cut "..."
               else Ok command);
    Ok ("Bash: `" ++ fmt command ++ "`")
  else if eq_str tool_name "Grep" then
    pattern ← get tool_input "pattern" (JStr "");
    path ← get tool_input "path" (JStr "");
    Ok ("Grep: '" ++ fmt pattern ++ "' in " ++ fmt (or_else path (JStr ".")))
  else if eq_str tool_name "Glob" then
    pattern ← get tool_input "pattern" (JStr "");
    Ok ("Glob: " ++ fmt pattern)
  else if eq_str tool_name "Task" then
    description ← get tool_input "description" (JStr "");
    Ok ("Task: " ++ fmt description)
  else if eq_str tool_name "WebFetch" then
    url ← get tool_input "url" (JStr "");
    n ← py_len url;
    if (50 <? n)%Z
    then cut ← slice_to 50 url; Ok ("WebFetch: " ++ fmt cut ++ "...")
    else Ok ("WebFetch: " ++ fmt url)
  else if eq_str tool_name "WebSearch" then
    query ← get tool_input "query" (JStr "");
    Ok ("WebSearch: '" ++ fmt query ++ "'")
  else Ok (fmt tool_name).
End format_tool_summary.

(** [str] of a value, for the examples, which have text only. *)
Definition str_unused (v : json) : string := "".

(** ** The catalog, in the words of its description *)










(** A transcript with injected texts in user records (a system reminder, an
    IDE context, a command, a skill launch, a skill directory), one request
    and one answer. *)
Definition injected_session : transcript :=
  [ Some (user_says "<system-reminder>Be brief.</system-reminder>");
    Some (user_says "<ide_opened_file>The user opened main.py</ide_opened_file>");
    Some (user_says "run <command-name>/clear</command-name>");
    Some (user_says "<command-message>clear</command-message>");
    Some (user_says "Launching skill: review");
    Some (user_says "Base directory for this skill: /skills/review");
    Some (user_says "  Please fix the parser  ");
    Some (message_record "assistant" [text_block " Done. "]);
    Some (message_record "assistant" []) ].

Definition injected_session_messages : list chat_message :=
  [ {| msg_role := "user"; msg_text := "Please fix the parser";
       msg_tool_calls := [] |};
    {| msg_role := "assistant"; msg_text := "Done."; msg_tool_calls := [] |} ].

(** * Properties *)

(** ** The error monad *)

Lemma bind_Ok {A B} (m : result A) (f : A -> result B) (b : B) :
  m ≫= f = Ok b <-> exists a, m = Ok a /\ f a = Ok b.
Proof.
  destruct m as [a|e]; simpl; split.
  - intros H. exists a. auto.
  - intros (a' & Ha & H). congruence.
  - discriminate.
  - intros (a' & Ha & _). discriminate.
Qed.

Ltac inv_bind H :=
  let a := fresh "a" in
  let Ha := fresh "Ha" in
  apply bind_Ok in H; destruct H as (a & Ha & H).

Lemma for_each_app {S A} (body : S -> A -> result S) st l1 l2 :
  for_each body st (l1 ++ l2) = st' ← for_each body st l1; for_each body st' l2.
Proof.
  revert st. induction l1 as [|x l1 IH]; intros st; simpl; [done|].
  destruct (body st x); simpl; auto.
Qed.

(** ** Order on text *)

Lemma str_compare_antisym a b : str_compare b a = CompOpp (str_compare a b).
Proof.
  revert b. induction a as [|x a IH]; intros [|y b]; simpl; try done.
  rewrite (N.compare_antisym (code x) (code y)).
  destruct (code x ?= code y)%N; simpl; auto.
Qed.

Lemma code_inj x y : code x = code y -> x = y.
Proof.
  unfold code. intros H.
  rewrite <- (ascii_N_embedding x), <- (ascii_N_embedding y). by rewrite H.
Qed.

Lemma str_compare_eq a b : str_compare a b = Eq -> a = b.
Proof.
  revert b. induction a as [|x a IH]; intros [|y b]; simpl; try done.
  destruct (code x ?= code y)%N eqn:E; try done.
  intros H. apply N.compare_eq in E. apply code_inj in E. f_equal; auto.
Qed.

Lemma str_compare_refl a : str_compare a a = Eq.
Proof. induction a as [|x a IH]; simpl; [done|]. by rewrite N.compare_refl. Qed.

Lemma str_compare_lt_trans a b c :
  str_compare a b = Lt -> str_compare b c = Lt -> str_compare a c = Lt.
Proof.
  revert b c. induction a as [|x a IH]; intros [|y b] [|z c]; simpl; try done.
  destruct (code x ?= code y)%N eqn:E1, (code y ?= code z)%N eqn:E2;
    try done; intros H1 H2.
  - apply N.compare_eq in E1, E2. rewrite E1, E2, N.compare_refl. eauto.
  - apply N.compare_eq in E1. by rewrite E1, E2.
  - apply N.compare_eq in E2. by rewrite <- E2, E1.
  - rewrite N.compare_lt_iff in E1, E2.
    assert (code x < code z)%N as E by lia.
    apply N.compare_lt_iff in E. by rewrite E.
Qed.

#[global] Instance str_le_total : Total str_le.
Proof.
  intros a b. unfold str_le, str_leb. rewrite (str_compare_antisym a b).
  destruct (str_compare a b); simpl; auto.
Qed.

#[global] Instance str_le_trans : Transitive str_le.
Proof.
  intros a b c. unfold str_le, str_leb.
  destruct (str_compare a b) eqn:E1; [| |done].
  - apply str_compare_eq in E1. by subst.
  - destruct (str_compare b c) eqn:E2; [| |done].
    + apply str_compare_eq in E2. subst. by rewrite E1.
    + by rewrite (str_compare_lt_trans a b c).
Qed.

#[global] Instance str_le_antisym : AntiSymm (=) str_le.
Proof.
  intros a b. unfold str_le, str_leb. rewrite (str_compare_antisym a b).
  destruct (str_compare a b) eqn:E; simpl; try done.
  intros _ _. by apply str_compare_eq.
Qed.


Lemma sorted_elem_of s p : p ∈ sorted s <-> p ∈ s.
Proof. unfold sorted. rewrite merge_sort_Permutation. apply elem_of_elements. Qed.

Lemma sorted_NoDup s : NoDup (sorted s).
Proof. unfold sorted. rewrite merge_sort_Permutation. apply NoDup_elements. Qed.

(** ** The artifact scan *)

Lemma eq_str_true v s : eq_str v s = true <-> v = JStr s.
Proof.
  destruct v; simpl; try (split; [done | intros [=]]).
  rewrite String.eqb_eq. split; [by intros -> | by intros [= ->]].
Qed.

Lemma tool_of_Some tn t : tool_of tn = Some t <-> tn = JStr (tool_name t).
Proof.
  unfold tool_of.
  destruct (eq_str tn "Write") eqn:E1; [apply eq_str_true in E1; subst|].
  { destruct t; simpl; split; by intros [=]. }
  destruct (eq_str tn "Edit") eqn:E2; [apply eq_str_true in E2; subst|].
  { destruct t; simpl; split; by intros [=]. }
  destruct (eq_str tn "Read") eqn:E3; [apply eq_str_true in E3; subst|].
  { destruct t; simpl; split; by intros [=]. }
  split; [done|]. intros ->.
  destruct t; simpl in *; discriminate.
Qed.

Lemma truthy_JStr p : truthy (JStr p) = true <-> p <> "".
Proof.
  simpl. rewrite negb_true_iff, <- not_true_iff_false, String.eqb_eq. done.
Qed.

Lemma add_files t u v st st' p :
  add u v st = Ok st' ->
  p ∈ files_of t st' <-> p ∈ files_of t st \/ (t = u /\ v = JStr p).
Proof.
  destruct v; simpl; try discriminate; intros [= <-].
  1-3: destruct t; simpl; (split; [by left | by intros [?|[_ [=]]]]).
  destruct t, u; simpl; set_solver.
Qed.

Lemma add_other u v st st' :
  add u v st = Ok st' ->
  other_member st' = true <-> other_member st = true \/ ~ exists p, v = JStr p.
Proof.
  destruct v; simpl; try discriminate; intros [= <-]; simpl.
  1-3: (split; [intros _; right; by intros [? [=]] | done]).
  destruct u; simpl; (split; [by left | intros [?|Hno]; [done|]]);
    destruct Hno; eauto.
Qed.

Lemma scan_block_files t p st block st' :
  scan_block st block = Ok st' ->
  p ∈ files_of t st' <-> p ∈ files_of t st \/ tool_call t p block.
Proof.
  assert (forall st, st' = st -> ~ tool_call t p block ->
            p ∈ files_of t st' <-> p ∈ files_of t st \/ tool_call t p block)
    as Hsame by (intros ? -> ?; tauto).
  destruct block as [| | | | |fields]; simpl;
    try (intros [= <-]; apply Hsame; [done|]; by intros (? & ? & [=] & _)).
  destruct (eq_str _ "tool_use") eqn:Ety; simpl.
  2:{ intros [= <-]. apply Hsame; [done|].
      intros (? & ? & [= <-] & Hty & _). rewrite Hty in Ety. simpl in Ety.
      discriminate. }
  intros H. inv_bind H.
  destruct (default (JObj []) (dict_get "input" fields)) as [| | | | |input] eqn:Ein;
    try discriminate.
  injection Ha as <-.
  destruct (truthy (default JNull (dict_get "file_path" input))) eqn:Etr; simpl in H.
  2:{ injection H as <-. apply Hsame; [done|].
      intros (? & inp & [= <-] & _ & _ & Hin & Hfp & Hne).
      rewrite Hin in Ein. injection Ein as <-. rewrite Hfp in Etr.
      apply truthy_JStr in Hne. simpl in *. congruence. }
  destruct (tool_of _) as [u|] eqn:Etool.
  2:{ injection H as <-. apply Hsame; [done|].
      intros (? & inp & [= <-] & _ & Hnm & _). rewrite Hnm in Etool.
      simpl in Etool. by rewrite (proj2 (tool_of_Some _ t)) in Etool. }
  apply tool_of_Some in Etool.
  rewrite (add_files t u _ _ _ p H).
  apply or_iff_compat_l. split.
  - intros [-> Hv]. exists fields, input. split; [done|].
    apply eq_str_true in Ety.
    destruct (dict_get "type" fields) as [ty|] eqn:E1; simpl in Ety; [subst ty|done].
    destruct (dict_get "name" fields) as [nm|] eqn:E2; simpl in Etool;
      [subst nm|by destruct u].
    destruct (dict_get "input" fields) as [i|] eqn:E3; simpl in Ein.
    2:{ injection Ein as <-. simpl in Hv. discriminate. }
    subst i.
    destruct (dict_get "file_path" input) as [fp|] eqn:E4; simpl in Hv, Etr;
      [subst fp|done].
    repeat split; try done. by apply truthy_JStr.
  - intros (? & inp & [= <-] & _ & Hnm & Hin & Hfp & _).
    rewrite Hin in Ein. injection Ein as <-.
    rewrite Hnm in Etool. simpl in Etool. rewrite Hfp. simpl. split; [|done].
    injection Etool. by destruct t, u.
Qed.

Lemma scan_blocks_files t p blocks : forall st st',
  for_each scan_block st blocks = Ok st' ->
  p ∈ files_of t st' <->
  p ∈ files_of t st \/ exists block, block ∈ blocks /\ tool_call t p block.
Proof.
  induction blocks as [|b blocks IH]; intros st st'; simpl.
  - intros [= <-]. set_solver.
  - intros H. inv_bind H. rewrite (IH _ _ H), (scan_block_files t p _ _ _ Ha).
    set_solver.
Qed.

Lemma scan_entry_files t p st entry st' :
  scan_entry st entry = Ok st' ->
  p ∈ files_of t st' <->
  p ∈ files_of t st \/ exists block, block ∈ blocks_of entry /\ tool_call t p block.
Proof.
  unfold scan_entry. intros H. inv_bind H. inv_bind H.
  destruct entry as [| | | | |fields]; try discriminate.
  injection Ha as <-.
  destruct (dict_get "message" fields) as [m|] eqn:Em; simpl in *.
  - destruct m as [| | | | |message]; try discriminate.
    injection Ha0 as <-. rewrite Em.
    destruct (dict_get "content" message) as [c|] eqn:Ec; simpl in *.
    + destruct c; try (injection H as <-; set_solver).
      by apply scan_blocks_files.
    + injection H as <-. set_solver.
  - injection Ha0 as <-. simpl in H. injection H as <-. rewrite Em. set_solver.
Qed.

Lemma scan_files t p content : forall st st',
  for_each scan_line st content = Ok st' ->
  p ∈ files_of t st' <-> p ∈ files_of t st \/ seen content t p.
Proof.
  unfold seen.
  induction content as [|line content IH]; intros st st'; simpl.
  - intros [= <-]. set_solver.
  - intros H. inv_bind H. rewrite (IH _ _ H).
    destruct line as [entry|]; simpl in Ha.
    + rewrite (scan_entry_files t p _ _ _ Ha). set_solver.
    + injection Ha as <-. set_solver.
Qed.

(** On plain records the scan returns, with nothing but text in its sets. *)
Lemma scan_block_plain st block :
  plain_block block = true ->
  exists st', scan_block st block = Ok st' /\ other_member st' = other_member st.
Proof.
  destruct block as [| | | | |fields]; simpl; eauto.
  destruct (eq_str _ "tool_use"); simpl; [|eauto].
  destruct (default (JObj []) (dict_get "input" fields)) as [| | | | |input];
    try done. simpl.
  destruct (default JNull (dict_get "file_path" input)) as [| | |p| |];
    try done; simpl; [eauto|].
  intros _. destruct (negb (negb (p =? ""))); simpl; [eauto|].
  destruct (tool_of _) as [[]|]; simpl; eauto.
Qed.

Lemma scan_blocks_plain blocks : forall st,
  forallb plain_block blocks = true ->
  exists st',
    for_each scan_block st blocks = Ok st' /\ other_member st' = other_member st.
Proof.
  induction blocks as [|b blocks IH]; intros st; simpl; [eauto|].
  intros [Hb Hbs]%andb_true_iff.
  destruct (scan_block_plain st b Hb) as (st1 & -> & H1). simpl.
  destruct (IH st1 Hbs) as (st2 & -> & H2). exists st2. split; congruence.
Qed.

Lemma scan_lines_plain content : forall st,
  forallb plain_line content = true ->
  exists st',
    for_each scan_line st content = Ok st' /\ other_member st' = other_member st.
Proof.
  induction content as [|line content IH]; intros st; simpl; [eauto|].
  intros [Hl Hls]%andb_true_iff.
  assert (exists st1, scan_line st line = Ok st1 /\
                      other_member st1 = other_member st) as (st1 & -> & H1).
  { destruct line as [entry|]; simpl in *; [|eauto].
    unfold scan_entry, plain_entry in *.
    destruct entry as [| | | | |fields]; try done. simpl.
    destruct (default (JObj []) (dict_get "message" fields)) as [| | | | |message];
      try done. simpl.
    destruct (default (JArr []) (dict_get "content" message)) as [| | | |blocks|];
      eauto using scan_blocks_plain. }
  simpl. destruct (IH st1 Hls) as (st2 & -> & H2). exists st2. split; congruence.
Qed.

(** The artifact extractor returns on every transcript of plain records. *)
Lemma extract_artifacts_returns resolve content project_dir :
  forallb plain_line content = true ->
  is_Ok (extract_artifacts resolve content project_dir).
Proof.
  intros H. unfold extract_artifacts.
  destruct (scan_lines_plain content scan_empty H) as (st & -> & Hst).
  simpl in *. rewrite Hst. by eexists.
Qed.

Lemma paths_entry_of_None resolve (l : list string) :
  paths (entry_of resolve None <$> l) = l.
Proof.
  unfold paths. induction l as [|x l IH]; simpl; [done|]. by f_equal.
Qed.

(** C1: when the artifact extractor returns, its three lists are the sorted
    members of [written], [edited − written] and [read − edited − written],
    where the three sets hold exactly the file paths seen in Write, Edit and
    Read tool_use blocks; these three classes are pairwise disjoint and
    together are all the paths seen.  Without a project root the [path]
    fields of the three lists are these paths themselves: no path is in two
    lists or twice in one, and the paths of the three lists are the paths
    seen.  With a project root the lists hold the same classes in the same
    order, each path rewritten relative to the root afterwards. *)
Theorem extract_artifacts_set_algebra resolve content project_dir r :
  extract_artifacts resolve content project_dir = Ok r ->
  exists written edited read : gset string,
    (forall p, p ∈ written <-> seen content Write p) /\
    (forall p, p ∈ edited <-> seen content Edit p) /\
    (forall p, p ∈ read <-> seen content Read p) /\
    created r = entry_of resolve project_dir <$> sorted written /\
    modified r = entry_of resolve project_dir <$> sorted (edited ∖ written) /\
    referenced r =
      entry_of resolve project_dir <$> sorted (read ∖ edited ∖ written) /\
    written ## edited ∖ written /\
    written ## read ∖ edited ∖ written /\
    edited ∖ written ## read ∖ edited ∖ written /\
    written ∪ (edited ∖ written) ∪ (read ∖ edited ∖ written)
      = written ∪ edited ∪ read /\
    (project_dir = None ->
       paths (created r) = sorted written /\
       paths (modified r) = sorted (edited ∖ written) /\
       paths (referenced r) = sorted (read ∖ edited ∖ written) /\
       NoDup (paths (created r) ++ paths (modified r) ++ paths (referenced r))%list /\
       (forall p,
          p ∈ (paths (created r) ++ paths (modified r) ++ paths (referenced r))%list
          <-> seen content Write p \/ seen content Edit p \/ seen content Read p)).
Proof.
  unfold extract_artifacts. intros H. inv_bind H.
  destruct (other_member a); [discriminate|]. injection H as <-. simpl.
  exists (written_files a), (edited_files a), (read_files a).
  pose proof (fun t p => scan_files t p _ _ _ Ha) as Hscan.
  assert (forall t p, p ∈ files_of t a <-> seen content t p) as Hseen.
  { intros t p. rewrite (Hscan t p). destruct t; simpl; set_solver. }
  split; [exact (Hseen Write)|]. split; [exact (Hseen Edit)|].
  split; [exact (Hseen Read)|].
  do 3 (split; [done|]). do 3 (split; [set_solver|]). split.
  - apply set_eq. intros p. rewrite !elem_of_union, !elem_of_difference.
    destruct (decide (p ∈ written_files a)), (decide (p ∈ edited_files a));
      tauto.
  - intros ->. rewrite !paths_entry_of_None. do 3 (split; [done|]). split.
    + apply NoDup_app. split; [apply sorted_NoDup|]. split.
      * intros p Hp [Hq|Hq]%elem_of_app; apply sorted_elem_of in Hp, Hq;
          set_solver.
      * apply NoDup_app. split; [apply sorted_NoDup|].
        split; [|apply sorted_NoDup].
        intros p Hp Hq. apply sorted_elem_of in Hp, Hq. set_solver.
    + intros p. rewrite !elem_of_app, !sorted_elem_of.
      rewrite <- (Hseen Write p), <- (Hseen Edit p), <- (Hseen Read p). simpl.
      rewrite !elem_of_difference.
      destruct (decide (p ∈ written_files a)), (decide (p ∈ edited_files a));
        tauto.
Qed.



Lemma extract_artifacts_set_algebra_witness :
  extract_artifacts resolve_plain sample_scan None = Ok sample_artifacts /\
  exists written edited read : gset string,
    (forall p, p ∈ written <-> seen sample_scan Write p) /\
    (forall p, p ∈ edited <-> seen sample_scan Edit p) /\
    (forall p, p ∈ read <-> seen sample_scan Read p) /\
    created sample_artifacts = entry_of resolve_plain None <$> sorted written /\
    modified sample_artifacts
      = entry_of resolve_plain None <$> sorted (edited ∖ written) /\
    referenced sample_artifacts
      = entry_of resolve_plain None <$> sorted (read ∖ edited ∖ written) /\
    written ## edited ∖ written /\
    written ## read ∖ edited ∖ written /\
    edited ∖ written ## read ∖ edited ∖ written /\
    written ∪ (edited ∖ written) ∪ (read ∖ edited ∖ written)
      = written ∪ edited ∪ read /\
    (@None Path.t = None ->
       paths (created sample_artifacts) = sorted written /\
       paths (modified sample_artifacts) = sorted (edited ∖ written) /\
       paths (referenced sample_artifacts) = sorted (read ∖ edited ∖ written) /\
       NoDup (paths (created sample_artifacts) ++ paths (modified sample_artifacts)
              ++ paths (referenced sample_artifacts))%list /\
       (forall p,
          p ∈ (paths (created sample_artifacts) ++ paths (modified sample_artifacts)
               ++ paths (referenced sample_artifacts))%list
          <-> seen sample_scan Write p \/ seen sample_scan Edit p
              \/ seen sample_scan Read p)).
Proof.
  split; [vm_compute; reflexivity|].
  apply (extract_artifacts_set_algebra resolve_plain sample_scan None).
  vm_compute; reflexivity.
Defined.



(** C1 fails under a project root: the classes are sets of path texts, and
    two texts for one file ([/p/a] written, [/p/./a] edited) are rewritten
    to one relative path, which then shows in two lists: the output lists
    are not disjoint, and the path they share is none of the texts seen. *)
Lemma two_spellings_share_a_path :
  exists r,
    extract_artifacts resolve_plain two_spellings_scan (Some (Path.of_str "/p"))
    = Ok r /\
    r = {| created := [{| art_path := "a"; art_type := "other" |}];
           modified := [{| art_path := "a"; art_type := "other" |}];
           referenced := [] |} /\
    paths (created r) = ["a"] /\
    paths (modified r) = ["a"] /\
    ~ NoDup (paths (created r) ++ paths (modified r) ++ paths (referenced r))%list.
Proof.
  eexists. split; [vm_compute; reflexivity|]. split; [reflexivity|].
  split; [reflexivity|]. split; [reflexivity|].
  simpl. intros H. apply NoDup_cons in H as [H _]. apply H. by left.
Qed.

(** C5 fails: a Write block in a user record puts its path in [created]. *)
Lemma user_record_tool_use_is_counted :
  extract_artifacts resolve_plain user_tool_scan None
  = Ok {| created := [{| art_path := "/x.py"; art_type := "code" |}];
          modified := []; referenced := [] |}.
Proof. vm_compute; reflexivity. Qed.

(** ** Records as dicts *)

Lemma dict_get_set_eq key v fields : dict_get key (dict_set key v fields) = Some v.
Proof.
  induction fields as [|[k w] rest IH]; simpl.
  - by rewrite String.eqb_refl.
  - destruct (String.eqb k key) eqn:E; simpl; rewrite E; auto.
Qed.

Lemma dict_get_set_ne key key' v fields :
  key <> key' -> dict_get key (dict_set key' v fields) = dict_get key fields.
Proof.
  intros Hne. induction fields as [|[k w] rest IH]; simpl.
  - destruct (String.eqb_spec key' key); [congruence|done].
  - destruct (String.eqb_spec k key'); simpl.
    + subst k. destruct (String.eqb_spec key' key); [congruence|done].
    + destruct (String.eqb_spec k key); auto.
Qed.

Lemma scan_entry_with_role role st entry :
  scan_entry st (with_role role entry) = scan_entry st entry.
Proof.
  destruct entry as [| | | | |fields]; try done.
  unfold scan_entry, with_role. simpl.
  rewrite dict_get_set_ne by done.
  destruct (dict_get "message" fields) as [[| | | | |message]|] eqn:Em;
    try (by rewrite Em).
  rewrite dict_get_set_eq. simpl. by rewrite dict_get_set_ne.
Qed.

(** C5, as the code has it: the artifact extractor reads the blocks of every
    record whose message content is a list and never looks at the role.
    Setting the role and type of every record to any value leaves its result
    as it was. *)
Theorem extract_artifacts_ignores_role resolve role content project_dir :
  extract_artifacts resolve (set_roles role content) project_dir
  = extract_artifacts resolve content project_dir.
Proof.
  unfold extract_artifacts. f_equal.
  generalize scan_empty as st.
  induction content as [|line content IH]; intros st; simpl; [done|].
  assert (scan_line st (option_map (with_role role) line) = scan_line st line)
    as ->.
  { destruct line; simpl; [apply scan_entry_with_role | done]. }
  destruct (scan_line st line); simpl; auto.
Qed.

(** ** Titles *)

Lemma generate_title_first_accepted l1 entry title l2 :
  Forall passed_over l1 ->
  title_entry entry = Ok (Some title) ->
  generate_title_from_content (l1 ++ Some entry :: l2)%list = Ok title.
Proof.
  intros Hl1 He. induction Hl1 as [|line l1 Hline _ IH]; simpl.
  - by rewrite He.
  - destruct line as [e|]; [|done]. simpl in Hline. by rewrite Hline.
Qed.

Lemma is_ide_context_message_false text :
  _is_ide_context_message text = false ->
  text <> "" /\ (10 <= len (strip text))%Z.
Proof.
  unfold _is_ide_context_message.
  destruct (String.eqb_spec text ""); [done|].
  destruct (existsb _ _); [done|]. intros H%Z.ltb_ge. done.
Qed.

Lemma title_entry_user_says text :
  _is_ide_context_message text = false ->
  title_entry (user_says text) = Ok (Some (clean_title text)).
Proof.
  intros Hide. destruct (is_ide_context_message_false _ Hide) as [Hne Hlen].
  unfold title_entry, user_says, message_record, text_block. simpl.
  destruct (String.eqb_spec text ""); [done|]. simpl.
  destruct (String.eqb_spec (strip text) "") as [E|_].
  - rewrite E in Hlen. done.
  - by rewrite Hide.
Qed.

(** C7, as the code has it: the pattern is tied to the start of the text, so
    one phrase goes ("Hello") and the next ("can you") stays; the title is
    "can you fix the bug". *)
Theorem title_of_hello_can_you_fix_the_bug l1 l2 :
  Forall passed_over l1 ->
  generate_title_from_content
    (l1 ++ Some (user_says "Hello can you fix the bug?") :: l2)%list
  = Ok "can you fix the bug".
Proof.
  intros Hl1. apply generate_title_first_accepted; [done|].
  rewrite title_entry_user_says; reflexivity.
Qed.

Lemma title_of_hello_can_you_fix_the_bug_witness :
  Forall passed_over [] /\
  generate_title_from_content
    ([] ++ Some (user_says "Hello can you fix the bug?") :: [])%list
  = Ok "can you fix the bug".
Proof.
  split; [constructor|].
  apply (title_of_hello_can_you_fix_the_bug [] []). constructor.
Defined.

(** C7 fails: the title is not "fix the bug". *)
Lemma title_is_not_fix_the_bug :
  generate_title_from_content [Some (user_says "Hello can you fix the bug?")]
  <> Ok "fix the bug".
Proof. vm_compute. discriminate. Qed.

(** C10: a text that is accepted (no IDE marker opens it and, stripped, it
    has 10 characters or more) and that the clean-up leaves empty gives the
    fallback title. *)
Theorem fallback_title_for_emptied_candidate l1 l2 text :
  Forall passed_over l1 ->
  _is_ide_context_message text = false ->
  strip (take_str 60 (first_sentence (remove_greeting greetings (strip text))))
    = "" ->
  (10 <= len (strip text))%Z /\
  generate_title_from_content (l1 ++ Some (user_says text) :: l2)%list
    = Ok "Untitled Session".
Proof.
  intros Hl1 Hide Hempty. split; [by apply is_ide_context_message_false|].
  apply generate_title_first_accepted; [done|].
  rewrite title_entry_user_says by done.
  unfold clean_title. by rewrite Hempty.
Qed.

Lemma fallback_title_for_emptied_candidate_witness :
  Forall passed_over [Some (user_says "ok")] /\
  _is_ide_context_message "hello   ...and then some" = false /\
  strip (take_str 60 (first_sentence
           (remove_greeting greetings (strip "hello   ...and then some")))) = "" /\
  (10 <= len (strip "hello   ...and then some"))%Z /\
  generate_title_from_content
    ([Some (user_says "ok")] ++
       Some (user_says "hello   ...and then some") :: [])%list
    = Ok "Untitled Session".
Proof.
  assert (Forall passed_over [Some (user_says "ok")]) as H1
    by (repeat constructor).
  assert (_is_ide_context_message "hello   ...and then some" = false) as H2
    by reflexivity.
  assert (strip (take_str 60 (first_sentence
            (remove_greeting greetings (strip "hello   ...and then some")))) = "")
    as H3 by reflexivity.
  split; [exact H1|]. split; [exact H2|]. split; [exact H3|].
  exact (fallback_title_for_emptied_candidate
           [Some (user_says "ok")] [] "hello   ...and then some" H1 H2 H3).
Defined.

(** ** Snapshot records *)

Lemma same_tally_refl a : same_tally a a.
Proof. by destruct a. Qed.

Lemma same_tally_bind {A} (m : result A) (f g : A -> result stats_acc) :
  (forall a, same_tally (f a) (g a)) -> same_tally (m ≫= f) (m ≫= g).
Proof. intros H. destruct m; simpl; [apply H | done]. Qed.

Lemma stats_entry_untimed st1 st2 entry :
  untimed st1 = untimed st2 ->
  same_tally (stats_entry st1 entry) (stats_entry st2 entry).
Proof.
  destruct st1, st2. unfold untimed. simpl. intros [= -> -> -> -> -> -> -> ->].
  unfold stats_entry. simpl.
  apply same_tally_bind; intros ts. apply same_tally_bind; intros ty.
  destruct (eq_str ty snapshot_marker); [done|].
  repeat first
    [ apply same_tally_bind; intros ?
    | match goal with
      | |- context [let '(_, _) := ?p in _] => destruct p
      end ].
  done.
Qed.

Lemma stats_loop_untimed l : forall st1 st2,
  untimed st1 = untimed st2 ->
  same_tally (for_each stats_line st1 l) (for_each stats_line st2 l).
Proof.
  induction l as [|line l IH]; intros st1 st2 H; simpl; [done|].
  destruct line as [entry|]; simpl; [|by apply IH].
  pose proof (stats_entry_untimed st1 st2 entry H) as Hstep.
  destruct (stats_entry st1 entry), (stats_entry st2 entry); simpl in *;
    try done. by apply IH.
Qed.

Lemma for_each_skip {S A} (body : S -> A -> result S) x l1 l2 st :
  (forall st, body st x = Ok st) ->
  for_each body st (l1 ++ x :: l2) = for_each body st (l1 ++ l2).
Proof.
  intros H. rewrite !for_each_app. destruct (for_each body st l1); simpl; [|done].
  by rewrite H.
Qed.

Lemma stats_entry_snapshot st fields :
  dict_get "type" fields = Some (JStr snapshot_marker) ->
  exists st',
    stats_entry st (JObj fields) = Ok st' /\
    untimed st' = untimed st /\
    (truthy (default JNull (dict_get "timestamp" fields)) = false -> st' = st).
Proof.
  intros Hty. unfold stats_entry. simpl. rewrite Hty. simpl.
  eexists. split; [reflexivity|]. split; [done|].
  intros ->. by destruct st.
Qed.

Lemma finish_stats_counts minutes_between st s :
  finish_stats minutes_between st = Ok s -> counts s = untimed st.
Proof.
  unfold finish_stats. destruct (timestamps st) as [|t rest].
  - by intros [= <-].
  - intros H. inv_bind H. inv_bind H.
    destruct a, a0; try discriminate. by injection H as <-.
Qed.

Lemma generate_title_skip entry l1 l2 :
  title_entry entry = Ok None ->
  generate_title_from_content (l1 ++ Some entry :: l2)%list
  = generate_title_from_content (l1 ++ l2)%list.
Proof.
  intros H. induction l1 as [|line l1 IH]; simpl.
  - by rewrite H.
  - destruct line as [e|]; [|done]. destruct (title_entry e) as [[t|]|]; simpl; auto.
Qed.

Lemma stats_loop_snapshot fields l1 l2 :
  dict_get "type" fields = Some (JStr snapshot_marker) ->
  same_tally
    (for_each stats_line stats_init (l1 ++ Some (JObj fields) :: l2)%list)
    (for_each stats_line stats_init (l1 ++ l2)%list).
Proof.
  intros Hty. rewrite !for_each_app.
  destruct (for_each stats_line stats_init l1) as [a|]; simpl; [|done].
  destruct (stats_entry_snapshot a fields Hty) as (st' & -> & Hun & _).
  simpl. by apply stats_loop_untimed.
Qed.

(** C4, as the code has it: a snapshot record adds nothing to the counters,
    the tool-call histogram, the token totals, the model and the version of
    the statistics (the scan with the record and the scan without it end
    alike, the collected time stamps apart), and without a time stamp it
    leaves the statistics as they are; its time stamp, when it has one, is
    collected before the marker is tested.  The other folds do not test the
    marker: the record adds no artifact path, no relationship hint and no
    title when it has no message field. *)
Theorem snapshot_record_contribution
    minutes_between resolve uuid_matches continuation_hits
    fields l1 l2 project_dir :
  dict_get "type" fields = Some (JStr snapshot_marker) ->
  same_tally
    (for_each stats_line stats_init (l1 ++ Some (JObj fields) :: l2)%list)
    (for_each stats_line stats_init (l1 ++ l2)%list) /\
  (forall s s',
     extract_session_stats minutes_between (l1 ++ Some (JObj fields) :: l2)%list
       = Ok s ->
     extract_session_stats minutes_between (l1 ++ l2)%list = Ok s' ->
     counts s = counts s') /\
  (truthy (default JNull (dict_get "timestamp" fields)) = false ->
     extract_session_stats minutes_between (l1 ++ Some (JObj fields) :: l2)%list
     = extract_session_stats minutes_between (l1 ++ l2)%list) /\
  (dict_get "message" fields = None ->
     extract_artifacts resolve (l1 ++ Some (JObj fields) :: l2)%list project_dir
       = extract_artifacts resolve (l1 ++ l2)%list project_dir /\
     detect_relationship_hints uuid_matches continuation_hits
         (l1 ++ Some (JObj fields) :: l2)%list
       = detect_relationship_hints uuid_matches continuation_hits (l1 ++ l2)%list /\
     generate_title_from_content (l1 ++ Some (JObj fields) :: l2)%list
       = generate_title_from_content (l1 ++ l2)%list).
Proof.
  intros Hty. pose proof (stats_loop_snapshot fields l1 l2 Hty) as Hloop.
  split; [done|]. split; [|split].
  - intros s s'. unfold extract_session_stats. intros H H'.
    inv_bind H. inv_bind H'.
    apply finish_stats_counts in H, H'. rewrite H, H'.
    by rewrite Ha, Ha0 in Hloop.
  - intros Hts. unfold extract_session_stats. f_equal.
    rewrite !for_each_app.
    destruct (for_each stats_line stats_init l1) as [a|]; simpl; [|done].
    destruct (stats_entry_snapshot a fields Hty) as (st' & Hst' & _ & Hsame).
    rewrite Hst'. simpl. by rewrite (Hsame Hts).
  - intros Hmsg. split; [|split].
    + unfold extract_artifacts. f_equal. apply for_each_skip.
      intros st. simpl. unfold scan_entry. simpl. by rewrite Hmsg.
    + unfold detect_relationship_hints. apply for_each_skip.
      intros h. simpl. unfold hints_entry. simpl. by rewrite Hty, Hmsg.
    + apply generate_title_skip. unfold title_entry. simpl.
      by rewrite Hty, Hmsg.
Qed.

Lemma snapshot_record_contribution_witness :
  dict_get "type" snapshot_fields = Some (JStr snapshot_marker) /\
  same_tally
    (for_each stats_line stats_init ([] ++ Some (JObj snapshot_fields) :: sample_scan)%list)
    (for_each stats_line stats_init ([] ++ sample_scan)%list) /\
  (forall s s',
     extract_session_stats minutes_same ([] ++ Some (JObj snapshot_fields) :: sample_scan)%list
       = Ok s ->
     extract_session_stats minutes_same ([] ++ sample_scan)%list = Ok s' ->
     counts s = counts s') /\
  (truthy (default JNull (dict_get "timestamp" snapshot_fields)) = false ->
     extract_session_stats minutes_same ([] ++ Some (JObj snapshot_fields) :: sample_scan)%list
     = extract_session_stats minutes_same ([] ++ sample_scan)%list) /\
  (dict_get "message" snapshot_fields = None ->
     extract_artifacts resolve_plain ([] ++ Some (JObj snapshot_fields) :: sample_scan)%list None
       = extract_artifacts resolve_plain ([] ++ sample_scan)%list None /\
     detect_relationship_hints finds_nothing finds_nothing
         ([] ++ Some (JObj snapshot_fields) :: sample_scan)%list
       = detect_relationship_hints finds_nothing finds_nothing ([] ++ sample_scan)%list /\
     generate_title_from_content ([] ++ Some (JObj snapshot_fields) :: sample_scan)%list
       = generate_title_from_content ([] ++ sample_scan)%list).
Proof.
  split; [reflexivity|].
  apply (snapshot_record_contribution minutes_same resolve_plain
           finds_nothing finds_nothing snapshot_fields [] sample_scan None).
  reflexivity.
Defined.

(** C4 fails for time stamps: a transcript that holds nothing but a snapshot
    record starts and ends at the stamp of that record, and an empty one has
    no start. *)
Lemma snapshot_timestamp_enters_session_bounds :
  started_at <$> extract_session_stats minutes_same
                   [Some (snapshot_record "2026-01-14T10:00:00.000Z")]
    = Ok (JStr "2026-01-14T10:00:00.000Z") /\
  ended_at <$> extract_session_stats minutes_same
                 [Some (snapshot_record "2026-01-14T10:00:00.000Z")]
    = Ok (JStr "2026-01-14T10:00:00.000Z") /\
  started_at <$> extract_session_stats minutes_same [] = Ok JNull.
Proof. repeat split; vm_compute; reflexivity. Qed.

(** ** The persisted stores *)

Lemma io_bind_eq {A B} (m : io A) (f : A -> io B) w :
  (m ≫= f) w = match m w with
               | (Ok a, w') => f a w'
               | (Raise e, w') => (Raise e, w')
               end.
Proof. reflexivity. Qed.

(** An unparseable catalog file is read as the empty catalog. *)
Lemma load_catalog_unparseable json_loads dir w text :
  path_exists (get_catalog_path dir) w = (Ok true, w) ->
  read_data (get_catalog_path dir) w = (Ok (Text text), w) ->
  json_loads text = None ->
  load_catalog json_loads dir w = (Ok (empty_catalog dir), w).
Proof.
  intros Hex Hrd Hbad. unfold load_catalog.
  rewrite io_bind_eq, Hex. rewrite io_bind_eq, Hrd. simpl. by rewrite Hbad.
Qed.

(** An unparseable manifest file makes [load_manifest] raise. *)
Lemma load_manifest_unparseable json_loads dir w text :
  path_exists (get_manifest_path dir) w = (Ok true, w) ->
  read_data (get_manifest_path dir) w = (Ok (Text text), w) ->
  json_loads text = None ->
  load_manifest json_loads dir w = (Raise JSONDecodeError, w).
Proof.
  intros Hex Hrd Hbad. unfold load_manifest.
  rewrite io_bind_eq, Hex. rewrite io_bind_eq, Hrd. unfold lift. simpl.
  by rewrite Hbad.
Qed.

(** C3 at an archive whose two store files hold the text [{not json]: the
    catalog is loaded as the empty catalog, and loading the manifest raises
    [JSONDecodeError]. *)
Theorem load_manifest_raises_on_unparseable_file :
  load_catalog (json_loads_only []) archive_root corrupt_world
    = (Ok (empty_catalog archive_root), corrupt_world) /\
  load_manifest (json_loads_only []) archive_root corrupt_world
    = (Raise JSONDecodeError, corrupt_world).
Proof.
  split.
  - apply (load_catalog_unparseable _ _ _ "{not json"); reflexivity.
  - apply (load_manifest_unparseable _ _ _ "{not json"); reflexivity.
Qed.

(** ** The archive run *)

Lemma path_exists_world p w : (path_exists p w).2 = w.
Proof. reflexivity. Qed.

Lemma read_data_world p w : (read_data p w).2 = w.
Proof.
  unfold read_data. by destruct (node_at _ _) as [[|?]|].
Qed.

Lemma is_there_eq w p : is_there w p -> path_exists p w = (Ok true, w).
Proof.
  unfold is_there. intros H. rewrite <- (path_exists_world p w) at 2.
  rewrite <- H. by destruct (path_exists p w).
Qed.

Lemma holds_eq w p d : holds w p d -> read_data p w = (Ok d, w).
Proof.
  unfold holds. intros H. rewrite <- (read_data_world p w) at 2.
  rewrite <- H. by destruct (read_data p w).
Qed.

Lemma read_text_eq json_dumps w p d :
  holds w p d -> read_text json_dumps p w = (Ok (text_of json_dumps d), w).
Proof.
  intros H%holds_eq. unfold read_text. rewrite io_bind_eq, H. by destruct d.
Qed.

Lemma stat_size_eq st_size w p d :
  holds w p d -> stat_size st_size p w = (Ok (st_size d), w).
Proof. intros H%holds_eq. unfold stat_size. by rewrite io_bind_eq, H. Qed.

(** C9: for a transcript that is there and not blank, a manifest that gives
    the session a directory, no force and no retitle flag, and a size marker
    in that directory that reads as the size of the transcript, [archive]
    returns [None] and the world (every file, both output streams) is as it
    was. *)
Theorem archive_unchanged_is_noop
    json_loads json_dumps st_size py_int get_project_dir_from_transcript
    archive_rest
    session_id transcript_path archive_dir provided_title quiet three_ps
    w data manifest project_dir dir marker :
  is_there w transcript_path ->
  holds w transcript_path data ->
  strip (text_of json_dumps data) <> "" ->
  load_manifest json_loads archive_dir w = (Ok manifest, w) ->
  get_project_dir_from_transcript transcript_path w = Ok project_dir ->
  get manifest session_id JNull = Ok (JStr dir) ->
  dir <> "" ->
  is_there w (Path.child (Path.of_str dir) ".last_size") ->
  holds w (Path.child (Path.of_str dir) ".last_size") marker ->
  py_int (text_of json_dumps marker) = Some (st_size data) ->
  archive json_loads json_dumps st_size py_int get_project_dir_from_transcript
    archive_rest session_id transcript_path archive_dir false false
    provided_title quiet three_ps w
  = (Ok None, w).
Proof.
  intros Hthere Hdata Hblank Hman Hproj Hget Hdir Hmark Hmdata Hint.
  apply is_there_eq in Hthere, Hmark.
  pose proof (read_text_eq json_dumps _ _ _ Hdata) as Htext.
  pose proof (stat_size_eq st_size _ _ _ Hdata) as Hsize.
  pose proof (read_text_eq json_dumps _ _ _ Hmdata) as Hmtext.
  unfold archive. rewrite io_bind_eq, Hthere. simpl.
  rewrite io_bind_eq, Htext.
  destruct (String.eqb_spec (strip (text_of json_dumps data)) ""); [done|].
  rewrite io_bind_eq, Hman. rewrite io_bind_eq, Hproj.
  rewrite io_bind_eq. unfold lift at 1. rewrite Hget.
  apply truthy_JStr in Hdir. rewrite Hdir. cbn [andb negb].
  rewrite io_bind_eq. unfold lift at 1. cbv beta iota.
  rewrite io_bind_eq, Hsize. rewrite io_bind_eq, Hmark.
  rewrite io_bind_eq, Hmtext. rewrite io_bind_eq. unfold lift. rewrite Hint.
  by rewrite Z.eqb_refl.
Qed.

Lemma archive_unchanged_is_noop_witness :
  is_there archived_world (Path.of_str "/t/s.jsonl") /\
  holds archived_world (Path.of_str "/t/s.jsonl") (Text "{}") /\
  strip (text_of dumps_unread (Text "{}")) <> "" /\
  load_manifest (json_loads_only []) archive_root archived_world
    = (Ok (JObj [("sid", JStr "/archive/2026-01-14-demo")]), archived_world) /\
  no_project (Path.of_str "/t/s.jsonl") archived_world = Ok None /\
  get (JObj [("sid", JStr "/archive/2026-01-14-demo")]) "sid" JNull
    = Ok (JStr "/archive/2026-01-14-demo") /\
  "/archive/2026-01-14-demo" <> "" /\
  is_there archived_world
    (Path.child (Path.of_str "/archive/2026-01-14-demo") ".last_size") /\
  holds archived_world
    (Path.child (Path.of_str "/archive/2026-01-14-demo") ".last_size")
    (Text "2") /\
  int_of_decimal (text_of dumps_unread (Text "2")) = Some (size_ascii (Text "{}")) /\
  archive (json_loads_only []) dumps_unread size_ascii int_of_decimal no_project
    rest_marks "sid" (Path.of_str "/t/s.jsonl") archive_root false false
    None true None archived_world
  = (Ok None, archived_world).
Proof.
  assert (is_there archived_world (Path.of_str "/t/s.jsonl")) as H1
    by reflexivity.
  assert (holds archived_world (Path.of_str "/t/s.jsonl") (Text "{}")) as H2
    by reflexivity.
  assert (strip (text_of dumps_unread (Text "{}")) <> "") as H3 by discriminate.
  assert (load_manifest (json_loads_only []) archive_root archived_world
          = (Ok (JObj [("sid", JStr "/archive/2026-01-14-demo")]), archived_world))
    as H4 by reflexivity.
  assert (no_project (Path.of_str "/t/s.jsonl") archived_world = Ok None) as H5
    by reflexivity.
  assert (get (JObj [("sid", JStr "/archive/2026-01-14-demo")]) "sid" JNull
          = Ok (JStr "/archive/2026-01-14-demo")) as H6 by reflexivity.
  assert ("/archive/2026-01-14-demo" <> "") as H7 by discriminate.
  assert (is_there archived_world
            (Path.child (Path.of_str "/archive/2026-01-14-demo") ".last_size"))
    as H8 by reflexivity.
  assert (holds archived_world
            (Path.child (Path.of_str "/archive/2026-01-14-demo") ".last_size")
            (Text "2")) as H9 by reflexivity.
  assert (int_of_decimal (text_of dumps_unread (Text "2"))
          = Some (size_ascii (Text "{}"))) as H10 by reflexivity.
  repeat (split; [assumption|]).
  exact (archive_unchanged_is_noop (json_loads_only []) dumps_unread size_ascii
           int_of_decimal no_project rest_marks "sid" (Path.of_str "/t/s.jsonl")
           archive_root None true None archived_world (Text "{}")
           (JObj [("sid", JStr "/archive/2026-01-14-demo")]) None
           "/archive/2026-01-14-demo" (Text "2") H1 H2 H3 H4 H5 H6 H7 H8 H9 H10).
Defined.

(** With the force flag the same run goes on past the test. *)
Example archive_forced_goes_on :
  files (archive (json_loads_only []) dumps_unread size_ascii int_of_decimal
           no_project rest_marks "sid" (Path.of_str "/t/s.jsonl") archive_root
           true false None true None archived_world).2
    !! ["archive"; "reached"]
  = Some (File (Text "")).
Proof. vm_compute. reflexivity. Qed.

(** ** The catalog *)

Lemma map_each_fmap {A B} (f : A -> result B) l ys :
  map_each f l = Ok ys -> f <$> l = Ok <$> ys.
Proof.
  revert ys. induction l as [|x l IH]; intros ys; simpl.
  - by intros [= <-].
  - intros H. inv_bind H. inv_bind H. injection H as <-.
    csimpl. by rewrite Ha, (IH _ Ha0).
Qed.

Lemma map_each_length {A B} (f : A -> result B) l ys :
  map_each f l = Ok ys -> length ys = length l.
Proof.
  intros H%map_each_fmap. apply (f_equal length) in H.
  by rewrite !length_fmap in H.
Qed.

Lemma insert_desc_perm x l r : insert_desc x l = Ok r -> r ≡ₚ x :: l.
Proof.
  revert r. induction l as [|y l IH]; intros r; simpl.
  - by intros [= <-].
  - intros H. inv_bind H. destruct a.
    + inv_bind H. injection H as <-. rewrite (IH _ Ha0). apply Permutation_swap.
    + by injection H as <-.
Qed.

Lemma sort_desc_perm l r : sort_desc l = Ok r -> r ≡ₚ l.
Proof.
  revert r. induction l as [|x l IH]; intros r; simpl.
  - by intros [= <-].
  - intros H. inv_bind H. apply insert_desc_perm in H. by rewrite H, (IH _ Ha).
Qed.

Lemma last_index_Some k ids : forall n j,
  last_index k ids n = Some j ->
  exists i, j = (n + i)%nat /\ ids !! i = Some k.
Proof.
  induction ids as [|k' ids IH]; intros n j; simpl; [done|].
  destruct (last_index k ids (S n)) as [j'|] eqn:E.
  - intros [= <-]. destruct (IH _ _ E) as (i & -> & Hi).
    exists (S i). split; [lia|done].
  - destruct (decide (k' = k)) as [->|]; [|done].
    intros [= <-]. exists 0%nat. split; [lia|done].
Qed.

Lemma last_index_None k ids n : last_index k ids n = None -> k ∉ ids.
Proof.
  revert n. induction ids as [|k' ids IH]; intros n; simpl.
  - intros _. apply not_elem_of_nil.
  - destruct (last_index k ids (S n)) eqn:E; [done|].
    destruct (decide (k' = k)); [done|]. intros _.
    apply not_elem_of_cons. split; [done|]. by eapply IH.
Qed.

Lemma Ok_inj_list {A} (k : A) (ids : list A) :
  k ∉ ids -> Ok k ∉ (Ok <$> ids : list (result A)).
Proof.
  intros H Hin. apply list_elem_of_fmap in Hin as (k' & [= <-] & Hk). done.
Qed.

(** Replacing or appending keeps the ids apart, and so does the sort; an
    entry whose id is there takes the place of the old one, any other entry
    makes the list one longer. *)
Lemma put_entry_unique fields entries entry c' :
  dict_get "sessions" fields = Some (JArr entries) ->
  Forall (fun s => is_Ok (entry_id s)) entries ->
  NoDup (entry_id <$> entries) ->
  put_entry (JObj fields) entry = Ok c' ->
  exists entries',
    c' = JObj (dict_set "sessions" (JArr entries') fields) /\
    Forall (fun s => is_Ok (entry_id s)) entries' /\
    NoDup (entry_id <$> entries') /\
    entry ∈ entries' /\
    length entries'
    = (if bool_decide (entry_id entry ∈ entry_id <$> entries)
       then length entries else S (length entries)) /\
    (forall s, s ∈ entries' -> s = entry \/ s ∈ entries).
Proof.
  intros Hs Hall Hnd. unfold put_entry. intros H.
  inv_bind H. rename a into sid, Ha into Hsid.
  simpl in H. rewrite Hs in H. simpl in H.
  inv_bind H. rename a into ids, Ha into Hids.
  inv_bind H. rename a into k, Ha into Hk.
  assert (entry_id entry = Ok k) as Hentry.
  { unfold entry_id. by rewrite Hsid. }
  inv_bind H. rename a into updated, Ha into Hup.
  inv_bind H. rename a into keys, Ha into Hkeys.
  inv_bind H. rename a into ordered, Ha into Hord.
  injection H as <-. exists (ordered.*2). split; [done|].
  apply sort_desc_perm in Hord.
  assert (ordered.*2 ≡ₚ updated) as Hperm.
  { rewrite Hord, snd_zip; [done|]. apply map_each_length in Hkeys. lia. }
  assert (Forall (fun s => is_Ok (entry_id s)) updated /\
          NoDup (entry_id <$> updated) /\
          entry ∈ updated /\
          length updated
          = (if bool_decide (entry_id entry ∈ entry_id <$> entries)
             then length entries else S (length entries)) /\
          (forall s, s ∈ updated -> s = entry \/ s ∈ entries))
    as (Hall' & Hnd' & Hin & Hlen & Hmem).
  { pose proof (map_each_fmap _ _ _ Hids) as Hfm.
    destruct (last_index k ids 0) as [i|] eqn:Ei.
    - injection Hup as <-.
      apply last_index_Some in Ei as (i' & -> & Hi). simpl.
      assert ((entry_id <$> entries) !! i' = Some (Ok k)) as Hlook
        by (by rewrite Hfm, list_lookup_fmap, Hi).
      split; [|split; [|split; [|split]]].
      + apply Forall_insert; [done|]. by exists k.
      + by rewrite list_fmap_insert, Hentry, list_insert_id.
      + eapply list_elem_of_lookup_2. apply list_lookup_insert_eq.
        apply lookup_lt_Some in Hlook. by rewrite length_fmap in Hlook.
      + rewrite length_insert, bool_decide_true; [done|].
        rewrite Hentry. by eapply list_elem_of_lookup_2.
      + intros s [j Hj]%list_elem_of_lookup_1.
        destruct (decide (i' = j)) as [->|Hne].
        * left. rewrite list_lookup_insert_eq in Hj; [congruence|].
          apply lookup_lt_Some in Hlook. by rewrite length_fmap in Hlook.
        * right. rewrite list_lookup_insert_ne in Hj by done.
          by eapply list_elem_of_lookup_2.
    - injection Hup as <-. apply last_index_None in Ei.
      assert (Ok k ∉ entry_id <$> entries) as Hnot
        by (rewrite Hfm; by apply Ok_inj_list).
      split; [|split; [|split; [|split]]].
      + apply Forall_app. split; [done|]. constructor; [by exists k|constructor].
      + rewrite fmap_app. simpl. rewrite Hentry.
        apply NoDup_app. split; [done|]. split; [|apply NoDup_singleton].
        by intros x Hx ->%list_elem_of_singleton.
      + apply elem_of_app. right. by apply list_elem_of_singleton.
      + rewrite length_app, bool_decide_false; [simpl; lia|].
        by rewrite Hentry.
      + intros s [Hs'| ->%list_elem_of_singleton]%elem_of_app; auto. }
  split; [by rewrite Hperm|]. split; [by rewrite Hperm|].
  split; [by rewrite Hperm|]. split; [by rewrite <- Hlen, Hperm|].
  intros s Hs'. apply Hmem. by rewrite <- Hperm.
Qed.

(** *** The file system under the catalog *)

Lemma collapse_snoc name parts : forall acc,
  name <> ".." ->
  Path.collapse acc (parts ++ [name]) = (Path.collapse acc parts ++ [name])%list.
Proof.
  induction parts as [|x parts IH]; intros acc Hne; simpl.
  - destruct (String.eqb_spec name ".."); [done|]. done.
  - destruct (String.eqb x ".."); by apply IH.
Qed.

Lemma locate_child w p name :
  name <> ".." -> locate w (Path.child p name) = (locate w p ++ [name])%list.
Proof.
  intros Hne. unfold locate, Path.resolve_nolinks, Path.child. simpl.
  destruct (String.eqb (Path.root p) ""); simpl.
  - by rewrite app_assoc, collapse_snoc.
  - by rewrite collapse_snoc.
Qed.

Lemma locate_set_files w fs p : locate (set_files w fs) p = locate w p.
Proof. reflexivity. Qed.

Lemma node_at_snoc fs key name :
  node_at fs (key ++ [name]) = fs !! (key ++ [name])%list.
Proof. by destruct key. Qed.

Lemma make_dirs_lookup key dirs : forall fs fs',
  make_dirs fs dirs = Ok fs' -> key ∉ dirs -> fs' !! key = fs !! key.
Proof.
  induction dirs as [|d dirs IH]; intros fs fs'; simpl.
  - by intros [= <-].
  - intros H Hnot. apply not_elem_of_cons in Hnot as [Hne Hnot].
    destruct (node_at fs d) as [[|?]|].
    + by apply IH.
    + by destruct dirs.
    + rewrite (IH _ _ H Hnot). by apply lookup_insert_ne.
Qed.

Lemma parents_of_length key d : d ∈ parents_of key -> (length d <= length key)%nat.
Proof.
  unfold parents_of. intros (n & -> & _)%list_elem_of_fmap.
  rewrite length_take. lia.
Qed.

Lemma mkdir_below p name w :
  (mkdir p w).2.(cwd) = cwd w /\
  (files (mkdir p w).2) !! (locate w p ++ [name])%list
    = files w !! (locate w p ++ [name])%list.
Proof.
  unfold mkdir.
  destruct (make_dirs _ _) as [fs|] eqn:E; simpl; [|done].
  split; [done|]. apply (make_dirs_lookup _ _ _ _ E).
  intros [Hin|Hin%list_elem_of_singleton]%elem_of_app.
  - apply parents_of_length in Hin. rewrite length_app in Hin. simpl in Hin. lia.
  - apply (f_equal length) in Hin. rewrite length_app in Hin. simpl in Hin. lia.
Qed.

Lemma write_data_cases p d w :
  (exists e, write_data p d w = (Raise e, w)) \/
  write_data p d w = (Ok (), set_files w (<[locate w p := File d]> (files w))).
Proof.
  unfold write_data. destruct (walk _ _); [|eauto].
  destruct (node_at _ _) as [[|?]|]; eauto.
Qed.

(** What [load_catalog] returns depends on the entry at the catalog path. *)
Lemma load_catalog_eq json_loads dir w :
  load_catalog json_loads dir w =
  (match node_at (files w) (locate w (get_catalog_path dir)) with
   | None => Ok (empty_catalog dir)
   | Some Dir => Raise IsADirectoryError
   | Some (File d) =>
       match loads json_loads d with
       | Ok v => Ok v
       | Raise JSONDecodeError => Ok (empty_catalog dir)
       | Raise e => Raise e
       end
   end, w).
Proof.
  unfold load_catalog. rewrite io_bind_eq. unfold path_exists, read_data.
  destruct (node_at _ _) as [[|d]|] eqn:E; simpl; try done.
  - rewrite io_bind_eq. by rewrite E.
  - rewrite io_bind_eq. rewrite E.
    by destruct (loads json_loads d) as [|[]].
Qed.

Lemma count_true_filter entries flags :
  map_each needs_review entries = Ok flags ->
  count_true flags
  = Z.of_nat (length (filter (fun s => needs_review s = Ok true) entries)).
Proof.
  unfold count_true. revert flags.
  induction entries as [|s entries IH]; intros flags; simpl.
  - by intros [= <-].
  - intros H. inv_bind H. inv_bind H. injection H as <-.
    specialize (IH _ Ha0). rewrite filter_cons.
    destruct (decide (needs_review s = Ok true)) as [Hd|Hd];
      rewrite Ha in Hd; destruct a; try done; simpl in *; lia.
Qed.


Lemma lift_eq {A} (r : result A) w : lift r w = (r, w).
Proof. reflexivity. Qed.

(** What [save_catalog] writes for a catalog whose sessions are a list. *)
Lemma save_catalog_eq dir fields entries now w :
  dict_get "sessions" fields = Some (JArr entries) ->
  save_catalog dir (JObj fields) now w =
  match map_each needs_review entries with
  | Raise e => (Raise e, w)
  | Ok flags =>
      (mkdir dir;;
       write_data (get_catalog_path dir)
         (Doc (JObj (dict_set "needs_review_count" (JNum (count_true flags))
                       (dict_set "total_sessions" (JNum (Z.of_nat (length entries)))
                          (dict_set "generated_at" (JStr now) fields)))))) w
  end.
Proof.
  intros Hs. unfold save_catalog.
  rewrite io_bind_eq, lift_eq. simpl setitem. cbv beta iota.
  rewrite io_bind_eq, lift_eq. simpl getitem.
  rewrite dict_get_set_ne, Hs by done. simpl.
  rewrite io_bind_eq, lift_eq. simpl.
  rewrite !dict_get_set_ne, Hs by done. simpl.
  destruct (map_each needs_review entries) as [flags|e]; simpl; [|done].
  by rewrite io_bind_eq.
Qed.

(** The catalog that a world shows is a matter of the entry at the catalog
    path. *)
Lemma load_catalog_same json_loads dir w w' :
  cwd w' = cwd w ->
  files w' !! (locate w (get_catalog_path dir))
    = files w !! (locate w (get_catalog_path dir)) ->
  (load_catalog json_loads dir w').1 = (load_catalog json_loads dir w).1.
Proof.
  intros Hcwd Hlook. rewrite !load_catalog_eq. simpl.
  assert (locate w' (get_catalog_path dir) = locate w (get_catalog_path dir)) as ->
    by (unfold locate; by rewrite Hcwd).
  unfold get_catalog_path in *.
  rewrite locate_child in * by done. rewrite !node_at_snoc.
  by rewrite Hlook.
Qed.

Lemma load_catalog_stored json_loads dir w c :
  files w !! (locate w (get_catalog_path dir)) = Some (File (Doc c)) ->
  (load_catalog json_loads dir w).1 = Ok c.
Proof.
  intros Hlook. rewrite load_catalog_eq. simpl.
  unfold get_catalog_path in *.
  rewrite locate_child in * by done. rewrite node_at_snoc.
  by rewrite Hlook.
Qed.

(** A call of [save_catalog] either raises and leaves the catalog file as it
    was, or returns with the stamped catalog in the file. *)
Lemma save_catalog_cases dir fields entries now w :
  dict_get "sessions" fields = Some (JArr entries) ->
  cwd (save_catalog dir (JObj fields) now w).2 = cwd w /\
  (((exists e, (save_catalog dir (JObj fields) now w).1 = Raise e) /\
    files (save_catalog dir (JObj fields) now w).2
      !! (locate w (get_catalog_path dir))
    = files w !! (locate w (get_catalog_path dir)))
   \/
   (exists flags,
      map_each needs_review entries = Ok flags /\
      (save_catalog dir (JObj fields) now w).1 = Ok () /\
      files (save_catalog dir (JObj fields) now w).2
        !! (locate w (get_catalog_path dir))
      = Some (File (Doc (JObj (stamped now entries flags fields)))))).
Proof.
  intros Hs. rewrite (save_catalog_eq _ _ entries) by done.
  destruct (map_each needs_review entries) as [flags|e] eqn:Hflags;
    [|split; [done|left; eauto]].
  rewrite io_bind_eq.
  destruct (mkdir_below dir "CATALOG.json" w) as [Hcwd Hlook].
  rewrite <- locate_child in Hlook by done.
  fold (get_catalog_path dir) in Hlook.
  destruct (mkdir dir w) as [[[]|e] w1] eqn:Emk; simpl in *;
    [|split; [done|left; eauto]].
  assert (locate w1 (get_catalog_path dir) = locate w (get_catalog_path dir))
    as Hloc by (unfold locate; by rewrite Hcwd).
  match goal with |- context [write_data ?p ?d w1] =>
    destruct (write_data_cases p d w1) as [[e ->]| ->] end; simpl.
  - split; [done|left; eauto].
  - split; [done|right]. exists flags. split; [done|]. split; [done|].
    rewrite Hloc. apply lookup_insert_eq.
Qed.

Lemma stamped_sound now entries flags fields :
  dict_get "sessions" fields = Some (JArr entries) ->
  map_each needs_review entries = Ok flags ->
  Forall (fun s => is_Ok (entry_id s)) entries ->
  NoDup (entry_id <$> entries) ->
  catalog_sound (JObj (stamped now entries flags fields)).
Proof.
  intros Hs Hflags Hall Hnd. eexists _, entries. split; [reflexivity|].
  unfold stamped.
  split. { rewrite !dict_get_set_ne by done. exact Hs. }
  split. { rewrite dict_get_set_ne by done. apply dict_get_set_eq. }
  split. { rewrite dict_get_set_eq. by rewrite (count_true_filter _ _ Hflags). }
  done.
Qed.

Lemma stamped_sessions now entries flags fields :
  dict_get "sessions" fields = Some (JArr entries) ->
  dict_get "sessions" (stamped now entries flags fields) = Some (JArr entries).
Proof. intros Hs. unfold stamped. by rewrite !dict_get_set_ne. Qed.

(** What one call of [update_catalog] does to a sound catalog [fields] with
    the entries [entries]: it raises and the catalog found afterwards is the
    same, or it returns and the catalog found afterwards is sound, holds the
    new entry, and has as many entries as before when the id was there and
    one more when it was not. *)
Lemma update_catalog_cases json_loads dir session_metadata now w fields entries :
  (load_catalog json_loads dir w).1 = Ok (JObj fields) ->
  dict_get "sessions" fields = Some (JArr entries) ->
  Forall (fun s => is_Ok (entry_id s)) entries ->
  NoDup (entry_id <$> entries) ->
  let r := update_catalog json_loads dir session_metadata now w in
  ((exists e, r.1 = Raise e) /\
   (load_catalog json_loads dir r.2).1 = Ok (JObj fields))
  \/
  (exists entry fields' entries',
     r.1 = Ok () /\
     new_entry session_metadata = Ok entry /\
     (load_catalog json_loads dir r.2).1 = Ok (JObj fields') /\
     catalog_sound (JObj fields') /\
     dict_get "sessions" fields' = Some (JArr entries') /\
     entry ∈ entries' /\
     length entries'
     = (if bool_decide (entry_id entry ∈ entry_id <$> entries)
        then length entries else S (length entries)) /\
     (forall s, s ∈ entries' -> s = entry \/ s ∈ entries)).
Proof.
  intros Hc Hs Hall Hnd r. subst r.
  unfold update_catalog. rewrite io_bind_eq.
  destruct (load_catalog json_loads dir w) as [c w0] eqn:Eload.
  pose proof Eload as Eload'. rewrite load_catalog_eq in Eload'.
  injection Eload' as _ <-. simpl in Hc. subst c.
  assert ((load_catalog json_loads dir w).1 = Ok (JObj fields)) as Hload
    by (by rewrite Eload).
  rewrite io_bind_eq, lift_eq.
  destruct (new_entry session_metadata) as [entry|e]; [|left; eauto].
  rewrite io_bind_eq, lift_eq.
  destruct (put_entry (JObj fields) entry) as [c'|e] eqn:Eput; [|left; eauto].
  destruct (put_entry_unique _ _ _ _ Hs Hall Hnd Eput)
    as (entries' & -> & Hall' & Hnd' & Hin & Hlen & Hmem).
  pose proof (dict_get_set_eq "sessions" (JArr entries') fields) as Hs'.
  destruct (save_catalog_cases dir _ entries' now w Hs')
    as [Hcwd [[[e He] Hlook]|(flags & Hflags & Hok & Hlook)]].
  - left. split; [eauto|].
    by rewrite (load_catalog_same _ _ w) by done.
  - right. exists entry, (stamped now entries' flags (dict_set "sessions" (JArr entries') fields)), entries'.
    split; [done|]. split; [done|].
    split.
    { apply load_catalog_stored.
      assert (locate (save_catalog dir (JObj (dict_set "sessions" (JArr entries') fields)) now w).2
                (get_catalog_path dir) = locate w (get_catalog_path dir)) as ->
        by (unfold locate; by rewrite Hcwd).
      done. }
    split; [by apply stamped_sound|].
    split; [by apply stamped_sessions|]. done.
Qed.

Lemma update_catalog_sound json_loads dir session_metadata now w :
  stored_sound json_loads dir w ->
  stored_sound json_loads dir (update_catalog json_loads dir session_metadata now w).2.
Proof.
  intros (c & Hc & Hsound).
  pose proof Hsound as (fields & entries & -> & Hs & _ & _ & Hall & Hnd).
  destruct (update_catalog_cases json_loads dir session_metadata now w
              fields entries Hc Hs Hall Hnd)
    as [[_ Hsame]|(entry & fields' & entries' & _ & _ & Hload & Hsound' & _)].
  - by exists (JObj fields).
  - by exists (JObj fields').
Qed.

(** *** Entries and the metadata they come from *)












(** The three calls leave two entries, the newer session first; the second
    call on [session-1] took the place of the first. *)
Example three_calls_catalog :
  (load_catalog (json_loads_only []) archive_root
     (update_catalog_all (json_loads_only []) archive_root three_calls
        corrupt_world)).1 ≫= catalog_summary
  = Ok (JNum 2, JNum 1,
        [ (JStr "session-2", JStr "Second");
          (JStr "session-1", JStr "Updated") ]).
Proof. vm_compute. reflexivity. Qed.

(** ** Cost *)

Lemma nearest_even_e4_nearest m e :
  0 <= nearest_even_e4 m e /\
  2 * Z.abs (Z.pos m * 10000 * 2 ^ Z.max e 0
             - nearest_even_e4 m e * 2 ^ Z.max (- e) 0)
  <= 2 ^ Z.max (- e) 0 /\
  (2 * Z.abs (Z.pos m * 10000 * 2 ^ Z.max e 0
              - nearest_even_e4 m e * 2 ^ Z.max (- e) 0)
   = 2 ^ Z.max (- e) 0 ->
   Z.even (nearest_even_e4 m e) = true).
Proof.
  unfold nearest_even_e4.
  destruct (Z.leb_spec 0 e) as [He|He].
  - rewrite (Z.max_l e 0), (Z.max_r (- e) 0) by lia.
    change (2 ^ 0) with 1. rewrite Z.mul_1_r.
    assert (0 < 2 ^ e) by (apply Z.pow_pos_nonneg; lia).
    split; [nia|]. rewrite Z.sub_diag. simpl. split; [lia|lia].
  - rewrite (Z.max_r e 0), (Z.max_l (- e) 0) by lia.
    change (2 ^ 0) with 1. rewrite Z.mul_1_r.
    set (num := Z.pos m * 10000). set (den := 2 ^ (- e)).
    assert (0 < den) as Hden by (apply Z.pow_pos_nonneg; lia).
    assert (0 <= num) as Hnum by (unfold num; lia).
    pose proof (Z.div_mod num den ltac:(lia)) as Hdm.
    pose proof (Z.mod_pos_bound num den Hden) as Hr.
    assert (0 <= num / den) as Hq by (apply Z.div_pos; lia).
    set (q := num / den) in *. set (r := num mod den) in *.
    destruct (Z.compare_spec (2 * r) den) as [Heq|Hlt|Hgt].
    + destruct (Z.even q) eqn:Eq.
      * split; [lia|]. split; [lia|done].
      * split; [lia|]. split; [lia|]. intros _.
        rewrite Z.even_add, Eq. done.
    + split; [lia|]. split; [lia|]. intros Htie. lia.
    + split; [lia|]. split; [lia|]. intros Htie. lia.
Qed.

(** C8: the cost is a function of the three token totals.  When each total
    divided by a million is a float, it is the sum of the three quotients,
    each multiplied by its rate (3.0, 15.0 and 0.30), rounded to four
    decimal places: the result of the rounding is the float of [k / 10^4]
    for the integer [k] nearest to the sum times [10^4] (the even one on a
    tie).  A million tokens of each kind cost 18.30 and no tokens cost 0.0;
    123456 input tokens cost 0.3704 (0.370368 before the rounding), one
    input token 0.0, and 167 cached tokens 0.0001; 2^63 input tokens cost
    27670116110564.33; a total whose quotient is beyond the floats raises
    [OverflowError]. *)
Theorem estimate_cost_is_rounded_sum :
  (forall t a b c,
     per_million (input t) = Ok a ->
     per_million (output t) = Ok b ->
     per_million (cache_read t) = Ok c ->
     estimate_cost t
     = Ok (round4 (a * 3.0 + b * 15.0 + c * 0x1.3333333333333p-2)%float)) /\
  (forall x s m e,
     Prim2SF x = S754_finite s m e ->
     exists k,
       round4 x = ten_thousandths s k /\
       0 <= k /\
       2 * Z.abs (Z.pos m * 10000 * 2 ^ Z.max e 0 - k * 2 ^ Z.max (- e) 0)
       <= 2 ^ Z.max (- e) 0 /\
       (2 * Z.abs (Z.pos m * 10000 * 2 ^ Z.max e 0 - k * 2 ^ Z.max (- e) 0)
        = 2 ^ Z.max (- e) 0 ->
        Z.even k = true)) /\
  estimate_cost {| input := 1000000; output := 1000000; cache_read := 1000000 |}
    = Ok (183 / 10)%float /\
  estimate_cost {| input := 0; output := 0; cache_read := 0 |} = Ok 0%float /\
  estimate_cost {| input := 123456; output := 0; cache_read := 0 |}
    = Ok 0x1.7b4a2339c0ebfp-2%float /\
  ten_thousandths false 3704 = 0x1.7b4a2339c0ebfp-2%float /\
  estimate_cost {| input := 1; output := 0; cache_read := 0 |} = Ok 0%float /\
  estimate_cost {| input := 0; output := 0; cache_read := 167 |}
    = Ok 0x1.a36e2eb1c432dp-14%float /\
  ten_thousandths false 1 = 0x1.a36e2eb1c432dp-14%float /\
  estimate_cost {| input := 1234567; output := 7654321; cache_read := 1111 |}
    = Ok 0x1.da13404ea4a8cp+6%float /\
  ten_thousandths false 1185188 = 0x1.da13404ea4a8cp+6%float /\
  estimate_cost {| input := 2 ^ 63; output := 0; cache_read := 0 |}
    = Ok 0x1.92a737110e454p+44%float /\
  round4 0x1p-5%float = ten_thousandths false 312 /\
  round4 0x1.8p-4%float = ten_thousandths false 938 /\
  estimate_cost {| input := 10 ^ 400; output := 0; cache_read := 0 |}
    = Raise OverflowError.
Proof.
  split.
  { intros t a b c Ha Hb Hc. unfold estimate_cost. by rewrite Ha, Hb, Hc. }
  split.
  { intros x s m e Hx. exists (nearest_even_e4 m e).
    split; [unfold round4; by rewrite Hx|]. apply nearest_even_e4_nearest. }
  repeat split; vm_compute; reflexivity.
Qed.

Lemma estimate_cost_is_rounded_sum_witness :
  per_million 123456 = Ok 0x1.f9acffa7eb6bfp-4%float /\
  per_million 0 = Ok 0%float /\
  Prim2SF 0x1.7b41bfbdf090fp-2%float
  = S754_finite false 6671956747159823 (-54) /\
  estimate_cost {| input := 123456; output := 0; cache_read := 0 |}
  = Ok (round4 (0x1.f9acffa7eb6bfp-4 * 3.0 + 0 * 15.0
                + 0 * 0x1.3333333333333p-2)%float) /\
  exists k,
    round4 0x1.7b41bfbdf090fp-2%float = ten_thousandths false k /\
    0 <= k /\
    2 * Z.abs (6671956747159823 * 10000 * 2 ^ Z.max (-54) 0
               - k * 2 ^ Z.max (- -54) 0)
    <= 2 ^ Z.max (- -54) 0 /\
    (2 * Z.abs (6671956747159823 * 10000 * 2 ^ Z.max (-54) 0
                - k * 2 ^ Z.max (- -54) 0)
     = 2 ^ Z.max (- -54) 0 ->
     Z.even k = true).
Proof.
  assert (per_million 123456 = Ok 0x1.f9acffa7eb6bfp-4%float) as H1
    by (vm_compute; reflexivity).
  assert (per_million 0 = Ok 0%float) as H2 by (vm_compute; reflexivity).
  assert (Prim2SF 0x1.7b41bfbdf090fp-2%float
          = S754_finite false 6671956747159823 (-54)) as H3
    by (vm_compute; reflexivity).
  split; [exact H1|]. split; [exact H2|]. split; [exact H3|]. split.
  - exact (proj1 estimate_cost_is_rounded_sum
             {| input := 123456; output := 0; cache_read := 0 |} _ _ _ H1 H2 H2).
  - exact (proj1 (proj2 estimate_cost_is_rounded_sum) _ _ _ _ H3).
Defined.

Example cache_price_is_three_tenths : CACHE_PRICE_PER_M = (3 / 10)%float.
Proof. vm_compute. reflexivity. Qed.

(** * More of [cli.py] *)

(** ** Text *)

Lemma all_chars_impl (P Q : ascii -> bool) s :
  (forall c, P c = true -> Q c = true) ->
  all_chars P s = true -> all_chars Q s = true.
Proof.
  intros HPQ. induction s as [|c s IH]; simpl; [done|].
  intros [Hc Hs]%andb_true_iff. rewrite (HPQ _ Hc). by apply IH.
Qed.

Lemma all_chars_keep_chars P s : all_chars P (keep_chars P s) = true.
Proof.
  induction s as [|c s IH]; simpl; [done|].
  destruct (P c) eqn:E; simpl; [by rewrite E|done].
Qed.

Lemma keep_chars_id P s : all_chars P s = true -> keep_chars P s = s.
Proof.
  induction s as [|c s IH]; simpl; [done|].
  intros [-> Hs]%andb_true_iff. by rewrite IH.
Qed.

Lemma keep_chars_length P s :
  (String.length (keep_chars P s) <= String.length s)%nat.
Proof.
  induction s as [|c s IH]; simpl; [done|]. destruct (P c); simpl; lia.
Qed.

Lemma all_chars_ltrim Q P s :
  all_chars Q s = true -> all_chars Q (ltrim P s) = true.
Proof.
  induction s as [|c s IH]; simpl; [done|].
  intros H. destruct (P c); [|done].
  apply andb_true_iff in H as [_ H]. by apply IH.
Qed.

Lemma all_chars_rtrim Q P s :
  all_chars Q s = true -> all_chars Q (rtrim P s) = true.
Proof.
  induction s as [|c s IH]; simpl; [done|].
  intros [Hc Hs]%andb_true_iff. specialize (IH Hs).
  destruct (rtrim P s) eqn:E.
  - destruct (P c); simpl; [done|]. by rewrite Hc.
  - simpl in *. by rewrite Hc, IH.
Qed.

Lemma all_chars_take Q n s :
  all_chars Q s = true -> all_chars Q (take_str n s) = true.
Proof.
  revert s. induction n as [|n IH]; intros [|c s]; simpl; try done.
  intros [-> Hs]%andb_true_iff. by apply IH.
Qed.


Lemma ltrim_length P s : (String.length (ltrim P s) <= String.length s)%nat.
Proof.
  induction s as [|c s IH]; simpl; [done|]. destruct (P c); simpl; lia.
Qed.

Lemma rtrim_length P s : (String.length (rtrim P s) <= String.length s)%nat.
Proof.
  induction s as [|c s IH]; simpl; [done|].
  destruct (rtrim P s); [destruct (P c)|]; simpl in *; lia.
Qed.

Lemma take_str_length n s : (String.length (take_str n s) <= n)%nat.
Proof.
  revert s. induction n as [|n IH]; intros [|c s]; simpl; try lia.
  specialize (IH s). lia.
Qed.

Lemma lower_length s : String.length (lower s) = String.length s.
Proof. induction s as [|c s IH]; simpl; [done|]. by rewrite IH. Qed.

Lemma first_char_ltrim P s c : first_char (ltrim P s) = Some c -> P c = false.
Proof.
  induction s as [|d s IH]; simpl; [done|].
  destruct (P d) eqn:E; [done|]. simpl. by intros [= <-].
Qed.

Lemma first_char_rtrim P s c :
  first_char (rtrim P s) = Some c -> first_char s = Some c.
Proof.
  destruct s as [|d s]; simpl; [done|].
  destruct (rtrim P s); [destruct (P d)|]; simpl; done.
Qed.

Lemma last_char_rtrim P s c : last_char (rtrim P s) = Some c -> P c = false.
Proof.
  induction s as [|d s IH]; simpl; [done|].
  destruct (rtrim P s) as [|e r] eqn:E.
  - destruct (P d) eqn:Hd; simpl; [done|]. by intros [= <-].
  - change (last_char (String d (String e r)))
      with (match last_char (String e r) with Some x => Some x | None => Some d end).
    destruct (last_char (String e r)) eqn:El; [|by simpl in El; destruct (last_char r)].
    intros [= <-]. by apply IH.
Qed.

Lemma ltrim_id P s :
  (forall c, first_char s = Some c -> P c = false) -> ltrim P s = s.
Proof. destruct s as [|c s]; simpl; [done|]. intros H. by rewrite (H c). Qed.

Lemma rtrim_id P s :
  (forall c, last_char s = Some c -> P c = false) -> rtrim P s = s.
Proof.
  induction s as [|d s IH]; simpl; [done|]. intros H.
  destruct (last_char s) as [x|] eqn:El.
  - rewrite IH by done. destruct s; [done|done].
  - destruct s; [|by simpl in El; destruct (last_char s)].
    simpl. by rewrite (H d).
Qed.

Lemma lstrip_ltrim s : lstrip s = ltrim isspace s.
Proof. induction s as [|c s IH]; simpl; [done|]. by rewrite IH. Qed.

Lemma rstrip_rtrim s : rstrip s = rtrim isspace s.
Proof. induction s as [|c s IH]; simpl; [done|]. by rewrite IH. Qed.

Lemma strip_trim s : strip s = rtrim isspace (ltrim isspace s).
Proof. unfold strip. by rewrite rstrip_rtrim, lstrip_ltrim. Qed.

(** A text trimmed at both ends has nothing left to trim. *)
Lemma trim_ends P s c :
  (first_char (rtrim P (ltrim P s)) = Some c -> P c = false) /\
  (last_char (rtrim P (ltrim P s)) = Some c -> P c = false).
Proof.
  split.
  - intros H%first_char_rtrim. by eapply first_char_ltrim.
  - apply last_char_rtrim.
Qed.

Lemma trim_trim P s :
  rtrim P (ltrim P (rtrim P (ltrim P s))) = rtrim P (ltrim P s).
Proof.
  rewrite (ltrim_id P (rtrim P (ltrim P s))).
  - apply rtrim_id. intros c. apply trim_ends.
  - intros c. apply trim_ends.
Qed.

Lemma strip_strip s : strip (strip s) = strip s.
Proof. rewrite !strip_trim. apply trim_trim. Qed.

Lemma strip_length s : (String.length (strip s) <= String.length s)%nat.
Proof.
  rewrite strip_trim.
  pose proof (rtrim_length isspace (ltrim isspace s)).
  pose proof (ltrim_length isspace s). lia.
Qed.

(** ** File names *)




(** ** Text for the PDF *)

Lemma keeps_for_pdf_class c :
  keeps_for_pdf c = true <->
  ((code c = 9 \/ code c = 10 \/ code c = 13 \/ 32 <= code c) /\
   code c <> 127 /\ ~ (128 <= code c <= 159))%N.
Proof.
  unfold keeps_for_pdf.
  rewrite !andb_true_iff, !orb_true_iff, !negb_true_iff, !N.eqb_eq, N.leb_le.
  rewrite andb_false_iff, N.eqb_neq, !N.leb_nle. lia.
Qed.

(** X2: [sanitize_for_pdf] keeps, in their order, the characters that are
    a tab (9), a line feed (10), a carriage return (13) or have a code from
    32 on, except DEL (127) and the codes 128 to 159, and drops every other
    character; so a text of such characters only is returned as it is, and
    applying the function again changes nothing.  The text [a], NUL, [b],
    DEL, tab, [c], U+0085, [d], ESC, [e] becomes [ab], tab, [cde]. *)
Theorem sanitize_for_pdf_clean text :
  list_ascii_of_string (sanitize_for_pdf text)
  = filter (fun c => (code c = 9 \/ code c = 10 \/ code c = 13 \/ 32 <= code c)
                     /\ code c <> 127 /\ ~ (128 <= code c <= 159))%N
      (list_ascii_of_string text) /\
  (Forall (fun c => (code c = 9 \/ code c = 10 \/ code c = 13 \/ 32 <= code c)
                    /\ code c <> 127 /\ ~ (128 <= code c <= 159))%N
     (list_ascii_of_string text) ->
   sanitize_for_pdf text = text) /\
  (String.length (sanitize_for_pdf text) <= String.length text)%nat /\
  sanitize_for_pdf (sanitize_for_pdf text) = sanitize_for_pdf text /\
  sanitize_for_pdf
    (String "a" (String "000" (String "b" (String "127" (String "009"
       (String "c" (String "133" (String "d" (String "027" "e")))))))))
  = String "a" (String "b" (String "009" "cde")).
Proof.
  assert (forall t, sanitize_for_pdf t = keep_chars keeps_for_pdf t) as Heq.
  { intros t. unfold sanitize_for_pdf. by destruct (String.eqb_spec t "") as [->|]. }
  rewrite !Heq. split; [|split; [|split; [|split]]].
  - induction text as [|c text IH]; simpl; [done|].
    rewrite filter_cons.
    destruct (keeps_for_pdf c) eqn:E.
    + rewrite decide_True by (by apply keeps_for_pdf_class). simpl. by rewrite IH.
    + rewrite decide_False; [done|]. rewrite <- keeps_for_pdf_class. congruence.
  - intros Hall. apply keep_chars_id.
    induction text as [|c text IH]; simpl; [done|].
    apply Forall_cons in Hall as [Hc Hall].
    apply keeps_for_pdf_class in Hc. rewrite Hc. by apply IH.
  - apply keep_chars_length.
  - apply keep_chars_id, all_chars_keep_chars.
  - reflexivity.
Qed.

(** ** The shape of a title *)

Lemma all_chars_first_sentence s :
  all_chars (fun c => negb (is_terminator c)) (first_sentence s) = true.
Proof.
  induction s as [|c s IH]; simpl; [done|].
  destruct (is_terminator c) eqn:E; simpl; [done|]. by rewrite E.
Qed.

Lemma clean_title_shape text :
  clean_title text <> "" /\
  (String.length (clean_title text) <= 60)%nat /\
  strip (clean_title text) = clean_title text /\
  all_chars (fun c => negb (is_terminator c)) (clean_title text) = true.
Proof.
  unfold clean_title.
  set (cut := take_str 60 (first_sentence (remove_greeting greetings (strip text)))).
  destruct (String.eqb_spec (strip cut) "") as [E|E].
  { split; [done|]. split; [simpl; lia|]. split; reflexivity. }
  split; [done|]. split; [|split].
  - pose proof (strip_length cut). pose proof (take_str_length 60
      (first_sentence (remove_greeting greetings (strip text)))).
    fold cut in H0. lia.
  - apply strip_strip.
  - rewrite strip_trim. apply all_chars_rtrim, all_chars_ltrim, all_chars_take.
    apply all_chars_first_sentence.
Qed.

Lemma title_entry_clean entry title :
  title_entry entry = Ok (Some title) -> exists text, title = clean_title text.
Proof.
  unfold title_entry. intros H.
  inv_bind H. inv_bind H. inv_bind H.
  destruct (_ || _); [|done]. inv_bind H.
  match type of H with
  | match ?c with _ => _ end = _ => destruct c as [[| | |text| |]|]; try done
  end.
  destruct (String.eqb _ _); [done|].
  destruct (_is_ide_context_message _); [done|].
  injection H as <-. by exists text.
Qed.

(** X3: whatever the transcript, a title that [generate_title_from_content]
    returns is not empty, has 60 characters at most, has no white space at
    either end and holds none of [.], [!], [?] and the line feed. *)
Theorem generate_title_shape content title :
  generate_title_from_content content = Ok title ->
  title <> "" /\
  (String.length title <= 60)%nat /\
  strip title = title /\
  all_chars (fun c => negb (is_terminator c)) title = true.
Proof.
  induction content as [|[entry|] rest IH]; simpl.
  - intros [= <-]. split; [done|]. split; [simpl; lia|]. split; reflexivity.
  - destruct (title_entry entry) as [[t|]|e] eqn:E; simpl; [|done|done].
    intros [= <-]. destruct (title_entry_clean _ _ E) as [text ->].
    apply clean_title_shape.
  - done.
Qed.

Lemma generate_title_shape_witness :
  generate_title_from_content
    [None; Some (user_says "Please   refactor the parser. Then run the tests")]
  = Ok "refactor the parser" /\
  "refactor the parser" <> "" /\
  (String.length "refactor the parser" <= 60)%nat /\
  strip "refactor the parser" = "refactor the parser" /\
  all_chars (fun c => negb (is_terminator c)) "refactor the parser" = true.
Proof.
  assert (generate_title_from_content
            [None; Some (user_says "Please   refactor the parser. Then run the tests")]
          = Ok "refactor the parser") as H by reflexivity.
  split; [exact H|].
  exact (generate_title_shape _ _ H).
Defined.

(** ** File types *)

Lemma lookup_str_In {A} key (l : list (string * A)) v :
  lookup_str key l = Some v -> In v (snd <$> l).
Proof.
  induction l as [|[k x] l IH]; simpl; [done|].
  destruct (String.eqb k key); [intros [= <-]; by left | auto].
Qed.

(** X4: [get_file_type] answers with one of six kinds, whatever the path. *)
Theorem get_file_type_kinds file_path :
  In (get_file_type file_path)
     ["code"; "document"; "data"; "config"; "image"; "other"].
Proof.
  unfold get_file_type.
  destruct (lookup_str _ FILE_TYPE_MAPPINGS) as [v|] eqn:E; simpl.
  - apply lookup_str_In in E. simpl in E.
    repeat (destruct E as [<-|E]; [simpl; tauto|]). done.
  - tauto.
Qed.

Lemma lower_char_slash c : Ascii.eqb (lower_char c) "/" = Ascii.eqb c "/".
Proof. by destruct c as [[] [] [] [] [] [] [] []]. Qed.

Lemma lower_char_dot c : Ascii.eqb (lower_char c) "." = Ascii.eqb c ".".
Proof. by destruct c as [[] [] [] [] [] [] [] []]. Qed.

Lemma lower_char_lower_char c : lower_char (lower_char c) = lower_char c.
Proof. by destruct c as [[] [] [] [] [] [] [] []]. Qed.

Lemma lower_lower s : lower (lower s) = lower s.
Proof.
  induction s as [|c s IH]; simpl; [done|].
  by rewrite lower_char_lower_char, IH.
Qed.

Lemma split_on_lower s :
  Path.split_on "/" (lower s) = lower <$> Path.split_on "/" s.
Proof.
  induction s as [|c s IH]; simpl; [done|].
  rewrite lower_char_slash. destruct (Ascii.eqb c "/"); csimpl; [by rewrite IH|].
  rewrite IH. by destruct (Path.split_on "/" s).
Qed.

Lemma keep_part_lower x : Path.keep_part (lower x) = Path.keep_part x.
Proof.
  unfold Path.keep_part. destruct x as [|c [|d x]]; simpl; try done.
  - pose proof (lower_char_dot c) as H.
    destruct (Ascii.eqb_spec (lower_char c) "."), (Ascii.eqb_spec c ".");
      try done.
  - by destruct (Ascii.eqb (lower_char c) "."), (Ascii.eqb c ".").
Qed.

Lemma filter_keep_part_lower l :
  List.filter Path.keep_part (lower <$> l)
  = lower <$> List.filter Path.keep_part l.
Proof.
  induction l as [|x l IH]; csimpl; [done|].
  rewrite keep_part_lower. destruct (Path.keep_part x); csimpl; by rewrite IH.
Qed.

Lemma splitroot_lower s :
  Path.splitroot (lower s)
  = ((Path.splitroot s).1, lower (Path.splitroot s).2).
Proof.
  destruct s as [|c s]; [done|].
  destruct c as [[] [] [] [] [] [] [] []]; try reflexivity.
  destruct s as [|d s]; [done|].
  destruct d as [[] [] [] [] [] [] [] []]; try reflexivity.
  destruct s as [|e s]; [done|].
  destruct e as [[] [] [] [] [] [] [] []]; reflexivity.
Qed.

Lemma of_str_lower s :
  Path.tail (Path.of_str (lower s)) = lower <$> Path.tail (Path.of_str s).
Proof.
  unfold Path.of_str. rewrite splitroot_lower.
  destruct (Path.splitroot s) as [r rel]. simpl.
  by rewrite split_on_lower, filter_keep_part_lower.
Qed.

Lemma last_lower l : List.last (lower <$> l) "" = lower (List.last l "").
Proof.
  induction l as [|x [|y l] IH]; done.
Qed.

Lemma rfind_lower s i : Path.rfind "." (lower s) i = Path.rfind "." s i.
Proof.
  revert i. induction s as [|c s IH]; intros i; simpl; [done|].
  by rewrite IH, lower_char_dot.
Qed.

Lemma drop_str_lower n s : Path.drop_str n (lower s) = lower (Path.drop_str n s).
Proof. revert s. induction n as [|n IH]; intros [|c s]; simpl; auto. Qed.

Lemma suffix_lower s :
  Path.suffix (Path.of_str (lower s)) = lower (Path.suffix (Path.of_str s)).
Proof.
  unfold Path.suffix, Path.name. rewrite of_str_lower, last_lower.
  rewrite rfind_lower, lower_length.
  destruct (Path.rfind _ _ _) as [i|]; [|done].
  destruct (_ && _); [apply drop_str_lower | done].
Qed.

(** X5: the letter case of a path does not change its type: the path in
    lower case has the type of the path as given. *)
Theorem get_file_type_ignores_case file_path :
  get_file_type (lower file_path) = get_file_type file_path.
Proof.
  unfold get_file_type. by rewrite suffix_lower, lower_lower.
Qed.

(** ** Session statistics *)

Lemma for_each_invariant {S A} (P : S -> Prop) (body : S -> A -> result S) l :
  (forall s x s', P s -> body s x = Ok s' -> P s') ->
  forall st st', P st -> for_each body st l = Ok st' -> P st'.
Proof.
  intros Hbody. induction l as [|x l IH]; intros st st' Hst H; simpl in H.
  - by injection H as <-.
  - inv_bind H. eauto.
Qed.

Lemma sum_counts_bump k d : sum_counts (bump k d) = sum_counts d + 1.
Proof.
  induction d as [|[k' n] d IH]; simpl; [done|].
  destruct (decide (k' = k)).
  - change (n + 1 + sum_counts d = n + sum_counts d + 1). lia.
  - change (n + sum_counts (bump k d) = n + sum_counts d + 1). lia.
Qed.

Lemma elem_of_bump_keys k k' d :
  k' ∈ (bump k d).*1 <-> k' = k \/ k' ∈ d.*1.
Proof.
  induction d as [|[k0 n] d IH]; csimpl.
  - set_solver.
  - destruct (decide (k0 = k)) as [->|Hne]; csimpl; set_solver.
Qed.

Lemma NoDup_bump_keys k d : NoDup (d.*1) -> NoDup ((bump k d).*1).
Proof.
  induction d as [|[k0 n] d IH]; csimpl.
  - intros _. apply NoDup_singleton.
  - intros [Hk Hd]%NoDup_cons.
    destruct (decide (k0 = k)) as [->|Hne]; csimpl.
    + by apply NoDup_cons.
    + apply NoDup_cons. split; [|auto].
      rewrite elem_of_bump_keys. naive_solver.
Qed.

Lemma Forall_bump k d :
  Forall (fun kv : hkey * Z => 1 <= kv.2) d ->
  Forall (fun kv : hkey * Z => 1 <= kv.2) (bump k d).
Proof.
  induction 1 as [|[k0 n] d Hn Hd IH]; simpl.
  - repeat constructor. simpl. lia.
  - destruct (decide (k0 = k)); constructor; simpl in *; auto; lia.
Qed.

Lemma count_block_well c block c' :
  counted_well c -> count_block c block = Ok c' -> counted_well c'.
Proof.
  intros (H1 & H2 & H3 & H4) H. unfold count_block in H.
  destruct block; try (injection H as <-; by repeat split).
  inv_bind H. destruct (eq_str a "thinking").
  { injection H as <-. repeat split; simpl; auto; lia. }
  destruct (eq_str a "tool_use"); [|injection H as <-; by repeat split].
  inv_bind H. inv_bind H. injection H as <-.
  repeat split; simpl; auto.
  - rewrite sum_counts_bump. lia.
  - by apply NoDup_bump_keys.
  - by apply Forall_bump.
Qed.

Lemma stats_entry_tallied st entry st' :
  tallied st -> stats_entry st entry = Ok st' -> tallied st'.
Proof.
  intros (H1 & H2 & H3 & H4) H. unfold stats_entry in H.
  apply bind_Ok in H as (ts & _ & H).
  apply bind_Ok in H as (ty & _ & H).
  destruct (eq_str ty snapshot_marker).
  { injection H as <-. unfold tallied. simpl. done. }
  apply bind_Ok in H as (message & _ & H).
  apply bind_Ok in H as (role & _ & H). cbv zeta in H.
  apply bind_Ok in H as ([[th cn] md] & Hc & H).
  apply bind_Ok in H as (version & _ & H).
  apply bind_Ok in H as (usage & _ & H).
  apply bind_Ok in H as (tk & _ & H).
  injection H as <-.
  destruct (eq_str role "user" || eq_str ty "user").
  { injection Hc as <- <- <-. unfold tallied. simpl.
    split; [lia|]. split; [lia|]. split; [lia|done]. }
  simpl. destruct (eq_str role "assistant" || eq_str ty "assistant").
  - apply bind_Ok in Hc as (msg_content & _ & Hc).
    apply bind_Ok in Hc as (c & Hloop & Hc).
    apply bind_Ok in Hc as (m & _ & Hc).
    injection Hc as <- <- <-.
    unfold tallied. simpl. split; [done|]. split; [done|]. split; [lia|].
    assert (counted_well c) as Hwell.
    { destruct msg_content; try (injection Hloop as <-; done).
      revert Hloop. apply for_each_invariant; [|done].
      intros s x s'. apply count_block_well. }
    by destruct c.
  - injection Hc as <- <- <-. unfold tallied. simpl. done.
Qed.

Lemma stats_init_tallied : tallied stats_init.
Proof.
  repeat split; simpl; try lia; constructor.
Qed.

(** X6: in the statistics of a transcript [turns] equals [human_messages],
    the total of the tool calls is the sum of the counts by tool, every tool
    listed was called at least once, no tool is listed twice, and no counter
    is negative. *)
Theorem extract_session_stats_tallies minutes_between content s :
  extract_session_stats minutes_between content = Ok s ->
  turns (counts s) = human_messages (counts s) /\
  0 <= human_messages (counts s) /\
  0 <= assistant_messages (counts s) /\
  0 <= thinking_blocks (counts s) /\
  total (tool_calls (counts s)) = sum_counts (by_type (tool_calls (counts s))) /\
  NoDup ((by_type (tool_calls (counts s))).*1) /\
  Forall (fun kv : hkey * Z => 1 <= kv.2) (by_type (tool_calls (counts s))).
Proof.
  unfold extract_session_stats. intros H. inv_bind H.
  assert (tallied a) as (H1 & H2 & H3 & H4 & H5 & H6 & H7).
  { revert Ha. apply for_each_invariant; [|apply stats_init_tallied].
    intros st [entry|] st'; simpl; [apply stats_entry_tallied|].
    by intros ? [= <-]. }
  assert (counts s = untimed a) as ->.
  { unfold finish_stats in H. destruct (timestamps a).
    - by injection H as <-.
    - inv_bind H. inv_bind H. destruct a0; try done. destruct a1; try done.
      by injection H as <-. }
  simpl in *. done.
Qed.

Lemma extract_session_stats_tallies_witness :
  extract_session_stats minutes_same sample_session = Ok sample_stats /\
  turns (counts sample_stats) = human_messages (counts sample_stats) /\
  0 <= human_messages (counts sample_stats) /\
  0 <= assistant_messages (counts sample_stats) /\
  0 <= thinking_blocks (counts sample_stats) /\
  total (tool_calls (counts sample_stats))
    = sum_counts (by_type (tool_calls (counts sample_stats))) /\
  NoDup ((by_type (tool_calls (counts sample_stats))).*1) /\
  Forall (fun kv : hkey * Z => 1 <= kv.2)
    (by_type (tool_calls (counts sample_stats))).
Proof.
  assert (extract_session_stats minutes_same sample_session = Ok sample_stats)
    as H by (vm_compute; reflexivity).
  split; [exact H|].
  exact (extract_session_stats_tallies minutes_same sample_session sample_stats H).
Defined.

(** *** The bounds of a session *)

Lemma str_ltb_le a b : str_ltb a b = true -> str_le a b.
Proof. unfold str_ltb, str_le, str_leb. by destruct (str_compare a b). Qed.

Lemma str_ltb_ge a b : str_ltb a b = false -> str_le b a.
Proof.
  unfold str_ltb, str_le, str_leb. rewrite (str_compare_antisym a b).
  by destruct (str_compare a b).
Qed.

Lemma py_lt_str_r x t b :
  py_lt x (JStr t) = Ok b -> exists s, x = JStr s /\ b = str_ltb s t.
Proof. destruct x; simpl; try done. intros [= <-]. eauto. Qed.

Lemma py_lt_str_l s y b :
  py_lt (JStr s) y = Ok b -> exists t, y = JStr t /\ b = str_ltb s t.
Proof. destruct y; simpl; try done. intros [= <-]. eauto. Qed.

Lemma py_min_least t rest a :
  py_min t rest = Ok (JStr a) ->
  JStr a ∈ t :: rest /\
  Forall (fun ts => exists s, ts = JStr s /\ str_le a s) (t :: rest).
Proof.
  unfold py_min. revert t. induction rest as [|y rest IH]; intros t H; simpl in H.
  - injection H as ->. split; [set_solver|].
    repeat constructor. exists a. split; [done|]. unfold str_le, str_leb.
    by rewrite str_compare_refl.
  - apply bind_Ok in H as (m & Hm & H).
    apply bind_Ok in Hm as (b & Hb & Hm). injection Hm as <-.
    destruct (IH _ H) as (Hin & Hall).
    apply Forall_cons in Hall as ((m0 & Hm0 & Hle) & Hall).
    destruct b.
    + subst y. apply py_lt_str_l in Hb as (t0 & -> & Hlt).
      split; [set_solver|].
      constructor; [|constructor; [eauto|done]].
      exists t0. split; [done|]. etrans; [done|]. by apply str_ltb_le.
    + subst t. apply py_lt_str_r in Hb as (y0 & -> & Hlt).
      split; [set_solver|].
      constructor; [eauto|]. constructor; [|done].
      exists y0. split; [done|]. etrans; [done|]. by apply str_ltb_ge.
Qed.

Lemma py_max_greatest t rest a :
  py_max t rest = Ok (JStr a) ->
  JStr a ∈ t :: rest /\
  Forall (fun ts => exists s, ts = JStr s /\ str_le s a) (t :: rest).
Proof.
  unfold py_max. revert t. induction rest as [|y rest IH]; intros t H; simpl in H.
  - injection H as ->. split; [set_solver|].
    repeat constructor. exists a. split; [done|]. unfold str_le, str_leb.
    by rewrite str_compare_refl.
  - apply bind_Ok in H as (m & Hm & H).
    apply bind_Ok in Hm as (b & Hb & Hm). injection Hm as <-.
    destruct (IH _ H) as (Hin & Hall).
    apply Forall_cons in Hall as ((m0 & Hm0 & Hle) & Hall).
    destruct b.
    + subst y. apply py_lt_str_r in Hb as (t0 & -> & Hlt).
      split; [set_solver|].
      constructor; [|constructor; [eauto|done]].
      exists t0. split; [done|]. etrans; [|done]. by apply str_ltb_le.
    + subst t. apply py_lt_str_l in Hb as (y0 & -> & Hlt).
      split; [set_solver|].
      constructor; [eauto|]. constructor; [|done].
      exists y0. split; [done|]. etrans; [|done]. by apply str_ltb_ge.
Qed.

Lemma stats_entry_timestamps st entry st' :
  stats_entry st entry = Ok st' ->
  timestamps st' = (timestamps st ++ option_list (stamp_of (Some entry)))%list.
Proof.
  intros H. unfold stats_entry in H.
  apply bind_Ok in H as (ts & Hts & H).
  assert (timestamps st' = if truthy ts then (timestamps st ++ [ts])%list
                           else timestamps st) as ->.
  { apply bind_Ok in H as (ty & _ & H).
    destruct (eq_str ty snapshot_marker); [by injection H as <-|].
    apply bind_Ok in H as (message & _ & H).
    apply bind_Ok in H as (role & _ & H). cbv zeta in H.
    apply bind_Ok in H as ([[th cn] md] & _ & H).
    apply bind_Ok in H as (version & _ & H).
    apply bind_Ok in H as (usage & _ & H).
    apply bind_Ok in H as (tk & _ & H).
    by injection H as <-. }
  destruct entry as [| | | | |fields]; try done. simpl in Hts.
  injection Hts as <-. simpl.
  destruct (dict_get "timestamp" fields) as [ts|]; simpl.
  - destruct (truthy ts); simpl; [done|]. by rewrite app_nil_r.
  - by rewrite app_nil_r.
Qed.

Lemma stats_loop_timestamps content st st' :
  for_each stats_line st content = Ok st' ->
  timestamps st' = (timestamps st ++ stamps content)%list.
Proof.
  revert st. induction content as [|line content IH]; intros st H; simpl in H.
  - injection H as <-. unfold stamps. simpl. by rewrite app_nil_r.
  - apply bind_Ok in H as (st1 & H1 & H). rewrite (IH _ H).
    destruct line as [entry|]; simpl in H1.
    + rewrite (stats_entry_timestamps _ _ _ H1), <- app_assoc. f_equal.
      unfold stamps.
      change (omap stamp_of (Some entry :: content))
        with (match stamp_of (Some entry) with
              | Some y => y :: omap stamp_of content
              | None => omap stamp_of content
              end).
      by destruct (stamp_of (Some entry)).
    + by injection H1 as <-.
Qed.

(** X7: when the statistics are returned, [started_at] is the least and
    [ended_at] the greatest of the truthy time stamps of the records, all of
    which are then text; both are [None], and the duration is 0, when no
    record has one. *)
Theorem extract_session_stats_bounds minutes_between content s :
  extract_session_stats minutes_between content = Ok s ->
  (stamps content = [] ->
     started_at s = JNull /\ ended_at s = JNull /\ duration_minutes s = 0) /\
  (stamps content <> [] ->
     exists a b,
       started_at s = JStr a /\ ended_at s = JStr b /\
       JStr a ∈ stamps content /\ JStr b ∈ stamps content /\
       forall ts, ts ∈ stamps content ->
         exists t, ts = JStr t /\ str_le a t /\ str_le t b).
Proof.
  unfold extract_session_stats. intros H.
  apply bind_Ok in H as (st & Hloop & H).
  apply stats_loop_timestamps in Hloop. simpl in Hloop.
  unfold finish_stats in H. rewrite Hloop in H.
  destruct (stamps content) as [|t rest].
  - injection H as <-. split; [done|]. by intros [].
  - split; [done|]. intros _.
    apply bind_Ok in H as (lo & Hlo & H).
    apply bind_Ok in H as (hi & Hhi & H).
    destruct lo as [| | |a| |]; try done. destruct hi as [| | |b| |]; try done.
    injection H as <-. simpl.
    apply py_min_least in Hlo as (Hain & Hlo).
    apply py_max_greatest in Hhi as (Hbin & Hhi).
    exists a, b. do 4 (split; [done|]).
    intros ts Hts. rewrite Forall_forall in Hlo, Hhi.
    destruct (Hlo _ Hts) as (t1 & -> & H1).
    destruct (Hhi _ Hts) as (t2 & [= <-] & H2). eauto.
Qed.

Lemma extract_session_stats_bounds_witness :
  extract_session_stats minutes_same sample_session = Ok sample_stats /\
  (stamps sample_session = [] ->
     started_at sample_stats = JNull /\ ended_at sample_stats = JNull /\
     duration_minutes sample_stats = 0) /\
  (stamps sample_session <> [] ->
     exists a b,
       started_at sample_stats = JStr a /\ ended_at sample_stats = JStr b /\
       JStr a ∈ stamps sample_session /\ JStr b ∈ stamps sample_session /\
       forall ts, ts ∈ stamps sample_session ->
         exists t, ts = JStr t /\ str_le a t /\ str_le t b).
Proof.
  assert (extract_session_stats minutes_same sample_session = Ok sample_stats)
    as H by (vm_compute; reflexivity).
  split; [exact H|].
  exact (extract_session_stats_bounds minutes_same sample_session sample_stats H).
Defined.

(** ** Relationship hints *)

Lemma note_uuid_sound h u : hints_sound h -> hints_sound (note_uuid h u).
Proof.
  intros (H1 & H2 & H3 & H4). unfold note_uuid.
  destruct (bool_decide_reflect (u ∈ references_hints h)) as [Hin|Hin].
  { done. }
  unfold hints_sound. simpl. split; [done|]. split; [|split].
  - apply NoDup_app. split; [done|]. split; [|apply NoDup_singleton].
    set_solver.
  - intros x Hx. specialize (H3 x). set_solver.
  - rewrite !length_app. simpl. lia.
Qed.

Lemma note_pattern_sound h p : hints_sound h -> hints_sound (note_pattern h p).
Proof.
  intros (H1 & H2 & H3 & H4). unfold hints_sound, note_pattern. simpl.
  split; [done|]. split; [done|]. split.
  - intros u Hu. specialize (H3 u). set_solver.
  - rewrite length_app. simpl. lia.
Qed.

Lemma foldl_sound {A} (f : hints -> A -> hints) l h :
  (forall h x, hints_sound h -> hints_sound (f h x)) ->
  hints_sound h -> hints_sound (foldl f h l).
Proof. intros Hf. revert h. induction l as [|x l IH]; simpl; auto. Qed.

Lemma hints_entry_sound uuid_matches continuation_hits h entry h' :
  hints_sound h ->
  hints_entry uuid_matches continuation_hits h entry = Ok h' ->
  hints_sound h'.
Proof.
  intros Hh H. unfold hints_entry in H.
  apply bind_Ok in H as (ty & _ & H).
  apply bind_Ok in H as (message & _ & H).
  apply bind_Ok in H as (role & _ & H).
  destruct (_ && _); [by injection H as <-|].
  apply bind_Ok in H as (msg_content & _ & H).
  apply bind_Ok in H as ([s|] & _ & H); injection H as <-; [|done].
  apply foldl_sound; [apply note_pattern_sound|].
  apply foldl_sound; [apply note_uuid_sound|done].
Qed.

(** X8: the hints that [detect_relationship_hints] returns never name a
    session continued ([continues_hint] is [None]), list no session id
    twice, hold a note for every session id listed, and so hold at least as
    many notes as ids. *)
Theorem detect_relationship_hints_sound uuid_matches continuation_hits content h :
  detect_relationship_hints uuid_matches continuation_hits content = Ok h ->
  continues_hint h = JNull /\
  NoDup (references_hints h) /\
  (forall u, u ∈ references_hints h ->
     "Found session ID reference: " ++ u ∈ detection_notes h) /\
  (length (references_hints h) <= length (detection_notes h))%nat.
Proof.
  unfold detect_relationship_hints.
  apply (for_each_invariant hints_sound).
  - intros s [entry|] s'; simpl.
    + apply hints_entry_sound.
    + by intros ? [= <-].
  - unfold hints_sound. simpl. split; [done|]. split; [constructor|].
    split; [|lia]. intros u Hu. by apply elem_of_nil in Hu.
Qed.

Lemma detect_relationship_hints_sound_witness :
  detect_relationship_hints finds_sample_twice finds_nothing names_a_session
    = Ok sample_hints /\
  continues_hint sample_hints = JNull /\
  NoDup (references_hints sample_hints) /\
  (forall u, u ∈ references_hints sample_hints ->
     "Found session ID reference: " ++ u ∈ detection_notes sample_hints) /\
  (length (references_hints sample_hints)
   <= length (detection_notes sample_hints))%nat.
Proof.
  assert (detect_relationship_hints finds_sample_twice finds_nothing
            names_a_session = Ok sample_hints) as H by (vm_compute; reflexivity).
  split; [exact H|].
  exact (detect_relationship_hints_sound finds_sample_twice finds_nothing
           names_a_session sample_hints H).
Defined.

(** ** What [archive] does before it writes *)

Lemma log_error_eq message quiet w :
  log_error message quiet w = (Ok (), complained quiet message w).
Proof. unfold log_error, complained. by destruct quiet. Qed.

Lemma read_text_reads json_dumps p w :
  exists r, read_text json_dumps p w = (r, w).
Proof.
  unfold read_text. rewrite io_bind_eq.
  pose proof (read_data_world p w) as Hw.
  destruct (read_data p w) as [[d|e] w']; simpl in Hw; subst w'; eauto.
Qed.

Lemma stat_size_reads st_size p w : exists r, stat_size st_size p w = (r, w).
Proof.
  unfold stat_size. rewrite io_bind_eq.
  pose proof (read_data_world p w) as Hw.
  destruct (read_data p w) as [[d|e] w']; simpl in Hw; subst w'; eauto.
Qed.

Lemma load_manifest_reads json_loads dir w :
  exists r, load_manifest json_loads dir w = (r, w).
Proof.
  unfold load_manifest. rewrite io_bind_eq. unfold path_exists.
  destruct (bool_decide _); [|eauto].
  rewrite io_bind_eq.
  pose proof (read_data_world (get_manifest_path dir) w) as Hw.
  destruct (read_data _ w) as [[d|e] w']; simpl in Hw; subst w'; eauto.
Qed.

Lemma same_files_refl w : same_files w w.
Proof. by repeat split. Qed.

Lemma same_files_complained quiet line w : same_files w (complained quiet line w).
Proof. unfold complained. destruct quiet; by repeat split. Qed.

(** X9: without a transcript at the path, [archive] returns [None]; it
    changes no file, and writes one line to stderr unless told to be
    quiet. *)
Theorem archive_without_transcript
    json_loads json_dumps st_size py_int get_project_dir_from_transcript
    archive_rest
    session_id transcript_path archive_dir force force_retitle provided_title
    quiet three_ps w :
  is_missing w transcript_path ->
  archive json_loads json_dumps st_size py_int get_project_dir_from_transcript
    archive_rest session_id transcript_path archive_dir force force_retitle
    provided_title quiet three_ps w
  = (Ok None,
     complained quiet
       ("Transcript not found: " ++ Path.to_str transcript_path) w).
Proof.
  unfold is_missing, path_exists. simpl. intros [= Hmiss].
  unfold archive. rewrite io_bind_eq. unfold path_exists. rewrite Hmiss.
  cbn [negb]. cbv iota. rewrite io_bind_eq, log_error_eq. reflexivity.
Qed.

Lemma archive_without_transcript_witness :
  is_missing bare_world (Path.of_str "/t/s.jsonl") /\
  archive (json_loads_only []) dumps_unread size_ascii int_of_decimal
    no_project rest_marks "sid" (Path.of_str "/t/s.jsonl") archive_root
    false false None false None bare_world
  = (Ok None,
     complained false
       ("Transcript not found: " ++ Path.to_str (Path.of_str "/t/s.jsonl"))
       bare_world).
Proof.
  assert (is_missing bare_world (Path.of_str "/t/s.jsonl")) as H
    by (vm_compute; reflexivity).
  split; [exact H|].
  exact (archive_without_transcript (json_loads_only []) dumps_unread size_ascii
           int_of_decimal no_project rest_marks "sid" (Path.of_str "/t/s.jsonl")
           archive_root false false None false None bare_world H).
Defined.

(** X10: for a transcript that holds white space only, [archive] returns
    [None]; it changes no file, and writes one line to stderr unless told to
    be quiet. *)
Theorem archive_blank_transcript
    json_loads json_dumps st_size py_int get_project_dir_from_transcript
    archive_rest
    session_id transcript_path archive_dir force force_retitle provided_title
    quiet three_ps w data :
  is_there w transcript_path ->
  holds w transcript_path data ->
  strip (text_of json_dumps data) = "" ->
  archive json_loads json_dumps st_size py_int get_project_dir_from_transcript
    archive_rest session_id transcript_path archive_dir force force_retitle
    provided_title quiet three_ps w
  = (Ok None,
     complained quiet
       ("Transcript is empty: " ++ Path.to_str transcript_path) w).
Proof.
  intros Hthere%is_there_eq Hdata Hblank.
  pose proof (read_text_eq json_dumps _ _ _ Hdata) as Htext.
  unfold archive. rewrite io_bind_eq, Hthere. cbn [negb]. cbv iota.
  rewrite io_bind_eq, Htext, Hblank, String.eqb_refl.
  rewrite io_bind_eq, log_error_eq. reflexivity.
Qed.

Lemma archive_blank_transcript_witness :
  is_there blank_world (Path.of_str "/t/s.jsonl") /\
  holds blank_world (Path.of_str "/t/s.jsonl") (Text "   ") /\
  strip (text_of dumps_unread (Text "   ")) = "" /\
  archive (json_loads_only []) dumps_unread size_ascii int_of_decimal
    no_project rest_marks "sid" (Path.of_str "/t/s.jsonl") archive_root
    true false None true None blank_world
  = (Ok None,
     complained true
       ("Transcript is empty: " ++ Path.to_str (Path.of_str "/t/s.jsonl"))
       blank_world).
Proof.
  assert (is_there blank_world (Path.of_str "/t/s.jsonl")) as H1
    by (vm_compute; reflexivity).
  assert (holds blank_world (Path.of_str "/t/s.jsonl") (Text "   ")) as H2 by (vm_compute; reflexivity).
  assert (strip (text_of dumps_unread (Text "   ")) = "") as H3 by reflexivity.
  split; [exact H1|]. split; [exact H2|]. split; [exact H3|].
  exact (archive_blank_transcript (json_loads_only []) dumps_unread size_ascii
           int_of_decimal no_project rest_marks "sid" (Path.of_str "/t/s.jsonl")
           archive_root true false None true None blank_world (Text "   ") H1 H2 H3).
Defined.

Ltac archive_stops :=
  match goal with
  | Hr : ?r = _ |- _ =>
      subst r; right; simpl; split; [eauto | apply same_files_refl]
  end.

(** X11: up to the point where the title is made, [archive] only reads:
    either it hands over to the rest of the run in the world it was given
    (with the flags, the session and the archive directory it was called
    with, and with no directory chosen when a flag forces the run), or it
    ends there, by [None] or by an exception, and every file, the current
    directory and stdout are as they were. *)
Theorem archive_reads_before_it_writes
    json_loads json_dumps st_size py_int get_project_dir_from_transcript
    archive_rest
    sid transcript archive_to forced retitled provided_title
    silent three_ps w :
  let r := archive json_loads json_dumps st_size py_int
             get_project_dir_from_transcript archive_rest sid transcript
             archive_to forced retitled provided_title silent three_ps w in
  (exists st,
     r = archive_rest st w /\
     session_id st = sid /\ transcript_path st = transcript /\
     archive_dir st = archive_to /\
     force st = forced /\ force_retitle st = retitled /\
     (forced || retitled = true -> output_dir st = None)) \/
  ((r.1 = Ok None \/ exists e, r.1 = Raise e) /\ same_files w r.2).
Proof.
  intros r. pose proof (eq_refl r) as Hr. unfold r at 2 in Hr. clearbody r.
  unfold archive in Hr.
  rewrite io_bind_eq in Hr. unfold path_exists at 1 in Hr.
  destruct (bool_decide _); cbn [negb] in Hr; cbv iota in Hr.
  2:{ rewrite io_bind_eq, log_error_eq in Hr. subst r. right. simpl.
      split; [by left|apply same_files_complained]. }
  rewrite io_bind_eq in Hr.
  destruct (read_text_reads json_dumps transcript w) as [[text|e] Hrd];
    rewrite Hrd in Hr; [|archive_stops].
  destruct (String.eqb (strip text) "").
  { rewrite io_bind_eq, log_error_eq in Hr. subst r. right. simpl.
    split; [by left|apply same_files_complained]. }
  rewrite io_bind_eq in Hr.
  destruct (load_manifest_reads json_loads archive_to w) as [[manifest|e] Hman];
    rewrite Hman in Hr; [|archive_stops].
  rewrite io_bind_eq in Hr.
  destruct (get_project_dir_from_transcript transcript w) as [project|e];
    [|archive_stops].
  rewrite io_bind_eq, lift_eq in Hr.
  destruct (get manifest sid JNull) as [existing|e]; [|archive_stops].
  destruct (truthy existing && negb retitled && negb forced) eqn:Egate.
  2:{ left. eexists. split; [exact Hr|]. by repeat split. }
  assert (forced || retitled = false) as Hflags
    by (destruct forced, retitled, (truthy existing); done).
  rewrite Hflags.
  rewrite io_bind_eq, lift_eq in Hr.
  destruct existing as [| | |dir| |]; try archive_stops.
  rewrite io_bind_eq in Hr.
  destruct (stat_size_reads st_size transcript w) as [[size|e] Hsz];
    rewrite Hsz in Hr; [|archive_stops].
  rewrite io_bind_eq in Hr. unfold path_exists at 1 in Hr.
  destruct (bool_decide _).
  2:{ left. eexists. split; [exact Hr|]. by repeat split. }
  rewrite io_bind_eq in Hr.
  destruct (read_text_reads json_dumps
              (Path.child (Path.of_str dir) ".last_size") w) as [[marker|e] Hmk];
    rewrite Hmk in Hr; [|archive_stops].
  rewrite io_bind_eq, lift_eq in Hr.
  destruct (py_int marker) as [n|]; [|archive_stops].
  destruct (size =? n)%Z.
  - subst r. right. split; [by left|apply same_files_refl].
  - left. eexists. split; [exact Hr|]. by repeat split.
Qed.

(** ** The order of the catalog *)

Lemma insert_desc_text x r0 r :
  insert_desc x r0 = Ok r ->
  Forall text_key r0 -> StronglySorted not_behind r0 ->
  (r0 = [] -> text_key x) ->
  Forall text_key r /\ StronglySorted not_behind r.
Proof.
  revert r. induction r0 as [|y r0 IH]; intros r H Htext Hsorted Hx; simpl in H.
  - injection H as <-. split; [|repeat constructor].
    constructor; [by apply Hx|constructor].
  - apply bind_Ok in H as (b & Hb & H).
    apply Forall_cons in Htext as [[ky Hky] Htext].
    apply StronglySorted_inv in Hsorted as [Hsorted Hy].
    rewrite Hky in Hb. apply py_lt_str_r in Hb as (kx & Hkx & ->).
    destruct (str_ltb kx ky) eqn:Hlt.
    + apply bind_Ok in H as (r' & Hr' & H). injection H as <-.
      destruct (IH _ Hr' Htext Hsorted) as [Htext' Hsorted'].
      { intros _. by exists kx. }
      split; [constructor; [by exists ky|done]|].
      constructor; [done|].
      apply insert_desc_perm in Hr'. rewrite Hr'. constructor; [|done].
      intros a b Ha Hb'. rewrite Hky in Ha. rewrite Hkx in Hb'.
      injection Ha as <-. injection Hb' as <-. by apply str_ltb_le.
    + injection H as <-.
      split; [constructor; [by exists kx|constructor; [by exists ky|done]]|].
      constructor; [by constructor|].
      constructor.
      * intros a b Ha Hb'. rewrite Hkx in Ha. rewrite Hky in Hb'.
        injection Ha as <-. injection Hb' as <-. by apply str_ltb_ge.
      * rewrite Forall_forall in Hy, Htext. apply Forall_forall.
        intros z Hz a b Ha Hb'. rewrite Hkx in Ha. injection Ha as <-.
        etrans; [exact (Hy z Hz ky b Hky Hb')|]. by apply str_ltb_ge.
Qed.

Lemma sort_desc_text l r :
  sort_desc l = Ok r ->
  Exists text_key l ->
  Forall text_key r /\ StronglySorted not_behind r.
Proof.
  revert r. induction l as [|x l IH]; intros r H Hex; simpl in H.
  - by apply Exists_nil in Hex.
  - apply bind_Ok in H as (r0 & Hr0 & H).
    assert (r0 <> [] -> Exists text_key l) as Hrest.
    { intros Hne. apply Exists_cons in Hex as [[kx Hkx]|Hex]; [|done].
      destruct r0 as [|y r0]; [done|]. simpl in H.
      apply bind_Ok in H as (b & Hb & _).
      rewrite Hkx in Hb. apply py_lt_str_l in Hb as (ky & Hky & _).
      apply sort_desc_perm in Hr0. rewrite <- Hr0.
      apply Exists_cons. left. by exists ky. }
    destruct r0 as [|y r0].
    + apply (insert_desc_text x [] r H); [constructor|constructor|].
      intros _. apply Exists_cons in Hex as [Hx|Hex]; [done|].
      apply sort_desc_perm in Hr0. apply Permutation_nil_l in Hr0. subst l.
      by apply Exists_nil in Hex.
    + destruct (IH _ Hr0) as [Htext Hsorted]; [by apply Hrest|].
      by apply (insert_desc_text x (y :: r0) r H).
Qed.

Lemma text_keys_sorted r :
  Forall text_key r -> StronglySorted not_behind r ->
  exists ks, r.*1 = JStr <$> ks /\ Sorted (fun a b => str_le b a) ks.
Proof.
  induction r as [|p r IH]; intros Htext Hsorted.
  - exists []. split; [done|constructor].
  - apply Forall_cons in Htext as [[k Hk] Htext].
    apply StronglySorted_inv in Hsorted as [Hsorted Hp].
    destruct (IH Htext Hsorted) as (ks & Hks & Hs).
    exists (k :: ks). split; [csimpl; by rewrite Hk, Hks|].
    constructor; [done|].
    destruct r as [|q r]; destruct ks as [|k' ks]; try done; constructor.
    apply Forall_cons in Hp as [Hpq _]. injection Hks as Hq _.
    by apply (Hpq k k').
Qed.

Lemma map_each_zip {A B} (f : A -> result B) l ys :
  map_each f l = Ok ys -> Forall (fun p => f p.2 = Ok p.1) (zip ys l).
Proof.
  revert ys. induction l as [|x l IH]; intros ys H; simpl in H.
  - injection H as <-. constructor.
  - apply bind_Ok in H as (y & Hy & H). apply bind_Ok in H as (ys' & Hys & H).
    injection H as <-. simpl. constructor; [done|auto].
Qed.

Lemma map_each_pairs {A B} (f : A -> result B) (l : list (B * A)) :
  Forall (fun p => f p.2 = Ok p.1) l -> map_each f (l.*2) = Ok (l.*1).
Proof.
  induction 1 as [|[y x] l Hp _ IH]; csimpl; [done|].
  simpl in Hp. by rewrite Hp, IH.
Qed.

Lemma elem_of_zip_r {A B} (ys : list B) (l : list A) x :
  length ys = length l -> x ∈ l -> exists y, (y, x) ∈ zip ys l.
Proof.
  revert ys. induction l as [|x' l IH]; intros [|y ys] Hlen Hin; try done.
  - by apply elem_of_nil in Hin.
  - apply elem_of_cons in Hin as [->|Hin].
    + exists y. simpl. apply elem_of_cons. by left.
    + destruct (IH ys) as [y' Hy']; [simpl in Hlen; lia|done|].
      exists y'. simpl. apply elem_of_cons. by right.
Qed.

(** X12: when the entry put into the catalog has a text for its start (or
    none: the key is then the empty text) and the call returns, the start
    of every entry of the catalog is such a text, and the entries are in
    order of their start, the latest first. *)
Theorem put_entry_newest_first catalog entry c' s :
  put_entry catalog entry = Ok c' ->
  sort_key entry = Ok (JStr s) ->
  exists entries ks,
    getitem c' "sessions" = Ok (JArr entries) /\
    entry ∈ entries /\
    map_each sort_key entries = Ok (JStr <$> ks) /\
    Sorted (fun a b => str_le b a) ks.
Proof.
  unfold put_entry. intros H Hkey.
  apply bind_Ok in H as (sid & Hsid & H).
  apply bind_Ok in H as (sessions & Hsessions & H).
  apply bind_Ok in H as (items & Hitems & H).
  apply bind_Ok in H as (ids & Hids & H).
  apply bind_Ok in H as (k & Hk & H).
  apply bind_Ok in H as (updated & Hup & H).
  apply bind_Ok in H as (keys & Hkeys & H).
  apply bind_Ok in H as (ordered & Hord & H).
  destruct catalog as [| | | | |fields]; try done. injection H as <-.
  assert (entry ∈ updated) as Hin.
  { destruct sessions as [| | | |l|]; try by destruct (last_index k ids 0).
    simpl in Hitems. injection Hitems as <-.
    destruct (last_index k ids 0) as [i|] eqn:Ei; injection Hup as <-.
    - apply last_index_Some in Ei as (i' & -> & Hi). simpl.
      eapply list_elem_of_lookup_2. apply list_lookup_insert_eq.
      apply lookup_lt_Some in Hi. apply map_each_length in Hids. lia.
    - apply elem_of_app. right. by apply list_elem_of_singleton. }
  pose proof (map_each_length _ _ _ Hkeys) as Hlen.
  pose proof (map_each_zip _ _ _ Hkeys) as Hzip.
  pose proof (sort_desc_perm _ _ Hord) as Hperm.
  destruct (elem_of_zip_r keys updated entry Hlen Hin) as [ke Hke].
  assert (ke = JStr s) as ->.
  { rewrite Forall_forall in Hzip. specialize (Hzip _ Hke). simpl in Hzip.
    congruence. }
  destruct (sort_desc_text _ _ Hord) as [Htext Hsorted].
  { apply Exists_exists. exists (JStr s, entry). split; [done|]. by exists s. }
  destruct (text_keys_sorted _ Htext Hsorted) as (ks & Hks & Hs).
  exists (ordered.*2), ks. split; [|split; [|split]].
  - simpl. by rewrite dict_get_set_eq.
  - assert (ordered.*2 ≡ₚ updated) as ->; [|done].
    rewrite Hperm, snd_zip; [done|lia].
  - rewrite <- Hks. apply map_each_pairs. by rewrite Hperm.
  - done.
Qed.

Lemma put_entry_newest_first_witness :
  put_entry catalog_of_one later_entry = Ok catalog_of_two /\
  sort_key later_entry = Ok (JStr "2026-01-15T09:00:00Z") /\
  exists entries ks,
    getitem catalog_of_two "sessions" = Ok (JArr entries) /\
    later_entry ∈ entries /\
    map_each sort_key entries = Ok (JStr <$> ks) /\
    Sorted (fun a b => str_le b a) ks.
Proof.
  assert (put_entry catalog_of_one later_entry = Ok catalog_of_two) as H1
    by (vm_compute; reflexivity).
  assert (sort_key later_entry = Ok (JStr "2026-01-15T09:00:00Z")) as H2
    by reflexivity.
  split; [exact H1|]. split; [exact H2|].
  exact (put_entry_newest_first catalog_of_one later_entry catalog_of_two
           "2026-01-15T09:00:00Z" H1 H2).
Defined.

(** ** What the two stores write *)

Lemma writes_only_refl key w : writes_only key w w.
Proof. by repeat split. Qed.

Lemma writes_only_trans key w1 w2 w3 :
  writes_only key w1 w2 -> writes_only key w2 w3 -> writes_only key w1 w3.
Proof.
  intros (H1 & H2 & H3 & H4) (G1 & G2 & G3 & G4).
  split; [congruence|]. split; [congruence|]. split; [congruence|]. auto.
Qed.

Lemma node_at_None fs d : node_at fs d = None -> fs !! d = None.
Proof. by destruct d. Qed.

Lemma make_dirs_keeps dirs : forall fs fs' k n,
  make_dirs fs dirs = Ok fs' -> fs !! k = Some n -> fs' !! k = Some n.
Proof.
  induction dirs as [|d dirs IH]; intros fs fs' k n; simpl.
  - by intros [= <-].
  - destruct (node_at fs d) as [[|?]|] eqn:E.
    + apply IH.
    + by destruct dirs.
    + intros H Hk. apply (IH _ _ _ _ H).
      apply node_at_None in E.
      rewrite lookup_insert_ne; [done|]. intros ->. congruence.
Qed.

Lemma make_dirs_made dirs : forall fs fs' d,
  make_dirs fs dirs = Ok fs' -> d ∈ dirs -> node_at fs' d = Some Dir.
Proof.
  induction dirs as [|d0 dirs IH]; intros fs fs' d; simpl.
  - intros _ Hin. by apply elem_of_nil in Hin.
  - intros H [->|Hin]%elem_of_cons.
    + destruct d0 as [|x d0]; [done|].
      destruct (node_at fs (x :: d0)) as [[|?]|] eqn:E.
      * simpl in E. simpl. by apply (make_dirs_keeps _ _ _ _ _ H).
      * by destruct dirs.
      * simpl. apply (make_dirs_keeps _ _ _ _ _ H), lookup_insert_eq.
    + destruct (node_at fs d0) as [[|?]|]; eauto. by destruct dirs.
Qed.

Lemma mkdir_writes_only key p w : writes_only key w (mkdir p w).2.
Proof.
  unfold mkdir. destruct (make_dirs _ _) as [fs|e] eqn:E; simpl.
  - unfold writes_only. simpl. do 3 (split; [done|]).
    intros k n _. by apply (make_dirs_keeps _ _ _ _ _ E).
  - apply writes_only_refl.
Qed.

Lemma mkdir_made p w w' :
  mkdir p w = (Ok (), w') -> node_at (files w') (locate w p) = Some Dir.
Proof.
  unfold mkdir. destruct (make_dirs _ _) as [fs|e] eqn:E; [|done].
  intros [= <-]. simpl. apply (make_dirs_made _ _ _ _ E).
  apply elem_of_app. right. by apply list_elem_of_singleton.
Qed.

Lemma write_data_writes_only p d w :
  writes_only (locate w p) w (write_data p d w).2.
Proof.
  destruct (write_data_cases p d w) as [[e ->]| ->]; simpl.
  - apply writes_only_refl.
  - unfold writes_only. simpl. do 3 (split; [done|]).
    intros k n Hk Hn. by rewrite lookup_insert_ne.
Qed.

Lemma store_writes_only dir name d w :
  name <> ".." ->
  writes_only (locate w dir ++ [name])%list w
    ((mkdir dir;; write_data (Path.child dir name) d) w).2.
Proof.
  intros Hname. rewrite io_bind_eq.
  pose proof (mkdir_writes_only (locate w dir ++ [name])%list dir w) as Hmk.
  destruct (mkdir dir w) as [[[]|e] w1]; simpl in *; [|done].
  eapply writes_only_trans; [exact Hmk|].
  assert (locate w dir ++ [name] = locate w1 (Path.child dir name))%list as ->.
  { rewrite locate_child by done. unfold locate.
    destruct Hmk as (-> & _). done. }
  apply write_data_writes_only.
Qed.

(** X13: whatever [save_manifest] does, it leaves every entry of the file
    system other than the manifest file as it was (it makes directories
    that are missing, at most), and prints nothing.  When it returns, the
    archive directory is there, and [load_manifest] then gives back the
    manifest that was saved. *)
Theorem save_manifest_then_load json_loads dir manifest w :
  let r := save_manifest dir manifest w in
  writes_only (locate w (get_manifest_path dir)) w r.2 /\
  (r.1 = Ok () ->
   node_at (files r.2) (locate w dir) = Some Dir /\
   load_manifest json_loads dir r.2 = (Ok manifest, r.2)).
Proof.
  intros r. subst r. unfold save_manifest, get_manifest_path.
  split.
  { rewrite locate_child by done. by apply store_writes_only. }
  rewrite io_bind_eq.
  pose proof (mkdir_writes_only [] dir w) as (Hcwd & _).
  destruct (mkdir dir w) as [[[]|e] w1] eqn:Emk; [|done].
  simpl in Hcwd. apply mkdir_made in Emk.
  match goal with |- context [write_data ?p ?d w1] =>
    destruct (write_data_cases p d w1) as [[e ->]| ->] end; [done|].
  intros _. simpl.
  assert (locate w1 (Path.child dir ".session_manifest.json")
          = locate w dir ++ [".session_manifest.json"])%list as Hloc.
  { rewrite locate_child by done. unfold locate. by rewrite Hcwd. }
  split.
  - destruct (locate w dir) as [|x l] eqn:El; [done|]. simpl.
    rewrite Hloc, lookup_insert_ne; [exact Emk|].
    intros H. apply (f_equal length) in H. rewrite length_app in H.
    simpl in H. lia.
  - unfold load_manifest, get_manifest_path. rewrite io_bind_eq.
    unfold path_exists, read_data. simpl. rewrite locate_set_files, Hloc.
    rewrite node_at_snoc, lookup_insert_eq.
    rewrite bool_decide_true by eauto.
    rewrite io_bind_eq. simpl. rewrite locate_set_files, Hloc.
    by rewrite node_at_snoc, lookup_insert_eq.
Qed.

Lemma save_manifest_then_load_witness :
  (save_manifest archive_root sample_manifest bare_world).1 = Ok () /\
  node_at (files (save_manifest archive_root sample_manifest bare_world).2)
    (locate bare_world archive_root) = Some Dir /\
  load_manifest (json_loads_only []) archive_root
    (save_manifest archive_root sample_manifest bare_world).2
  = (Ok sample_manifest, (save_manifest archive_root sample_manifest bare_world).2).
Proof.
  assert ((save_manifest archive_root sample_manifest bare_world).1 = Ok ())
    as H by (vm_compute; reflexivity).
  split; [exact H|].
  exact (proj2 (save_manifest_then_load (json_loads_only []) archive_root
                  sample_manifest bare_world) H).
Defined.

Lemma save_catalog_writes_only dir catalog now w :
  writes_only (locate w (get_catalog_path dir)) w (save_catalog dir catalog now w).2.
Proof.
  unfold save_catalog, get_catalog_path.
  rewrite io_bind_eq, lift_eq.
  destruct (setitem catalog _ _); [|apply writes_only_refl].
  rewrite io_bind_eq, lift_eq.
  destruct (_ ≫= py_len); [|apply writes_only_refl].
  rewrite io_bind_eq, lift_eq.
  destruct (setitem _ _ _); [|apply writes_only_refl].
  rewrite io_bind_eq, lift_eq.
  match goal with |- context [match ?m with Ok _ => _ | Raise _ => _ end] =>
    destruct m end; [|apply writes_only_refl].
  rewrite io_bind_eq, lift_eq.
  destruct (setitem _ _ _); [|apply writes_only_refl].
  rewrite locate_child by done. by apply store_writes_only.
Qed.

(** X14: whatever [update_catalog] does, and whether it returns or raises,
    every entry of the file system other than the catalog file is
    afterwards as it was (directories that were missing are made, at most),
    the current directory is the same, and nothing is printed. *)
Theorem update_catalog_writes_only json_loads dir session_metadata now w :
  writes_only (locate w (get_catalog_path dir)) w
    (update_catalog json_loads dir session_metadata now w).2.
Proof.
  unfold update_catalog. rewrite io_bind_eq, load_catalog_eq.
  match goal with |- context [match ?m with Ok _ => _ | Raise _ => _ end] =>
    destruct m as [catalog|e] end; [|apply writes_only_refl].
  rewrite io_bind_eq, lift_eq.
  destruct (new_entry session_metadata); [|apply writes_only_refl].
  rewrite io_bind_eq, lift_eq.
  destruct (put_entry catalog _); [|apply writes_only_refl].
  apply save_catalog_writes_only.
Qed.

(** ** The order of the lines *)

Lemma scan_eq a b :
  written_files a = written_files b -> edited_files a = edited_files b ->
  read_files a = read_files b -> other_member a = other_member b -> a = b.
Proof. destruct a, b. simpl. by intros -> -> -> ->. Qed.

Lemma merge_empty st : merge st scan_empty = st.
Proof.
  apply scan_eq; simpl; try set_solver. apply orb_false_r.
Qed.

Lemma merge_assoc a b c : merge (merge a b) c = merge a (merge b c).
Proof.
  apply scan_eq; simpl; try set_solver. by rewrite orb_assoc.
Qed.

Lemma merge_swap a b c : merge (merge a b) c = merge (merge a c) b.
Proof.
  apply scan_eq; simpl; try set_solver.
  by rewrite <- !orb_assoc, (orb_comm (other_member b)).
Qed.

Lemma add_merge t v st :
  add t v st = d ← add t v scan_empty; Ok (merge st d).
Proof.
  destruct v; simpl; try done; f_equal; apply scan_eq; simpl;
    try set_solver; try (by rewrite orb_true_r);
    destruct t; simpl; try set_solver; by rewrite orb_false_r.
Qed.

Lemma scan_block_merge st block :
  scan_block st block = d ← scan_block scan_empty block; Ok (merge st d).
Proof.
  assert (Ok st = Ok (merge st scan_empty)) as Hid by (by rewrite merge_empty).
  unfold scan_block. destruct block as [| | | | |fields]; try done. simpl.
  destruct (negb (eq_str _ "tool_use")); [done|].
  destruct (get _ "file_path" JNull) as [fp|]; simpl; [|done].
  destruct (negb (truthy fp)); [done|].
  destruct (tool_of _); [apply add_merge|done].
Qed.

Lemma scan_blocks_merge blocks : forall st d0,
  for_each scan_block (merge st d0) blocks
  = d ← for_each scan_block d0 blocks; Ok (merge st d).
Proof.
  induction blocks as [|b blocks IH]; intros st d0; simpl; [done|].
  rewrite (scan_block_merge (merge st d0)), (scan_block_merge d0).
  destruct (scan_block scan_empty b) as [d|]; simpl; [|done].
  by rewrite merge_assoc, IH.
Qed.

Lemma scan_line_merge st line :
  scan_line st line = d ← scan_line scan_empty line; Ok (merge st d).
Proof.
  destruct line as [entry|]; simpl; [|by rewrite merge_empty].
  unfold scan_entry.
  destruct (get entry "message" _) as [message|]; simpl; [|done].
  destruct (get message "content" _) as [c|]; simpl; [|done].
  destruct c; simpl; try (by rewrite merge_empty).
  rewrite <- (merge_empty st) at 1. apply scan_blocks_merge.
Qed.

Lemma scan_lines_perm l l' :
  l ≡ₚ l' -> forall st s,
  for_each scan_line st l = Ok s -> for_each scan_line st l' = Ok s.
Proof.
  induction 1 as [|x l l' _ IH|x y l|l1 l2 l3 _ IH1 _ IH2]; intros st s; simpl.
  - done.
  - destruct (scan_line st x); simpl; [apply IH|done].
  - rewrite (scan_line_merge st y), (scan_line_merge st x).
    destruct (scan_line scan_empty y) as [dy|] eqn:Ey; simpl; [|done].
    rewrite (scan_line_merge (merge st dy) x).
    destruct (scan_line scan_empty x) as [dx|]; simpl; [|done].
    rewrite (scan_line_merge (merge st dx) y), Ey. simpl.
    by rewrite merge_swap.
  - eauto.
Qed.

(** X15: the artifacts do not depend on the order of the lines of the
    transcript: when [extract_artifacts] returns for a transcript, it
    returns the same for the same lines in any other order. *)
Theorem extract_artifacts_any_order resolve content content' project_dir r :
  content ≡ₚ content' ->
  extract_artifacts resolve content project_dir = Ok r ->
  extract_artifacts resolve content' project_dir = Ok r.
Proof.
  intros Hperm. unfold extract_artifacts. intros H.
  apply bind_Ok in H as (st & Hst & H).
  by rewrite (scan_lines_perm _ _ Hperm _ _ Hst).
Qed.

Lemma extract_artifacts_any_order_witness :
  sample_scan ≡ₚ reverse sample_scan /\
  extract_artifacts resolve_plain sample_scan None = Ok sample_artifacts /\
  extract_artifacts resolve_plain (reverse sample_scan) None = Ok sample_artifacts.
Proof.
  assert (sample_scan ≡ₚ reverse sample_scan) as H1
    by (symmetry; apply reverse_Permutation).
  assert (extract_artifacts resolve_plain sample_scan None = Ok sample_artifacts)
    as H2 by (vm_compute; reflexivity).
  split; [exact H1|]. split; [exact H2|].
  exact (extract_artifacts_any_order resolve_plain sample_scan
           (reverse sample_scan) None sample_artifacts H1 H2).
Defined.

(** ** Project directories *)

Lemma is_prefix_app l l' : Path.is_prefix l (l ++ l')%list = true.
Proof.
  induction l as [|x l IH]; simpl; [done|]. by rewrite String.eqb_refl, IH.
Qed.

Lemma relative_to_below p l :
  Path.relative_to (Path.mk (Path.root p) (Path.tail p ++ l)) p
  = Ok (Path.mk "" l).
Proof.
  unfold Path.relative_to. simpl.
  rewrite String.eqb_refl, is_prefix_app. simpl.
  by rewrite drop_app_length.
Qed.

(** X16: for a transcript path that resolves to the projects directory of
    Claude Code itself, [get_project_dir_from_transcript] raises
    [IndexError]: the relative path has no first component, and the [try]
    catches [ValueError] only. *)
Theorem project_dir_of_projects_dir_raises home transcript_path w :
  Path.resolve_nolinks (cwd w) transcript_path = projects_dir home ->
  get_project_dir_from_transcript home transcript_path w = Raise IndexError.
Proof.
  intros H. unfold get_project_dir_from_transcript. rewrite H.
  pose proof (relative_to_below (projects_dir home) []) as Hrel.
  rewrite app_nil_r in Hrel. destruct (projects_dir home) as [r t].
  simpl in Hrel. by rewrite Hrel.
Qed.

Lemma project_dir_of_projects_dir_raises_witness :
  Path.resolve_nolinks (cwd project_world)
    (Path.of_str "/home/user/.claude/projects/")
  = projects_dir home_dir /\
  get_project_dir_from_transcript home_dir
    (Path.of_str "/home/user/.claude/projects/") project_world
  = Raise IndexError.
Proof.
  assert (Path.resolve_nolinks (cwd project_world)
            (Path.of_str "/home/user/.claude/projects/")
          = projects_dir home_dir) as H by reflexivity.
  split; [exact H|].
  exact (project_dir_of_projects_dir_raises home_dir
           (Path.of_str "/home/user/.claude/projects/") project_world H).
Defined.

Lemma div_root p s : Path.root p <> "" -> Path.root (div p s) <> "".
Proof.
  intros Hp. unfold div.
  destruct (String.eqb_spec (Path.root (Path.of_str s)) ""); simpl; done.
Qed.

Lemma try_combined_found w current combined later found :
  try_combined w current combined later = Some found ->
  exists_in w found = true /\
  (Path.root current <> "" -> Path.root found <> "").
Proof.
  revert combined. induction later as [|x later IH]; intros combined; simpl.
  - done.
  - destruct (exists_in w (div current _)) eqn:E.
    + intros [= <-]. split; [done|]. apply div_root.
    + apply IH.
Qed.

Lemma walk_parts_found w parts : forall current,
  (exists_in w (walk_parts w current parts) = true \/
   walk_parts w current parts = current) /\
  (Path.root current <> "" -> Path.root (walk_parts w current parts) <> "").
Proof.
  induction parts as [|part later IH]; intros current; simpl.
  - split; [by right|done].
  - destruct (exists_in w (div current part)) eqn:E.
    + destruct (IH (div current part)) as [[H| ->] Hroot].
      * split; [by left|]. intros Hc. by apply Hroot, div_root.
      * split; [by left|]. intros Hc. by apply div_root.
    + destruct (try_combined w current part later) as [found|] eqn:Et.
      * apply try_combined_found in Et as [Hex Hr].
        destruct (IH found) as [[H|Heq] Hroot].
        -- split; [by left|]. auto.
        -- rewrite Heq. split; [by left|]. auto.
      * split; [by right|done].
Qed.

Lemma of_str_dash_root s :
  Path.root (Path.of_str (replace_char "-" "/" (String "-" s))) <> "".
Proof.
  unfold Path.of_str. simpl.
  destruct (replace_char "-" "/" s) as [|c r]; [done|].
  destruct c as [[] [] [] [] [] [] [] []]; try done.
  destruct r as [|d r]; [done|].
  destruct d as [[] [] [] [] [] [] [] []]; done.
Qed.

Lemma starts_with_dash s :
  starts_with "-" s = true -> exists s', s = String "-" s'.
Proof.
  destruct s as [|c s]; [done|].
  change (starts_with "-" (String c s)) with (Ascii.eqb "-" c && true).
  rewrite andb_true_r. intros <-%Ascii.eqb_eq. eauto.
Qed.

(** X17: a directory that [get_project_dir_from_transcript] returns exists
    and is an absolute path. *)
Theorem project_dir_found_exists home transcript_path w found :
  get_project_dir_from_transcript home transcript_path w = Ok (Some found) ->
  exists_in w found = true /\ Path.root found <> "".
Proof.
  unfold get_project_dir_from_transcript.
  destruct (Path.relative_to _ _) as [rel|[]]; try done.
  destruct (Path.tail rel) as [|encoded rest]; [done|].
  destruct (starts_with "-" encoded) eqn:Edash; [|done].
  apply starts_with_dash in Edash as [s ->].
  destruct (exists_in w (Path.of_str _)) eqn:E.
  { intros [= <-]. split; [done|]. apply of_str_dash_root. }
  destruct (negb _ && exists_in w _) eqn:E2; [|done].
  intros [= <-]. apply andb_true_iff in E2 as [_ E2]. split; [done|].
  by apply walk_parts_found.
Qed.

Lemma project_dir_found_exists_witness :
  get_project_dir_from_transcript home_dir
    (Path.of_str "/home/user/.claude/projects/-home-us-er/s.jsonl") project_world
  = Ok (Some (Path.of_str "/home")) /\
  exists_in project_world (Path.of_str "/home") = true /\
  Path.root (Path.of_str "/home") <> "".
Proof.
  assert (get_project_dir_from_transcript home_dir
            (Path.of_str "/home/user/.claude/projects/-home-us-er/s.jsonl")
            project_world
          = Ok (Some (Path.of_str "/home"))) as H by (vm_compute; reflexivity).
  split; [exact H|].
  exact (project_dir_found_exists home_dir
           (Path.of_str "/home/user/.claude/projects/-home-us-er/s.jsonl")
           project_world (Path.of_str "/home") H).
Defined.

Lemma replace_char_back a b s :
  all_chars (fun c => negb (Ascii.eqb c b)) s = true ->
  replace_char b a (replace_char a b s) = s.
Proof.
  induction s as [|c s IH]; simpl; [done|].
  intros [Hc Hs]%andb_true_iff. rewrite IH by done. f_equal.
  destruct (Ascii.eqb_spec c a) as [->|Hne].
  - by rewrite Ascii.eqb_refl.
  - by apply negb_true_iff in Hc as ->.
Qed.

Lemma split_on_whole sep x :
  all_chars (fun c => negb (Ascii.eqb c sep)) x = true ->
  Path.split_on sep x = [x].
Proof.
  induction x as [|c x IH]; simpl; [done|].
  intros [Hc Hx]%andb_true_iff. apply negb_true_iff in Hc. rewrite Hc.
  by rewrite IH.
Qed.

Lemma split_on_app sep x r :
  all_chars (fun c => negb (Ascii.eqb c sep)) x = true ->
  Path.split_on sep (x ++ String sep r) = x :: Path.split_on sep r.
Proof.
  induction x as [|c x IH]; simpl.
  - intros _. by rewrite Ascii.eqb_refl.
  - intros [Hc Hx]%andb_true_iff. apply negb_true_iff in Hc. rewrite Hc.
    by rewrite IH.
Qed.

Lemma split_on_join l :
  Forall (fun x => all_chars (fun c => negb (Ascii.eqb c "/")) x = true) l ->
  l <> [] -> Path.split_on "/" (Path.join "/" l) = l.
Proof.
  induction 1 as [|x l Hx Hl IH]; intros Hne; [done|].
  destruct l as [|y l].
  - simpl. by apply split_on_whole.
  - change (Path.join "/" (x :: y :: l))
      with (x ++ String "/" (Path.join "/" (y :: l))).
    rewrite split_on_app by done. by rewrite IH.
Qed.

Lemma splitroot_single c r :
  c <> "/"%char ->
  Path.splitroot (String "/" (String c r)) = ("/", String c r).
Proof. destruct c as [[] [] [] [] [] [] [] []]; done. Qed.

Lemma filter_keep_part l :
  Forall (fun x => Path.keep_part x = true) l -> List.filter Path.keep_part l = l.
Proof.
  induction 1 as [|x l Hx _ IH]; simpl; [done|]. by rewrite Hx, IH.
Qed.

(** The text of an absolute path reads as the path. *)
Lemma of_str_to_str p :
  path_made p -> Path.root p = "/" -> Path.of_str (Path.to_str p) = p.
Proof.
  destruct p as [r t]. intros [_ Ht] Hr. simpl in *. subst r.
  unfold Path.to_str. simpl.
  assert (Forall (fun x => Path.keep_part x = true) t) as Hkeep
    by (eapply Forall_impl; [exact Ht|]; by intros x [? _]).
  assert (Forall (fun x => all_chars (fun c => negb (Ascii.eqb c "/")) x = true) t)
    as Hslash by (eapply Forall_impl; [exact Ht|]; by intros x [_ ?]).
  destruct t as [|x t].
  - reflexivity.
  - pose proof (split_on_join (x :: t) Hslash) as Hsplit.
    unfold Path.of_str.
    destruct x as [|c x].
    { apply Forall_cons in Hkeep as [Hx _]. done. }
    assert (c <> "/"%char) as Hc.
    { apply Forall_cons in Hslash as [Hx _]. simpl in Hx.
      apply andb_true_iff in Hx as [Hx _]. apply negb_true_iff in Hx.
      by apply Ascii.eqb_neq. }
    assert (exists r, Path.join "/" (String c x :: t) = String c r) as [r Hr].
    { destruct t; simpl; eauto. }
    change ("/" ++ Path.join "/" (String c x :: t))
      with (String "/" (Path.join "/" (String c x :: t))).
    rewrite Hr, splitroot_single by done. rewrite <- Hr.
    rewrite Hsplit by done. by rewrite filter_keep_part.
Qed.

(** X18: decoding undoes the encoding of a project directory that has no
    hyphen in its name: for a transcript in the directory that Claude Code
    keeps for a project, [get_project_dir_from_transcript] returns the
    project directory, when that is a resolved absolute path without a
    hyphen that exists. *)
Theorem project_dir_round_trip home transcript_path w project_dir session_file :
  path_made project_dir ->
  Path.root project_dir = "/" ->
  Path.resolve_nolinks (cwd w) project_dir = project_dir ->
  all_chars (fun c => negb (Ascii.eqb c "-")) (Path.to_str project_dir) = true ->
  exists_in w project_dir = true ->
  Path.resolve_nolinks (cwd w) transcript_path
  = Path.child (Path.child (projects_dir home) (get_cc_project_path project_dir w))
      session_file ->
  get_project_dir_from_transcript home transcript_path w = Ok (Some project_dir).
Proof.
  intros Hmade Hroot Hres Hdash Hex Htr.
  unfold get_project_dir_from_transcript. rewrite Htr.
  unfold get_cc_project_path. rewrite Hres.
  set (encoded := replace_char "/" "-" (Path.to_str project_dir)).
  assert (Path.relative_to
            (Path.child (Path.child (projects_dir home) encoded) session_file)
            (projects_dir home)
          = Ok (Path.mk "" [encoded; session_file])) as ->.
  { unfold Path.child. cbn [Path.root Path.tail]. rewrite <- app_assoc.
    apply relative_to_below. }
  cbn [Path.tail]. subst encoded.
  assert (exists r, Path.to_str project_dir = String "/" r) as [r Hr].
  { unfold Path.to_str. rewrite Hroot. destruct (Path.tail project_dir); eauto. }
  assert (starts_with "-" (replace_char "/" "-" (Path.to_str project_dir)) = true)
    as -> by (by rewrite Hr).
  rewrite replace_char_back by done.
  rewrite of_str_to_str by done. by rewrite Hex.
Qed.

Lemma project_dir_round_trip_witness :
  path_made (Path.of_str "/home/user/proj") /\
  Path.root (Path.of_str "/home/user/proj") = "/" /\
  Path.resolve_nolinks (cwd project_world) (Path.of_str "/home/user/proj")
  = Path.of_str "/home/user/proj" /\
  all_chars (fun c => negb (Ascii.eqb c "-"))
    (Path.to_str (Path.of_str "/home/user/proj")) = true /\
  exists_in project_world (Path.of_str "/home/user/proj") = true /\
  Path.resolve_nolinks (cwd project_world)
    (Path.of_str "/home/user/.claude/projects/-home-user-proj/s.jsonl")
  = Path.child
      (Path.child (projects_dir home_dir)
         (get_cc_project_path (Path.of_str "/home/user/proj") project_world))
      "s.jsonl" /\
  get_project_dir_from_transcript home_dir
    (Path.of_str "/home/user/.claude/projects/-home-user-proj/s.jsonl")
    project_world
  = Ok (Some (Path.of_str "/home/user/proj")).
Proof.
  assert (path_made (Path.of_str "/home/user/proj")) as H1.
  { split; [right; left; reflexivity|]. repeat constructor. }
  assert (Path.root (Path.of_str "/home/user/proj") = "/") as H2 by reflexivity.
  assert (Path.resolve_nolinks (cwd project_world) (Path.of_str "/home/user/proj")
          = Path.of_str "/home/user/proj") as H3 by reflexivity.
  assert (all_chars (fun c => negb (Ascii.eqb c "-"))
            (Path.to_str (Path.of_str "/home/user/proj")) = true) as H4
    by reflexivity.
  assert (exists_in project_world (Path.of_str "/home/user/proj") = true) as H5
    by (vm_compute; reflexivity).
  assert (Path.resolve_nolinks (cwd project_world)
            (Path.of_str "/home/user/.claude/projects/-home-user-proj/s.jsonl")
          = Path.child
              (Path.child (projects_dir home_dir)
                 (get_cc_project_path (Path.of_str "/home/user/proj") project_world))
              "s.jsonl") as H6 by reflexivity.
  do 6 (split; [assumption|]).
  exact (project_dir_round_trip home_dir
           (Path.of_str "/home/user/.claude/projects/-home-user-proj/s.jsonl")
           project_world (Path.of_str "/home/user/proj") "s.jsonl"
           H1 H2 H3 H4 H5 H6).
Defined.

Lemma replace_char_merges a b s s' :
  replace_char b a s = replace_char b a s' ->
  replace_char a b s = replace_char a b s'.
Proof.
  revert s'. induction s as [|c s IH]; intros [|c' s']; simpl; try done.
  intros [= Hc Hs]. rewrite (IH _ Hs). f_equal.
  destruct (Ascii.eqb_spec c b) as [->|Hcb], (Ascii.eqb_spec c' b) as [->|Hcb'].
  - done.
  - subst c'. rewrite Ascii.eqb_refl.
    destruct (Ascii.eqb_spec b a) as [->|]; done.
  - subst c. rewrite Ascii.eqb_refl.
    destruct (Ascii.eqb_spec b a) as [->|]; done.
  - by subst c'.
Qed.

(** X19: the id that Claude Code gives a project does not tell a hyphen
    from a slash: two project directories whose resolved names are the same
    once every hyphen is read as a slash have the same id. *)
Theorem get_cc_project_path_merges p q w :
  replace_char "-" "/" (Path.to_str (Path.resolve_nolinks (cwd w) p))
  = replace_char "-" "/" (Path.to_str (Path.resolve_nolinks (cwd w) q)) ->
  get_cc_project_path p w = get_cc_project_path q w.
Proof. intros H. unfold get_cc_project_path. by apply replace_char_merges. Qed.

Lemma get_cc_project_path_merges_witness :
  replace_char "-" "/"
    (Path.to_str (Path.resolve_nolinks (cwd project_world) (Path.of_str "/a/b-c")))
  = replace_char "-" "/"
      (Path.to_str (Path.resolve_nolinks (cwd project_world) (Path.of_str "/a/b/c"))) /\
  Path.of_str "/a/b-c" <> Path.of_str "/a/b/c" /\
  get_cc_project_path (Path.of_str "/a/b-c") project_world
  = get_cc_project_path (Path.of_str "/a/b/c") project_world.
Proof.
  assert (replace_char "-" "/"
            (Path.to_str (Path.resolve_nolinks (cwd project_world)
                            (Path.of_str "/a/b-c")))
          = replace_char "-" "/"
              (Path.to_str (Path.resolve_nolinks (cwd project_world)
                              (Path.of_str "/a/b/c")))) as H by reflexivity.
  split; [exact H|]. split; [discriminate|].
  exact (get_cc_project_path_merges (Path.of_str "/a/b-c") (Path.of_str "/a/b/c")
           project_world H).
Defined.

(** ** The conversation *)

Lemma starts_with_app p rest : starts_with p (p ++ rest) = true.
Proof.
  induction p as [|c p IH]; simpl; [done|]. by rewrite Ascii.eqb_refl, IH.
Qed.

Lemma contains_app p before after : contains p (before ++ p ++ after) = true.
Proof.
  induction before as [|c before IH].
  - change ("" ++ p ++ after) with (p ++ after).
    destruct (p ++ after) eqn:E; simpl; rewrite <- E, starts_with_app; done.
  - change (String c before ++ p ++ after)
      with (String c (before ++ p ++ after)).
    simpl. rewrite IH. apply orb_true_r.
Qed.

(** A user text that is not passed over is none of the injected texts. *)
Lemma hidden_user_text_false text :
  hidden_user_text text = false ->
  (forall rest, text <> "<system-reminder>" ++ rest) /\
  (forall rest, text <> "<ide_" ++ rest) /\
  (forall rest, text = "# " ++ rest -> (String.length text <= 500)%nat) /\
  (forall before after, text <> before ++ "<command-name>" ++ after) /\
  (forall before after, text <> before ++ "<command-message>" ++ after) /\
  (forall before after, text <> before ++ "Base directory for this skill:" ++ after) /\
  (forall rest, text <> "Launching skill:" ++ rest).
Proof.
  unfold hidden_user_text. rewrite !orb_false_iff, andb_false_iff.
  intros [[[[[H1 H2] H3] [H4 H5]] H6] H7].
  split; [|split; [|split; [|split; [|split; [|split]]]]].
  - intros rest ->. by rewrite starts_with_app in H1.
  - intros rest ->. by rewrite starts_with_app in H2.
  - intros rest Heq. destruct H3 as [H3|H3].
    + rewrite Heq, starts_with_app in H3. done.
    + apply Z.ltb_ge in H3. unfold len in H3. lia.
  - intros before after ->. by rewrite contains_app in H4.
  - intros before after ->. by rewrite contains_app in H5.
  - intros before after ->. by rewrite contains_app in H6.
  - intros rest ->. by rewrite starts_with_app in H7.
Qed.

(** What one record adds to the messages, and on which record. *)
Lemma messages_entry_adds format_tool_summary messages entry messages' :
  messages_entry format_tool_summary messages entry = Ok messages' ->
  exists ty,
    get entry "type" JNull = Ok ty /\
    (messages' = messages \/
     exists message role m,
       eq_str ty snapshot_marker = false /\
       get entry "message" (JObj []) = Ok message /\
       get message "role" (or_else ty (JStr "")) = Ok role /\
       messages' = (messages ++ [m])%list /\ message_shown m /\
       (if eq_str role "user" || eq_str ty "user"
        then msg_role m = "user"
        else eq_str role "assistant" || eq_str ty "assistant" = true /\
             msg_role m = "assistant")).
Proof.
  unfold messages_entry. intros H.
  apply bind_Ok in H as (ty & Hty & H). exists ty. split; [done|].
  destruct (eq_str ty snapshot_marker) eqn:Esnap; [left; by injection H as <-|].
  apply bind_Ok in H as (message & Hmessage & H).
  apply bind_Ok in H as (role & Hrole & H).
  apply bind_Ok in H as (msg_content & _ & H).
  destruct (eq_str role "user" || eq_str ty "user") eqn:Euser.
  - apply bind_Ok in H as (joined & _ & H).
    destruct (String.eqb_spec (strip joined) "") as [|Hne];
      [left; by injection H as <-|].
    destruct (hidden_user_text (strip joined)) eqn:Ehid;
      [left; by injection H as <-|].
    injection H as <-. right. eexists message, role, _.
    do 4 (split; [done|]). rewrite Euser. split; [|done].
    split; [apply strip_strip|]. left. simpl.
    split; [done|]. split; [done|]. split; [done|].
    by apply hidden_user_text_false.
  - destruct (eq_str role "assistant" || eq_str ty "assistant") eqn:Eas;
      [|left; by injection H as <-].
    apply bind_Ok in H as (found & _ & H).
    apply bind_Ok in H as (joined & _ & H).
    destruct (negb _ || negb _) eqn:Eshown; [|left; by injection H as <-].
    injection H as <-. right. eexists message, role, _.
    do 4 (split; [done|]). rewrite Euser. split; [|done].
    split; [apply strip_strip|]. right. split; [done|]. simpl.
    apply orb_true_iff in Eshown as [Ht|Hc].
    + left. apply negb_true_iff in Ht. by apply String.eqb_neq.
    + right. apply negb_true_iff in Hc. by apply bool_decide_eq_false in Hc.
Qed.

Lemma messages_loop_adds format_tool_summary content : forall messages messages',
  for_each (messages_line format_tool_summary) messages content = Ok messages' ->
  exists new,
    messages' = (messages ++ new)%list /\ Forall message_shown new /\
    (length new <= length content)%nat.
Proof.
  induction content as [|line content IH]; intros messages messages' H;
    simpl in H.
  - injection H as <-. exists []. rewrite app_nil_r. by repeat constructor.
  - apply bind_Ok in H as (ms1 & H1 & H).
    destruct (IH _ _ H) as (new & -> & Hnew & Hlen).
    destruct line as [entry|]; simpl in H1.
    + apply messages_entry_adds in H1 as (ty & _ & [->|Hm]).
      * exists new. split; [done|]. split; [done|]. simpl. lia.
      * destruct Hm as (message & role & m & _ & _ & _ & -> & Hm & _).
        exists (m :: new). rewrite <- app_assoc. split; [done|].
        split; [by constructor|]. simpl. lia.
    + injection H1 as <-. exists new. split; [done|]. split; [done|]. simpl. lia.
Qed.

(** X20: every message that [extract_conversation_messages] returns is a
    user message or an assistant message whose text has no white space at
    either end.  A user message has a text and no tool calls, and its text
    is none of the injected ones: it does not open with [<system-reminder>],
    [<ide_] or [Launching skill:], is not a text of more than 500 characters
    that opens with [# ], and holds none of [<command-name>],
    [<command-message>] and [Base directory for this skill:].  An assistant
    message has a text or a tool call.  There is one message for a line of
    the transcript at most. *)
Theorem extract_conversation_messages_shown format_tool_summary content messages :
  extract_conversation_messages format_tool_summary content = Ok messages ->
  Forall message_shown messages /\ (length messages <= length content)%nat.
Proof.
  unfold extract_conversation_messages. intros H.
  by apply messages_loop_adds in H as (new & -> & Hnew & Hlen).
Qed.

Lemma extract_conversation_messages_shown_witness :
  extract_conversation_messages names_tool injected_session
  = Ok injected_session_messages /\
  Forall message_shown injected_session_messages /\
  (length injected_session_messages <= length injected_session)%nat.
Proof.
  assert (extract_conversation_messages names_tool injected_session
          = Ok injected_session_messages) as H by (vm_compute; reflexivity).
  split; [exact H|].
  exact (extract_conversation_messages_shown names_tool injected_session
           injected_session_messages H).
Defined.

(** What one record adds to the two message counts. *)
Lemma stats_entry_roles st entry st' :
  stats_entry st entry = Ok st' ->
  exists ty,
    get entry "type" JNull = Ok ty /\
    ((eq_str ty snapshot_marker = true /\
      human_messages st' = human_messages st /\
      assistant_messages st' = assistant_messages st)
     \/
     exists message role,
       eq_str ty snapshot_marker = false /\
       get entry "message" (JObj []) = Ok message /\
       get message "role" (or_else ty (JStr "")) = Ok role /\
       human_messages st'
       = (if eq_str role "user" || eq_str ty "user"
          then human_messages st + 1 else human_messages st) /\
       assistant_messages st'
       = (if negb (eq_str role "user" || eq_str ty "user")
             && (eq_str role "assistant" || eq_str ty "assistant")
          then assistant_messages st + 1 else assistant_messages st)).
Proof.
  unfold stats_entry. intros H.
  apply bind_Ok in H as (ts & _ & H).
  apply bind_Ok in H as (ty & Hty & H). exists ty. split; [done|].
  destruct (eq_str ty snapshot_marker) eqn:Esnap.
  { left. by injection H as <-. }
  right.
  apply bind_Ok in H as (message & Hmessage & H).
  apply bind_Ok in H as (role & Hrole & H). cbv zeta in H.
  apply bind_Ok in H as ([[th cn] md] & _ & H).
  apply bind_Ok in H as (version & _ & H).
  apply bind_Ok in H as (usage & _ & H).
  apply bind_Ok in H as (tk & _ & H).
  injection H as <-. exists message, role. by repeat split.
Qed.

Lemma of_role_app role l1 l2 :
  of_role role (l1 ++ l2)%list = (of_role role l1 ++ of_role role l2)%list.
Proof. unfold of_role. apply List.filter_app. Qed.

Lemma messages_and_stats_loop format_tool_summary content :
  forall messages messages' st st',
  for_each (messages_line format_tool_summary) messages content = Ok messages' ->
  for_each stats_line st content = Ok st' ->
  Z.of_nat (length (of_role "user" messages')) - human_messages st'
  <= Z.of_nat (length (of_role "user" messages)) - human_messages st /\
  Z.of_nat (length (of_role "assistant" messages')) - assistant_messages st'
  <= Z.of_nat (length (of_role "assistant" messages)) - assistant_messages st.
Proof.
  induction content as [|line content IH]; intros messages messages' st st' Hm Hs;
    simpl in Hm, Hs.
  - injection Hm as <-. injection Hs as <-. lia.
  - apply bind_Ok in Hm as (ms1 & Hm1 & Hm).
    apply bind_Ok in Hs as (st1 & Hs1 & Hs).
    destruct (IH _ _ _ _ Hm Hs) as [IHu IHa].
    assert (Z.of_nat (length (of_role "user" ms1)) - human_messages st1
            <= Z.of_nat (length (of_role "user" messages)) - human_messages st /\
            Z.of_nat (length (of_role "assistant" ms1)) - assistant_messages st1
            <= Z.of_nat (length (of_role "assistant" messages))
               - assistant_messages st) as [Hu Ha]; [|lia].
    destruct line as [entry|]; simpl in Hm1, Hs1.
    2:{ injection Hm1 as <-. injection Hs1 as <-. lia. }
    apply messages_entry_adds in Hm1 as (ty & Hty & Hm1).
    apply stats_entry_roles in Hs1 as (ty' & Hty' & Hs1).
    rewrite Hty in Hty'. injection Hty' as <-.
    assert (human_messages st <= human_messages st1 /\
            assistant_messages st <= assistant_messages st1) as [Hh Has].
    { destruct Hs1 as [(_ & -> & ->)|(message & role & _ & _ & _ & -> & ->)];
        [lia|].
      destruct (_ || _), (_ || _); simpl; lia. }
    destruct Hm1 as [->|(message & role & m & Esnap & Hmessage & Hrole & -> & _ & Hm1)];
      [lia|].
    destruct Hs1 as [(Esnap' & _)|(message' & role' & _ & Hmessage' & Hrole' & -> & ->)];
      [congruence|].
    rewrite Hmessage in Hmessage'. injection Hmessage' as <-.
    rewrite Hrole in Hrole'. injection Hrole' as <-.
    rewrite !of_role_app, !length_app.
    assert (forall r, length (of_role r [m])
                      = if String.eqb (msg_role m) r then 1%nat else 0%nat)
      as Hone by (intros r; unfold of_role; simpl; by destruct (String.eqb _ _)).
    rewrite !Hone.
    destruct (eq_str role "user" || eq_str ty "user"); simpl.
    + rewrite Hm1. simpl. lia.
    + destruct Hm1 as [-> ->]. simpl. lia.
Qed.

(** X21: the conversation never shows more messages of a role than the
    statistics count: when both functions return for a transcript, the user
    messages shown are [human_messages] at most, and the assistant messages
    shown are [assistant_messages] at most. *)
Theorem messages_within_stats format_tool_summary minutes_between content
    messages s :
  extract_conversation_messages format_tool_summary content = Ok messages ->
  extract_session_stats minutes_between content = Ok s ->
  Z.of_nat (length (of_role "user" messages)) <= human_messages (counts s) /\
  Z.of_nat (length (of_role "assistant" messages))
  <= assistant_messages (counts s).
Proof.
  unfold extract_conversation_messages, extract_session_stats. intros Hm Hs.
  apply bind_Ok in Hs as (st & Hloop & Hs).
  apply finish_stats_counts in Hs. rewrite Hs. simpl.
  pose proof (messages_and_stats_loop _ _ _ _ _ _ Hm Hloop) as [Hu Ha].
  simpl in Hu, Ha. lia.
Qed.

Lemma messages_within_stats_witness :
  extract_conversation_messages names_tool sample_session = Ok sample_messages /\
  extract_session_stats minutes_same sample_session = Ok sample_stats /\
  Z.of_nat (length (of_role "user" sample_messages))
  <= human_messages (counts sample_stats) /\
  Z.of_nat (length (of_role "assistant" sample_messages))
  <= assistant_messages (counts sample_stats).
Proof.
  assert (extract_conversation_messages names_tool sample_session
          = Ok sample_messages) as H1 by (vm_compute; reflexivity).
  assert (extract_session_stats minutes_same sample_session = Ok sample_stats)
    as H2 by (vm_compute; reflexivity).
  split; [exact H1|]. split; [exact H2|].
  exact (messages_within_stats names_tool minutes_same sample_session
           sample_messages sample_stats H1 H2).
Defined.

(** ** Which messages can give the title *)

Lemma isspace_lower_char c : isspace (lower_char c) = isspace c.
Proof. by destruct c as [[] [] [] [] [] [] [] []]. Qed.

Lemma ltrim_app_spaces P before s :
  all_chars P before = true -> ltrim P (before ++ s) = ltrim P s.
Proof.
  induction before as [|c before IH]; simpl; [done|].
  intros [-> Hb]%andb_true_iff. by apply IH.
Qed.

Lemma rtrim_app_kept P a b :
  all_chars (fun c => negb (P c)) a = true -> a <> "" ->
  rtrim P (a ++ b) = a ++ rtrim P b.
Proof.
  induction a as [|c a IH]; [done|]. intros [Hc Ha]%andb_true_iff _.
  apply negb_true_iff in Hc.
  change (String c a ++ b) with (String c (a ++ b)).
  change (rtrim P (String c (a ++ b)))
    with (match rtrim P (a ++ b) with
          | EmptyString => if P c then EmptyString else String c EmptyString
          | r => String c r
          end).
  destruct a as [|d a].
  - change ("" ++ b) with b. rewrite Hc. by destruct (rtrim P b).
  - rewrite IH by done. done.
Qed.

Lemma match_literal_ci_spelled s rest :
  match_literal_ci (lower s) (s ++ rest) = Some rest.
Proof.
  induction s as [|c s IH]; simpl; [done|].
  by rewrite lower_char_lower_char, Ascii.eqb_refl.
Qed.

Lemma all_chars_unlower Q s :
  (forall c, Q (lower_char c) = Q c) ->
  all_chars Q (lower s) = all_chars Q s.
Proof.
  intros HQ. induction s as [|c s IH]; simpl; [done|]. by rewrite HQ, IH.
Qed.

Lemma ide_patterns_kept marker :
  marker ∈ ide_patterns ->
  all_chars (fun c => negb (isspace c)) marker = true /\ marker <> "".
Proof.
  unfold ide_patterns. rewrite !elem_of_cons, elem_of_nil.
  intros [->|[->|[->|[->|[->|[]]]]]]; by split.
Qed.

(** X22: whether a message is passed over as IDE context does not depend
    on the white space around it, and a text that, after white space, opens
    with one of the five markers in any letter case is passed over,
    whatever follows the marker. *)
Theorem is_ide_context_message_ignores :
  (forall text,
     _is_ide_context_message (strip text) = _is_ide_context_message text) /\
  (forall marker spelled before rest,
     marker ∈ ide_patterns ->
     lower spelled = marker ->
     all_chars isspace before = true ->
     _is_ide_context_message (before ++ spelled ++ rest) = true).
Proof.
  split.
  - intros text. unfold _is_ide_context_message. rewrite strip_strip.
    destruct (String.eqb_spec text "") as [->|Hne]; [done|].
    destruct (String.eqb_spec (strip text) "") as [->|]; done.
  - intros marker spelled before rest Hin Hlow Hbefore.
    destruct (ide_patterns_kept _ Hin) as [Hkept Hne].
    assert (all_chars (fun c => negb (isspace c)) spelled = true) as Hsp.
    { rewrite <- Hkept, <- Hlow. symmetry. apply all_chars_unlower.
      intros c. by rewrite isspace_lower_char. }
    assert (spelled <> "") as Hne' by (intros ->; by subst marker).
    assert (strip (before ++ spelled ++ rest)
            = spelled ++ rtrim isspace rest) as Hstrip.
    { rewrite strip_trim, ltrim_app_spaces by done.
      assert (ltrim isspace (spelled ++ rest) = spelled ++ rest) as ->.
      { destruct spelled as [|c spelled]; [done|]. simpl in Hsp |- *.
        apply andb_true_iff in Hsp as [Hc _]. apply negb_true_iff in Hc.
        by rewrite Hc. }
      by apply rtrim_app_kept. }
    unfold _is_ide_context_message. rewrite Hstrip.
    destruct (String.eqb _ ""); [done|].
    assert (existsb
              (fun pattern =>
                 bool_decide (is_Some (match_literal_ci pattern
                                         (spelled ++ rtrim isspace rest))))
              ide_patterns = true) as ->; [|done].
    apply existsb_exists. exists marker. split; [by apply list_elem_of_In|].
    apply bool_decide_eq_true. rewrite <- Hlow, match_literal_ci_spelled. eauto.
Qed.

Lemma is_ide_context_message_ignores_witness :
  "<system-reminder>" ∈ ide_patterns /\
  lower "<System-Reminder>" = "<system-reminder>" /\
  all_chars isspace "  " = true /\
  _is_ide_context_message ("  " ++ "<System-Reminder>" ++ "This is a note")
  = true.
Proof.
  assert ("<system-reminder>" ∈ ide_patterns) as H1
    by (unfold ide_patterns; rewrite !elem_of_cons; auto).
  assert (lower "<System-Reminder>" = "<system-reminder>") as H2 by reflexivity.
  assert (all_chars isspace "  " = true) as H3 by reflexivity.
  split; [exact H1|]. split; [exact H2|]. split; [exact H3|].
  exact (proj2 is_ide_context_message_ignores "<system-reminder>"
           "<System-Reminder>" "  " "This is a note" H1 H2 H3).
Defined.

(** ** Loading the catalog *)



(** ** Tool summaries *)

Lemma str_length_app a b :
  String.length (a ++ b) = (String.length a + String.length b)%nat.
Proof. induction a as [|c a IH]; simpl; [done|]. by rewrite IH. Qed.

Lemma take_str_all n s : (String.length s <= n)%nat -> take_str n s = s.
Proof.
  revert s. induction n as [|n IH]; intros [|c s]; simpl; try done; try lia.
  intros H. rewrite IH; [done|lia].
Qed.

(** X24: a summary shows 60 characters of a shell command and 53 of a URL
    at most: a text that is longer is cut and ends in three dots, a text
    that is not is shown as it is. *)
Theorem format_tool_summary_cuts py_str dict_slice_error tool_input :
  (forall command,
     get tool_input "command" (JStr "") = Ok (JStr command) ->
     exists shown,
       format_tool_summary py_str dict_slice_error (JStr "Bash") tool_input
       = Ok ("Bash: `" ++ shown ++ "`") /\
       (String.length shown <= 60)%nat /\
       shown = (if (60 <? len command)%Z then take_str 57 command ++ "..."
                else command)) /\
  (forall url,
     get tool_input "url" (JStr "") = Ok (JStr url) ->
     exists shown,
       format_tool_summary py_str dict_slice_error (JStr "WebFetch") tool_input
       = Ok ("WebFetch: " ++ shown) /\
       (String.length shown <= 53)%nat /\
       shown = (if (50 <? len url)%Z then take_str 50 url ++ "..." else url)).
Proof.
  split.
  - intros command Hget. unfold format_tool_summary.
    change (eq_str (JStr "Bash") "Read") with false.
    change (eq_str (JStr "Bash") "Write") with false.
    change (eq_str (JStr "Bash") "Edit") with false.
    change (eq_str (JStr "Bash") "Bash") with true. cbv iota.
    rewrite Hget. cbn -[take_str]. unfold len.
    destruct (Z.ltb_spec 60 (Z.of_nat (String.length command))) as [Hlong|Hshort];
      cbn -[take_str]; eexists; (split; [reflexivity|]); (split; [|reflexivity]).
    + rewrite str_length_app. pose proof (take_str_length 57 command).
      change (String.length "...") with 3%nat. lia.
    + lia.
  - intros url Hget. unfold format_tool_summary.
    change (eq_str (JStr "WebFetch") "Read") with false.
    change (eq_str (JStr "WebFetch") "Write") with false.
    change (eq_str (JStr "WebFetch") "Edit") with false.
    change (eq_str (JStr "WebFetch") "Bash") with false.
    change (eq_str (JStr "WebFetch") "Grep") with false.
    change (eq_str (JStr "WebFetch") "Glob") with false.
    change (eq_str (JStr "WebFetch") "Task") with false.
    change (eq_str (JStr "WebFetch") "WebFetch") with true. cbv iota.
    rewrite Hget. cbn -[take_str]. unfold len.
    destruct (Z.ltb_spec 50 (Z.of_nat (String.length url))) as [Hlong|Hshort];
      cbn -[take_str]; eexists; (split; [reflexivity|]); (split; [|reflexivity]).
    + rewrite str_length_app. pose proof (take_str_length 50 url).
      change (String.length "...") with 3%nat. lia.
    + lia.
Qed.

Lemma format_tool_summary_cuts_witness :
  get (JObj [("command", JStr "git status")]) "command" (JStr "")
  = Ok (JStr "git status") /\
  exists shown,
    format_tool_summary str_unused TypeError (JStr "Bash")
      (JObj [("command", JStr "git status")])
    = Ok ("Bash: `" ++ shown ++ "`") /\
    (String.length shown <= 60)%nat /\
    shown = (if (60 <? len "git status")%Z then take_str 57 "git status" ++ "..."
             else "git status").
Proof.
  assert (get (JObj [("command", JStr "git status")]) "command" (JStr "")
          = Ok (JStr "git status")) as H by reflexivity.
  split; [exact H|].
  exact (proj1 (format_tool_summary_cuts str_unused TypeError
                  (JObj [("command", JStr "git status")])) "git status" H).
Defined.

Lemma count_char_app a s t :
  count_char a (s ++ t) = (count_char a s + count_char a t)%nat.
Proof. induction s as [|c s IH]; simpl; [done|]. rewrite IH. lia. Qed.

Lemma split_on_clean sep s :
  Forall (fun x => count_char sep x = 0%nat) (Path.split_on sep s).
Proof.
  induction s as [|c s IH]; simpl.
  - by repeat constructor.
  - destruct (Ascii.eqb c sep) eqn:E.
    + by constructor.
    + destruct (Path.split_on sep s) as [|w ws].
      * repeat constructor. simpl. by rewrite E.
      * apply Forall_cons in IH as [Hw Hws]. constructor; [|done].
        simpl. by rewrite E, Hw.
Qed.

Lemma of_str_clean s :
  Forall (fun x => count_char "/" x = 0%nat) (Path.tail (Path.of_str s)).
Proof.
  unfold Path.of_str. destruct (Path.splitroot s) as [r rel]. simpl.
  induction (split_on_clean "/" rel) as [|x l Hx _ IH]; simpl; [done|].
  destruct (Path.keep_part x); [by constructor|done].
Qed.

Lemma name_clean s : count_char "/" (Path.name (Path.of_str s)) = 0%nat.
Proof.
  unfold Path.name. pose proof (of_str_clean s) as H.
  induction H as [|x l Hx Hl IH]; [done|].
  destruct l; [done|]. exact IH.
Qed.

Lemma display_of_clean s : (count_char "/" (display_of (Path.of_str s)) <= 1)%nat.
Proof.
  unfold display_of.
  destruct (Nat.ltb_spec 2 (length (parts (Path.of_str s)))) as [Hlong|];
    [|rewrite name_clean; lia].
  pose proof (of_str_clean s) as Hclean.
  set (t := Path.tail (Path.of_str s)) in *.
  assert (exists n, drop (length (parts (Path.of_str s)) - 2) (parts (Path.of_str s))
                    = drop n t /\ length (drop n t) = 2%nat) as (n & -> & Hlen).
  { unfold parts in *. fold t in Hlong |- *.
    destruct (String.eqb (Path.root (Path.of_str s)) "").
    - exists (length t - 2)%nat. split; [done|]. rewrite length_drop. lia.
    - simpl in Hlong. exists (length t - 2)%nat.
      replace (length (Path.root (Path.of_str s) :: t) - 2)%nat
        with (S (length t - 2)) by (simpl; lia).
      split; [done|]. rewrite length_drop. lia. }
  pose proof (Forall_drop _ n _ Hclean) as Hdrop.
  destruct (drop n t) as [|a [|b [|]]]; try done.
  apply Forall_cons in Hdrop as [Ha Hdrop].
  apply Forall_cons in Hdrop as [Hb _].
  change (Path.join "/" [a; b]) with (a ++ String "/" b).
  rewrite count_char_app. simpl. lia.
Qed.

(** X25: a summary of a file tool shows little of the path: for [Write]
    and [Edit] the name of the file alone, without any slash, and for
    [Read] the last two components at most, with one slash between them. *)
Theorem format_tool_summary_names py_str dict_slice_error tool_input file_path :
  get tool_input "file_path" (JStr "unknown") = Ok (JStr file_path) ->
  format_tool_summary py_str dict_slice_error (JStr "Write") tool_input
  = Ok ("Write: " ++ Path.name (Path.of_str file_path)) /\
  format_tool_summary py_str dict_slice_error (JStr "Edit") tool_input
  = Ok ("Edit: " ++ Path.name (Path.of_str file_path)) /\
  format_tool_summary py_str dict_slice_error (JStr "Read") tool_input
  = Ok ("Read: " ++ display_of (Path.of_str file_path)) /\
  count_char "/" (Path.name (Path.of_str file_path)) = 0%nat /\
  (count_char "/" (display_of (Path.of_str file_path)) <= 1)%nat.
Proof.
  intros Hget. unfold format_tool_summary.
  change (eq_str (JStr "Write") "Read") with false.
  change (eq_str (JStr "Write") "Write") with true.
  change (eq_str (JStr "Edit") "Read") with false.
  change (eq_str (JStr "Edit") "Write") with false.
  change (eq_str (JStr "Edit") "Edit") with true.
  change (eq_str (JStr "Read") "Read") with true. cbv iota.
  rewrite Hget. simpl mbind.
  split; [done|]. split; [done|]. split; [done|].
  split; [apply name_clean|apply display_of_clean].
Qed.

Lemma format_tool_summary_names_witness :
  get (JObj [("file_path", JStr "/home/user/project/src/cli.py")]) "file_path"
    (JStr "unknown")
  = Ok (JStr "/home/user/project/src/cli.py") /\
  format_tool_summary str_unused TypeError (JStr "Write")
    (JObj [("file_path", JStr "/home/user/project/src/cli.py")])
  = Ok ("Write: " ++ Path.name (Path.of_str "/home/user/project/src/cli.py")) /\
  format_tool_summary str_unused TypeError (JStr "Edit")
    (JObj [("file_path", JStr "/home/user/project/src/cli.py")])
  = Ok ("Edit: " ++ Path.name (Path.of_str "/home/user/project/src/cli.py")) /\
  format_tool_summary str_unused TypeError (JStr "Read")
    (JObj [("file_path", JStr "/home/user/project/src/cli.py")])
  = Ok ("Read: " ++ display_of (Path.of_str "/home/user/project/src/cli.py")) /\
  count_char "/" (Path.name (Path.of_str "/home/user/project/src/cli.py")) = 0%nat /\
  (count_char "/" (display_of (Path.of_str "/home/user/project/src/cli.py")) <= 1)%nat.
Proof.
  assert (get (JObj [("file_path", JStr "/home/user/project/src/cli.py")])
            "file_path" (JStr "unknown")
          = Ok (JStr "/home/user/project/src/cli.py")) as H by reflexivity.
  split; [exact H|].
  exact (format_tool_summary_names str_unused TypeError
           (JObj [("file_path", JStr "/home/user/project/src/cli.py")])
           "/home/user/project/src/cli.py" H).
Defined.
